(** * Crown renderer: command submission and execution core

    A shallow embedding of [Renderer] (the header that declares the
    producer-facing API, [execute_commands], [update_uniforms],
    [swap_contexts], [frame] and [render_all]) together with the
    collaborators it includes but that live in other headers
    ([IdTable.h], [RenderContext.h], [OS.h]).  The collaborators are
    modelled from the written specification and are marked as such.
    [ShaderManager] of [world/shader_manager.cpp] is embedded beside it. *)

From Stdlib Require Import NArith Lia Ascii String.
From stdpp Require Import base numbers list strings option relations gmap.

Set Default Proof Using "Type".

(** ** Handle tables *)

Module IdTable.

(** Modelled from the spec: [IdTable.h] (the [Id] struct).  An opaque
    handle combining a slot index and a generation marker. *)
Record Id := mkId { id_index : nat; id_generation : nat }.

#[global] Instance Id_eq_dec : EqDecision Id.
Proof. solve_decision. Defined.

(** Modelled from the spec: one entry of the capacity-bounded array of
    a handle table; a slot is live or free and remembers its generation. *)
Record Slot := mkSlot { slot_live : bool; slot_generation : nat }.

(** Modelled from the spec: [IdTable<MAX>], a fixed-capacity slot
    allocator.  The array has exactly [MAX] entries and never grows. *)
Record t := mkTable { m_slots : list Slot }.

Definition make (MAX : nat) : t :=
  {| m_slots := replicate MAX (mkSlot false 0) |}.

Definition capacity (tb : t) : nat := length (m_slots tb).

(** Modelled from the spec: [has(id)] is an O(1) check of the slot the
    id names: the slot is live and carries the id's generation. *)
Definition has (tb : t) (id : Id) : bool :=
  match m_slots tb !! id_index id with
  | Some s => slot_live s && bool_decide (slot_generation s = id_generation id)
  | None => false
  end.

(** Modelled from the spec: [create()] allocates the lowest free slot,
    marks it live and returns an id; it fails ([None], the capacity
    error) when every slot is occupied. *)
Definition create (tb : t) : option (Id * t) :=
  match list_find (λ s, slot_live s = false) (m_slots tb) with
  | Some (i, s) =>
      Some (mkId i (slot_generation s),
            {| m_slots := <[i := mkSlot true (slot_generation s)]> (m_slots tb) |})
  | None => None
  end.

(** Modelled from the spec: [destroy(id)] marks the slot free; the
    generation moves on so that the old id stays distinguishable when
    the slot is reused.  Destroying an id the table does not have is a
    precondition violation ([None]). *)
Definition destroy (tb : t) (id : Id) : option t :=
  if has tb id
  then Some {| m_slots := <[id_index id := mkSlot false (S (id_generation id))]> (m_slots tb) |}
  else None.

(** The ids for which [has] answers true, slot by slot. *)
Fixpoint live_from (i : nat) (l : list Slot) : list Id :=
  match l with
  | [] => []
  | s :: l' =>
      (if slot_live s then [mkId i (slot_generation s)] else [])
        ++ live_from (S i) l'
  end.

Definition live_ids (tb : t) : list Id := live_from 0 (m_slots tb).

(** A call on a table, for stating properties over call sequences. *)
Inductive op := Create | Destroy (id : Id).

(** A faulting call leaves the table as it was. *)
Definition apply_op (tb : t) (o : op) : t :=
  match o with
  | Create => match create tb with Some (_, tb') => tb' | None => tb end
  | Destroy id => match destroy tb id with Some tb' => tb' | None => tb end
  end.

Definition run_ops (ops : list op) (tb : t) : t := foldl apply_op tb ops.

End IdTable.

Abbreviation Id := IdTable.Id.

(** ** Values carried by the streams *)

(** The opcodes [execute_commands] switches on.  The enumeration itself
    is declared outside the renderer header; [OTHER_COMMAND] stands for
    any value that reaches the [default] branch of the switch. *)
Inductive CommandType :=
| INIT_RENDERER
| SHUTDOWN_RENDERER
| CREATE_VERTEX_BUFFER
| CREATE_DYNAMIC_VERTEX_BUFFER
| UPDATE_VERTEX_BUFFER
| DESTROY_VERTEX_BUFFER
| CREATE_INDEX_BUFFER
| CREATE_DYNAMIC_INDEX_BUFFER
| UPDATE_INDEX_BUFFER
| DESTROY_INDEX_BUFFER
| CREATE_TEXTURE
| UPDATE_TEXTURE
| DESTROY_TEXTURE
| CREATE_SHADER
| DESTROY_SHADER
| CREATE_GPU_PROGRAM
| DESTROY_GPU_PROGRAM
| CREATE_UNIFORM
| DESTROY_UNIFORM
| END
| OTHER_COMMAND (raw : N).

#[global] Instance CommandType_eq_dec : EqDecision CommandType.
Proof. solve_decision. Defined.

(** Enumerations of [VertexFormat.h], [PixelFormat.h] and of the
    shader headers, kept as their enumerator value. *)
Inductive VertexFormat := VertexFormatEnum (v : N).
Inductive PixelFormat := PixelFormatEnum (v : N).
Inductive ShaderType := ShaderTypeEnum (v : N).

(** [UniformType::Enum]; [UniformType_END] is the sentinel that
    [update_uniforms] compares against. *)
Inductive UniformType := UniformTypeEnum (v : N) | UniformType_END.

(** [ShaderUniform::Enum]; [ShaderUniform_COUNT] is what
    [name_to_stock_uniform] answers for a name that is not a stock one. *)
Inductive ShaderUniform := ShaderUniformEnum (v : N) | ShaderUniform_COUNT.

#[global] Instance VertexFormat_eq_dec : EqDecision VertexFormat.
Proof. solve_decision. Defined.
#[global] Instance PixelFormat_eq_dec : EqDecision PixelFormat.
Proof. solve_decision. Defined.
#[global] Instance ShaderType_eq_dec : EqDecision ShaderType.
Proof. solve_decision. Defined.
#[global] Instance UniformType_eq_dec : EqDecision UniformType.
Proof. solve_decision. Defined.
#[global] Instance ShaderUniform_eq_dec : EqDecision ShaderUniform.
Proof. solve_decision. Defined.

(** A raw pointer ([const void*], [char*]) written into a stream: only
    the address travels, the memory behind it is the caller's. *)
Inductive Pointer := Address (a : N).

#[global] Instance Pointer_eq_dec : EqDecision Pointer.
Proof. solve_decision. Defined.

(** The ways the renderer can stop with an error. *)
Inductive Fault :=
| PreconditionFault (msg : string)   (* a failed CE_ASSERT on the producer side *)
| CapacityFault                      (* a handle table with no free slot *)
| UnknownCommand                     (* the default branch of the dispatcher *)
| StreamFault                        (* a read past the end or of the wrong type *)
| BufferOverrun.                     (* a write outside a local array *)

(** ** Binary command stream *)

(** Modelled from the spec: [CommandBuffer] (declared in
    [RenderContext.h]'s includes), an append-only buffer with a typed
    write/read cursor.  One cell is the in-memory representation of one
    written value; the widths of these representations are not fixed by
    the renderer header, so a cell keeps the value and its type. *)
Inductive Cell :=
| CellCommand (c : CommandType)
| CellId (id : Id)
| CellSize (n : N)
| CellU32 (n : N)
| CellU8 (n : N)
| CellVertexFormat (f : VertexFormat)
| CellPixelFormat (f : PixelFormat)
| CellShaderType (t : ShaderType)
| CellUniformType (t : UniformType)
| CellPointer (p : Pointer)
| CellBytes (b : list ascii).

Record CommandBuffer := mkCommandBuffer {
  cb_cells : list Cell;
  cb_cursor : nat
}.

(** A freshly constructed stream. *)
Definition CommandBuffer_new : CommandBuffer :=
  {| cb_cells := []; cb_cursor := 0 |}.

(** Modelled from the spec: [write(value)] appends. *)
Definition cb_write (c : Cell) (b : CommandBuffer) : CommandBuffer :=
  {| cb_cells := cb_cells b ++ [c]; cb_cursor := cb_cursor b |}.

(** Modelled from the spec: [read(value)] advances the cursor and
    copies out a value; [None] is a read past the logical end. *)
Definition cb_read (b : CommandBuffer) : option (Cell * CommandBuffer) :=
  match cb_cells b !! cb_cursor b with
  | Some c => Some (c, {| cb_cells := cb_cells b; cb_cursor := S (cb_cursor b) |})
  | None => None
  end.

(** Modelled from the spec: [clear()] resets the stream to empty. *)
Definition cb_clear (b : CommandBuffer) : CommandBuffer := CommandBuffer_new.

(** ** Constant stream *)

(** Modelled from the spec: [ConstantBuffer], the stream of
    (type tag, uniform id, byte size, raw bytes) records. *)
Inductive ConstantCell :=
| ConstType (t : UniformType)
| ConstId (id : Id)
| ConstSize (n : N)
| ConstData (d : list ascii).

Record ConstantBuffer := mkConstantBuffer {
  kb_cells : list ConstantCell;
  kb_cursor : nat
}.

Definition ConstantBuffer_new : ConstantBuffer :=
  {| kb_cells := []; kb_cursor := 0 |}.

Definition kb_append (cs : list ConstantCell) (b : ConstantBuffer) : ConstantBuffer :=
  {| kb_cells := kb_cells b ++ cs; kb_cursor := kb_cursor b |}.

(** Modelled from the spec: [write(UniformId, type, data, size)]
    appends one tagged record. *)
Definition kb_write (id : Id) (t : UniformType) (data : list ascii) (size : N)
  (b : ConstantBuffer) : ConstantBuffer :=
  kb_append [ConstType t; ConstId id; ConstSize size; ConstData data] b.

Definition kb_read (b : ConstantBuffer) : option (ConstantCell * ConstantBuffer) :=
  match kb_cells b !! kb_cursor b with
  | Some c => Some (c, {| kb_cells := kb_cells b; kb_cursor := S (kb_cursor b) |})
  | None => None
  end.

Definition kb_clear (b : ConstantBuffer) : ConstantBuffer := ConstantBuffer_new.

(** ** Frame context *)

(** Modelled from the spec: the draw-state and per-layer setters of
    [RenderContext] and [commit]; the context keeps them in the order
    they were applied. *)
Inductive StateCall :=
| ctx_set_state (flags : N)
| ctx_set_pose (pose : N)
| ctx_set_program (id : Id)
| ctx_set_vertex_buffer (id : Id)
| ctx_set_index_buffer (id : Id) (start_index num_indices : N)
| ctx_set_texture (unit_ : N) (sampler_uniform texture : Id) (flags : N)
| ctx_set_layer_render_target (layer : N) (id : Id)
| ctx_set_layer_clear (layer flags color depth : N)
| ctx_set_layer_view (layer view : N)
| ctx_set_layer_projection (layer projection : N)
| ctx_set_layer_viewport (layer x y width height : N)
| ctx_set_layer_scissor (layer x y width height : N)
| ctx_commit (layer : N).

(** Modelled from the spec: [RenderContext], one Command Stream, one
    Constant Stream and the accumulated render state. *)
Record RenderContext := mkRenderContext {
  m_commands : CommandBuffer;
  m_constants : ConstantBuffer;
  m_state : list StateCall
}.

Definition RenderContext_new : RenderContext :=
  {| m_commands := CommandBuffer_new; m_constants := ConstantBuffer_new; m_state := [] |}.

Definition with_commands (f : CommandBuffer → CommandBuffer) (c : RenderContext) : RenderContext :=
  {| m_commands := f (m_commands c); m_constants := m_constants c; m_state := m_state c |}.

Definition with_constants (f : ConstantBuffer → ConstantBuffer) (c : RenderContext) : RenderContext :=
  {| m_commands := m_commands c; m_constants := f (m_constants c); m_state := m_state c |}.

Definition ctx_apply (s : StateCall) (c : RenderContext) : RenderContext :=
  {| m_commands := m_commands c; m_constants := m_constants c; m_state := m_state c ++ [s] |}.

(** Modelled from the spec: [RenderContext::set_uniform] appends a
    constant record; the byte size is that of the value handed in. *)
Definition ctx_set_uniform (id : Id) (t : UniformType) (value : list ascii) (num : N)
  (c : RenderContext) : RenderContext :=
  with_constants (kb_write id t value (N.of_nat (length value))) c.

(** Modelled from the spec: [RenderContext::push] appends the
    terminating END record; the constant stream is closed by its END
    type tag in the same way. *)
Definition ctx_push (c : RenderContext) : RenderContext :=
  with_constants (kb_append [ConstType UniformType_END])
    (with_commands (cb_write (CellCommand END)) c).

(** ** The renderer *)

(** The two counting signals of the renderer. *)
Inductive Signal := RenderWait | MainWait.

(** What the renderer does to the outside, in the order it does it:
    the calls into the backend (the [*_impl] member functions, which
    are defined with the graphics binding), the operations on the two
    signals, and the exchange of the contexts. *)
Inductive Event :=
| signal_waited (s : Signal)
| signal_posted (s : Signal)
| contexts_swapped
| init_impl
| shutdown_impl
| render_impl
| create_vertex_buffer_impl (id : Id) (count : N) (format : VertexFormat) (vertices : Pointer)
| create_dynamic_vertex_buffer_impl (id : Id) (count : N) (format : VertexFormat)
| update_vertex_buffer_impl (id : Id) (offset count : N) (vertices : Pointer)
| destroy_vertex_buffer_impl (id : Id)
| create_index_buffer_impl (id : Id) (count : N) (indices : Pointer)
| create_dynamic_index_buffer_impl (id : Id) (count : N)
| update_index_buffer_impl (id : Id) (offset count : N) (indices : Pointer)
| destroy_index_buffer_impl (id : Id)
| create_texture_impl (id : Id) (width height : N) (format : PixelFormat) (data : Pointer)
| update_texture_impl (id : Id) (x y width height : N) (data : Pointer)
| destroy_texture_impl (id : Id)
| create_shader_impl (id : Id) (type : ShaderType) (text : Pointer)
| destroy_shader_impl (id : Id)
| create_gpu_program_impl (id vertex pixel : Id)
| destroy_gpu_program_impl (id : Id)
| create_uniform_impl (id : Id) (name : string) (type : UniformType) (num : N)
| update_uniform_impl (id : Id) (size : N) (data : list ascii)
| destroy_uniform_impl (id : Id).

#[global] Instance Signal_eq_dec : EqDecision Signal.
Proof. solve_decision. Defined.
#[global] Instance Event_eq_dec : EqDecision Event.
Proof. solve_decision. Defined.

(** Which of [m_contexts[0]] and [m_contexts[1]] a role pointer
    ([m_submit], [m_draw]) designates. *)
Inductive ContextRef := Context0 | Context1.

#[global] Instance ContextRef_eq_dec : EqDecision ContextRef.
Proof. solve_decision. Defined.

(** The data members of [Renderer].  A semaphore is its count; [m_trace]
    is a ghost member recording the events above. *)
Record Renderer := mkRenderer {
  m_render_wait : nat;
  m_main_wait : nat;
  m_contexts_0 : RenderContext;
  m_contexts_1 : RenderContext;
  m_submit : ContextRef;
  m_draw : ContextRef;
  m_vertex_buffers : IdTable.t;
  m_index_buffers : IdTable.t;
  m_textures : IdTable.t;
  m_shaders : IdTable.t;
  m_gpu_programs : IdTable.t;
  m_uniforms : IdTable.t;
  m_render_targets : IdTable.t;
  m_is_initialized : bool;
  m_should_run : bool;
  m_trace : list Event
}.

Definition context (i : ContextRef) (r : Renderer) : RenderContext :=
  match i with Context0 => m_contexts_0 r | Context1 => m_contexts_1 r end.

Definition set_signals (rw mw : nat) (r : Renderer) : Renderer :=
  mkRenderer rw mw (m_contexts_0 r) (m_contexts_1 r) (m_submit r) (m_draw r)
    (m_vertex_buffers r) (m_index_buffers r) (m_textures r) (m_shaders r)
    (m_gpu_programs r) (m_uniforms r) (m_render_targets r)
    (m_is_initialized r) (m_should_run r) (m_trace r).

Definition set_contexts (c0 c1 : RenderContext) (r : Renderer) : Renderer :=
  mkRenderer (m_render_wait r) (m_main_wait r) c0 c1 (m_submit r) (m_draw r)
    (m_vertex_buffers r) (m_index_buffers r) (m_textures r) (m_shaders r)
    (m_gpu_programs r) (m_uniforms r) (m_render_targets r)
    (m_is_initialized r) (m_should_run r) (m_trace r).

Definition set_context (i : ContextRef) (c : RenderContext) (r : Renderer) : Renderer :=
  match i with
  | Context0 => set_contexts c (m_contexts_1 r) r
  | Context1 => set_contexts (m_contexts_0 r) c r
  end.

Definition set_roles (submit draw : ContextRef) (r : Renderer) : Renderer :=
  mkRenderer (m_render_wait r) (m_main_wait r) (m_contexts_0 r) (m_contexts_1 r) submit draw
    (m_vertex_buffers r) (m_index_buffers r) (m_textures r) (m_shaders r)
    (m_gpu_programs r) (m_uniforms r) (m_render_targets r)
    (m_is_initialized r) (m_should_run r) (m_trace r).

(** The six tables the creation calls allocate from, and the seventh. *)
Inductive TableName :=
| VertexBuffers | IndexBuffers | Textures | Shaders | GpuPrograms | Uniforms | RenderTargets.

#[global] Instance TableName_eq_dec : EqDecision TableName.
Proof. solve_decision. Defined.

Definition table (k : TableName) (r : Renderer) : IdTable.t :=
  match k with
  | VertexBuffers => m_vertex_buffers r
  | IndexBuffers => m_index_buffers r
  | Textures => m_textures r
  | Shaders => m_shaders r
  | GpuPrograms => m_gpu_programs r
  | Uniforms => m_uniforms r
  | RenderTargets => m_render_targets r
  end.

Definition set_table (k : TableName) (tb : IdTable.t) (r : Renderer) : Renderer :=
  let pick k' := if decide (k = k') then tb else table k' r in
  mkRenderer (m_render_wait r) (m_main_wait r) (m_contexts_0 r) (m_contexts_1 r)
    (m_submit r) (m_draw r)
    (pick VertexBuffers) (pick IndexBuffers) (pick Textures) (pick Shaders)
    (pick GpuPrograms) (pick Uniforms) (pick RenderTargets)
    (m_is_initialized r) (m_should_run r) (m_trace r).

Definition set_flags (is_initialized should_run : bool) (r : Renderer) : Renderer :=
  mkRenderer (m_render_wait r) (m_main_wait r) (m_contexts_0 r) (m_contexts_1 r)
    (m_submit r) (m_draw r)
    (m_vertex_buffers r) (m_index_buffers r) (m_textures r) (m_shaders r)
    (m_gpu_programs r) (m_uniforms r) (m_render_targets r)
    is_initialized should_run (m_trace r).

Definition set_trace (tr : list Event) (r : Renderer) : Renderer :=
  mkRenderer (m_render_wait r) (m_main_wait r) (m_contexts_0 r) (m_contexts_1 r)
    (m_submit r) (m_draw r)
    (m_vertex_buffers r) (m_index_buffers r) (m_textures r) (m_shaders r)
    (m_gpu_programs r) (m_uniforms r) (m_render_targets r)
    (m_is_initialized r) (m_should_run r) tr.

(** *** Member functions as state transformers *)

(** A member function either returns, stops at a fault, or (a wait on
    a signal whose count is zero) cannot proceed yet.  The renderer is
    returned in every case: after a fault it is the renderer as the
    fault found it.  [OutOfFuel] is the answer of a loop that was given
    too few iterations; the loops below are shown never to give it. *)
Inductive Result (A : Type) :=
| Ok (a : A)
| Failed (f : Fault)
| Blocked
| OutOfFuel.
Arguments Ok {A} a.
Arguments Failed {A} f.
Arguments Blocked {A}.
Arguments OutOfFuel {A}.

Definition M (A : Type) : Type := Renderer → Result A * Renderer.

Definition ret {A} (a : A) : M A := λ r, (Ok a, r).

Definition bind {A B} (c : M A) (k : A → M B) : M B :=
  λ r, match c r with
       | (Ok a, r') => k a r'
       | (Failed f, r') => (Failed f, r')
       | (Blocked, r') => (Blocked, r')
       | (OutOfFuel, r') => (OutOfFuel, r')
       end.

Notation "x <- c ;; k" := (bind c (λ x, k))
  (at level 100, c at next level, k at level 200, right associativity).
Notation "c >> k" := (bind c (λ _, k))
  (at level 100, k at level 200, right associativity).

(** [CE_ASSERT(cond, msg)]. *)
Definition CE_ASSERT (cond : Renderer → bool) (msg : string) : M unit :=
  λ r, if cond r then (Ok tt, r) else (Failed (PreconditionFault msg), r).

Definition emit (e : Event) : M unit :=
  λ r, (Ok tt, set_trace (m_trace r ++ [e]) r).

(** [m_submit->m_commands.write(x)]. *)
Definition submit_write (x : Cell) : M unit :=
  λ r, (Ok tt, set_context (m_submit r) (with_commands (cb_write x) (context (m_submit r) r)) r).

(** [m_submit->f(...)] for a member function [f] of the context. *)
Definition on_submit (f : RenderContext → RenderContext) : M unit :=
  λ r, (Ok tt, set_context (m_submit r) (f (context (m_submit r) r)) r).

(** [m_X.create()] on one of the tables; a full table is a fault. *)
Definition table_create (k : TableName) : M Id :=
  λ r, match IdTable.create (table k r) with
       | Some (id, tb) => (Ok id, set_table k tb r)
       | None => (Failed CapacityFault, r)
       end.

(** [m_X.has(id)]. *)
Definition table_has (k : TableName) (id : Id) (r : Renderer) : bool :=
  IdTable.has (table k r) id.

(** Modelled from the spec: the counting signal of [OS.h]; [post]
    raises the count, [wait] takes one unit and cannot proceed while
    the count is zero. *)
Definition signal_count (s : Signal) (r : Renderer) : nat :=
  match s with RenderWait => m_render_wait r | MainWait => m_main_wait r end.

Definition set_signal (s : Signal) (n : nat) (r : Renderer) : Renderer :=
  match s with
  | RenderWait => set_signals n (m_main_wait r) r
  | MainWait => set_signals (m_render_wait r) n r
  end.

Definition post (s : Signal) : M unit :=
  λ r, (Ok tt, set_trace (m_trace r ++ [signal_posted s]) (set_signal s (S (signal_count s r)) r)).

Definition wait (s : Signal) : M unit :=
  λ r, match signal_count s r with
       | O => (Blocked, r)
       | S n => (Ok tt, set_trace (m_trace r ++ [signal_waited s]) (set_signal s n r))
       end.

Definition fail {A} (f : Fault) : M A := λ r, (Failed f, r).

(** [string::strlen]: the characters before the first NUL. *)
Fixpoint strlen (s : string) : nat :=
  match s with
  | EmptyString => 0
  | String c s' => if Ascii.eqb c Ascii.zero then 0 else S (strlen s')
  end.

(** ** The shader manager

    [ShaderManager] of [world/shader_manager.cpp] keeps, for the name of
    a shader, the render state and the GPU program to draw with.  The
    map is filled from a shader resource by [online], emptied by
    [offline] and read by [submit].  The hash map, the resource manager
    and [bgfx] are declared outside the file and are modelled from the
    way the file uses them: the map as a finite map, the resource
    manager as the resource it returns for an id, [bgfx] as the list of
    the calls it has received.  [load] and [unload], which read a file
    and manage memory, are not embedded. *)

Module ShaderManager.

(** [StringId32::_id] and [StringId64::_id]. *)
Definition StringId32 := N.
Definition StringId64 := N.

(** Handles of [bgfx]: an index, [kInvalidHandle] when there is none. *)
Record ShaderHandle := mkShaderHandle { shader_idx : N }.
Record ProgramHandle := mkProgramHandle { program_idx : N }.

(** The calls the file makes to [bgfx], the creations with the handle
    they returned. *)
Inductive BgfxCall :=
| CreateShader (mem : Pointer) (returned : ShaderHandle)
| CreateProgram (vs fs : ShaderHandle) (destroy_shaders : bool) (returned : ProgramHandle)
| DestroyProgram (program : ProgramHandle)
| SetState (state : N)
| Submit (view_id : N) (program : ProgramHandle).

(** What the file takes from [bgfx]: two constants, and the handles the
    creation functions return, which may depend on every call made
    before. *)
Record Bgfx := mkBgfx {
  BGFX_STATE_DEFAULT : N;
  kInvalidHandle : N;
  createShader : list BgfxCall → Pointer → ShaderHandle;
  createProgram : list BgfxCall → ShaderHandle → ShaderHandle → bool → ProgramHandle
}.

Definition BGFX_INVALID_HANDLE (b : Bgfx) : ProgramHandle := mkProgramHandle (kInvalidHandle b).

(** [bgfx::isValid(handle)]. *)
Definition isValid_shader (b : Bgfx) (h : ShaderHandle) : bool :=
  negb (shader_idx h =? kInvalidHandle b)%N.

Definition isValid_program (b : Bgfx) (h : ProgramHandle) : bool :=
  negb (program_idx h =? kInvalidHandle b)%N.

(** [ShaderManager::ShaderData]. *)
Record ShaderData := mkShaderData {
  sd_state : N;
  sd_program : ProgramHandle
}.

(** [ShaderResource::Data] and the array [ShaderResource::_data]. *)
Record Data := mkData {
  data_name : StringId32;
  data_state : N;
  data_vsmem : Pointer;
  data_fsmem : Pointer
}.

Definition ShaderResource := list Data.

(** [rm.get(RESOURCE_TYPE_SHADER, id)]. *)
Definition ResourceManager := StringId64 → ShaderResource.

(** The member [_shader_map], and the calls [bgfx] has received. *)
Record State := mkState {
  _shader_map : gmap StringId32 ShaderData;
  bgfx_calls : list BgfxCall
}.

Definition call (c : BgfxCall) (w : State) : State :=
  mkState (_shader_map w) (bgfx_calls w ++ [c]).

Definition set_shader_map (m : gmap StringId32 ShaderData) (w : State) : State :=
  mkState m (bgfx_calls w).

(** [hash_map::has(map, key)] and [hash_map::get(map, key, deffault)]. *)
Definition hash_map_has (m : gmap StringId32 ShaderData) (key : StringId32) : bool :=
  bool_decide (is_Some (m !! key)).

Definition hash_map_get (m : gmap StringId32 ShaderData) (key : StringId32)
    (deffault : ShaderData) : ShaderData :=
  default deffault (m !! key).

Definition add_shader (name : StringId32) (state : N) (program : ProgramHandle)
    (w : State) : State :=
  set_shader_map (<[name := mkShaderData state program]> (_shader_map w)) w.

Definition submit (b : Bgfx) (shader_id : StringId32) (view_id : N) (w : State) :
    Result unit * State :=
  if hash_map_has (_shader_map w) shader_id then
    let sd := hash_map_get (_shader_map w) shader_id
                (mkShaderData (BGFX_STATE_DEFAULT b) (BGFX_INVALID_HANDLE b)) in
    (Ok tt, call (Submit view_id (sd_program sd)) (call (SetState (sd_state sd)) w))
  else (Failed (PreconditionFault "Shader not found"), w).

(** One iteration of the loop of [online]. *)
Definition online_body (b : Bgfx) (data : Data) (w : State) : Result unit * State :=
  let vs := createShader b (bgfx_calls w) (data_vsmem data) in
  let w1 := call (CreateShader (data_vsmem data) vs) w in
  if isValid_shader b vs then
    let fs := createShader b (bgfx_calls w1) (data_fsmem data) in
    let w2 := call (CreateShader (data_fsmem data) fs) w1 in
    if isValid_shader b fs then
      let program := createProgram b (bgfx_calls w2) vs fs true in
      let w3 := call (CreateProgram vs fs true program) w2 in
      if isValid_program b program then
        (Ok tt, add_shader (data_name data) (data_state data) program w3)
      else (Failed (PreconditionFault "Failed to create GPU program"), w3)
    else (Failed (PreconditionFault "Failed to create fragment shader"), w2)
  else (Failed (PreconditionFault "Failed to create vertex shader"), w1).

Fixpoint online_loop (b : Bgfx) (shader : ShaderResource) (w : State) : Result unit * State :=
  match shader with
  | [] => (Ok tt, w)
  | data :: rest =>
      match online_body b data w with
      | (Ok _, w') => online_loop b rest w'
      | stopped => stopped
      end
  end.

Definition online (b : Bgfx) (id : StringId64) (rm : ResourceManager) (w : State) :
    Result unit * State :=
  online_loop b (rm id) w.

(** One iteration of the loop of [offline]. *)
Definition offline_body (b : Bgfx) (data : Data) (w : State) : State :=
  let sd := hash_map_get (_shader_map w) (data_name data)
              (mkShaderData (BGFX_STATE_DEFAULT b) (BGFX_INVALID_HANDLE b)) in
  let w1 := call (DestroyProgram (sd_program sd)) w in
  set_shader_map (delete (data_name data) (_shader_map w1)) w1.

Fixpoint offline_loop (b : Bgfx) (shader : ShaderResource) (w : State) : State :=
  match shader with
  | [] => w
  | data :: rest => offline_loop b rest (offline_body b data w)
  end.

Definition offline (b : Bgfx) (id : StringId64) (rm : ResourceManager) (w : State) : State :=
  offline_loop b (rm id) w.

(** The programs a list of calls created, and those it destroyed. *)
Definition programs_created (cs : list BgfxCall) : list ProgramHandle :=
  cs ≫= λ c, match c with CreateProgram _ _ _ h => [h] | _ => [] end.

Definition programs_destroyed (cs : list BgfxCall) : list ProgramHandle :=
  cs ≫= λ c, match c with DestroyProgram h => [h] | _ => [] end.

Definition creation (c : BgfxCall) : bool :=
  match c with CreateShader _ _ | CreateProgram _ _ _ _ => true | _ => false end.

(** The map after the entries [dps] were registered, in this order. *)
Definition register (m : gmap StringId32 ShaderData) (dps : list (Data * ProgramHandle)) :
    gmap StringId32 ShaderData :=
  foldl (λ m dp, <[data_name dp.1 := mkShaderData (data_state dp.1) dp.2]> m) m dps.

(** The program the map holds for a name, [BGFX_INVALID_HANDLE] if none. *)
Definition held (b : Bgfx) (m : gmap StringId32 ShaderData) (name : StringId32) : ProgramHandle :=
  sd_program (hash_map_get m name (mkShaderData (BGFX_STATE_DEFAULT b) (BGFX_INVALID_HANDLE b))).

End ShaderManager.

(** ** The producer-facing API *)

Section Renderer.

(** The compile-time maxima of [Config.h]. *)
Variable CROWN_MAX_VERTEX_BUFFERS : nat.
Variable CROWN_MAX_INDEX_BUFFERS : nat.
Variable CROWN_MAX_TEXTURES : nat.
Variable CROWN_MAX_SHADERS : nat.
Variable CROWN_MAX_GPU_PROGRAMS : nat.
Variable CROWN_MAX_UNIFORMS : nat.
Variable CROWN_MAX_RENDER_TARGETS : nat.
Variable CROWN_MAX_UNIFORM_NAME_LENGTH : nat.

(** The [extern] function [name_to_stock_uniform], from a C string to
    [ShaderUniform::Enum]. *)
Variable name_to_stock_uniform : string → ShaderUniform.

Definition create_vertex_buffer (count : N) (format : VertexFormat) (vertices : Pointer) : M Id :=
  id <- table_create VertexBuffers ;;
  submit_write (CellCommand CREATE_VERTEX_BUFFER) >>
  submit_write (CellId id) >>
  submit_write (CellSize count) >>
  submit_write (CellVertexFormat format) >>
  submit_write (CellPointer vertices) >>
  ret id.

Definition create_dynamic_vertex_buffer (count : N) (format : VertexFormat) : M Id :=
  id <- table_create VertexBuffers ;;
  submit_write (CellCommand CREATE_DYNAMIC_VERTEX_BUFFER) >>
  submit_write (CellId id) >>
  submit_write (CellSize count) >>
  submit_write (CellVertexFormat format) >>
  ret id.

Definition update_vertex_buffer (id : Id) (offset count : N) (vertices : Pointer) : M unit :=
  CE_ASSERT (table_has VertexBuffers id) "Vertex buffer does not exist" >>
  submit_write (CellCommand UPDATE_VERTEX_BUFFER) >>
  submit_write (CellId id) >>
  submit_write (CellSize offset) >>
  submit_write (CellSize count) >>
  submit_write (CellPointer vertices).

Definition destroy_vertex_buffer (id : Id) : M unit :=
  CE_ASSERT (table_has VertexBuffers id) "Vertex buffer does not exist" >>
  submit_write (CellCommand DESTROY_VERTEX_BUFFER) >>
  submit_write (CellId id).

Definition create_index_buffer (count : N) (indices : Pointer) : M Id :=
  id <- table_create IndexBuffers ;;
  submit_write (CellCommand CREATE_INDEX_BUFFER) >>
  submit_write (CellId id) >>
  submit_write (CellSize count) >>
  submit_write (CellPointer indices) >>
  ret id.

Definition create_dynamic_index_buffer (count : N) : M Id :=
  id <- table_create IndexBuffers ;;
  submit_write (CellCommand CREATE_DYNAMIC_INDEX_BUFFER) >>
  submit_write (CellId id) >>
  submit_write (CellSize count) >>
  ret id.

Definition update_index_buffer (id : Id) (offset count : N) (indices : Pointer) : M unit :=
  CE_ASSERT (table_has IndexBuffers id) "Index buffer does not exist" >>
  submit_write (CellCommand UPDATE_INDEX_BUFFER) >>
  submit_write (CellId id) >>
  submit_write (CellSize offset) >>
  submit_write (CellSize count) >>
  submit_write (CellPointer indices).

Definition destroy_index_buffer (id : Id) : M unit :=
  CE_ASSERT (table_has IndexBuffers id) "Index buffer does not exist" >>
  submit_write (CellCommand DESTROY_INDEX_BUFFER) >>
  submit_write (CellId id).

Definition create_texture (width height : N) (format : PixelFormat) (data : Pointer) : M Id :=
  id <- table_create Textures ;;
  submit_write (CellCommand CREATE_TEXTURE) >>
  submit_write (CellId id) >>
  submit_write (CellU32 width) >>
  submit_write (CellU32 height) >>
  submit_write (CellPixelFormat format) >>
  submit_write (CellPointer data) >>
  ret id.

Definition update_texture (id : Id) (x y width height : N) (data : Pointer) : M unit :=
  CE_ASSERT (table_has Textures id) "Texture does not exist" >>
  submit_write (CellCommand UPDATE_TEXTURE) >>
  submit_write (CellId id) >>
  submit_write (CellU32 x) >>
  submit_write (CellU32 y) >>
  submit_write (CellU32 width) >>
  submit_write (CellU32 height) >>
  submit_write (CellPointer data).

Definition destroy_texture (id : Id) : M unit :=
  CE_ASSERT (table_has Textures id) "Texture does not exist" >>
  submit_write (CellCommand DESTROY_TEXTURE) >>
  submit_write (CellId id).

Definition create_shader (type : ShaderType) (text : Pointer) : M Id :=
  id <- table_create Shaders ;;
  submit_write (CellCommand CREATE_SHADER) >>
  submit_write (CellId id) >>
  submit_write (CellShaderType type) >>
  submit_write (CellPointer text) >>
  ret id.

Definition destroy_shader (id : Id) : M unit :=
  CE_ASSERT (table_has Shaders id) "Shader does not exist" >>
  submit_write (CellCommand DESTROY_SHADER) >>
  submit_write (CellId id).

Definition create_gpu_program (vertex pixel : Id) : M Id :=
  id <- table_create GpuPrograms ;;
  submit_write (CellCommand CREATE_GPU_PROGRAM) >>
  submit_write (CellId id) >>
  submit_write (CellId vertex) >>
  submit_write (CellId pixel) >>
  ret id.

Definition destroy_gpu_program (id : Id) : M unit :=
  CE_ASSERT (table_has GpuPrograms id) "GPU program does not exist" >>
  submit_write (CellCommand DESTROY_GPU_PROGRAM) >>
  submit_write (CellId id).

Definition create_uniform (name : string) (type : UniformType) (num : N) : M Id :=
  CE_ASSERT (λ _, bool_decide (name_to_stock_uniform name = ShaderUniform_COUNT))
    "Uniform name '%s' is a stock uniform." >>
  id <- table_create Uniforms ;;
  let len := strlen name in
  CE_ASSERT (λ _, bool_decide (len < CROWN_MAX_UNIFORM_NAME_LENGTH))
    "Max uniform name length is %d" >>
  submit_write (CellCommand CREATE_UNIFORM) >>
  submit_write (CellId id) >>
  submit_write (CellSize (N.of_nat len)) >>
  submit_write (CellBytes (take len (list_ascii_of_string name))) >>
  submit_write (CellUniformType type) >>
  submit_write (CellU8 num) >>
  ret id.

Definition destroy_uniform (id : Id) : M unit :=
  CE_ASSERT (table_has Uniforms id) "Uniform does not exist" >>
  submit_write (CellCommand DESTROY_UNIFORM) >>
  submit_write (CellId id).

Definition set_state (flags : N) : M unit := on_submit (ctx_apply (ctx_set_state flags)).

Definition set_pose (pose : N) : M unit := on_submit (ctx_apply (ctx_set_pose pose)).

Definition set_program (id : Id) : M unit :=
  CE_ASSERT (table_has GpuPrograms id) "GPU program does not exist" >>
  on_submit (ctx_apply (ctx_set_program id)).

Definition set_vertex_buffer (id : Id) : M unit :=
  CE_ASSERT (table_has VertexBuffers id) "Vertex buffer does not exist" >>
  on_submit (ctx_apply (ctx_set_vertex_buffer id)).

Definition set_index_buffer (id : Id) (start_index num_indices : N) : M unit :=
  CE_ASSERT (table_has IndexBuffers id) "Index buffer does not exist" >>
  on_submit (ctx_apply (ctx_set_index_buffer id start_index num_indices)).

(** [value] is [None] for a null pointer, otherwise the bytes it points to. *)
Definition set_uniform (id : Id) (type : UniformType) (value : option (list ascii)) (num : N) : M unit :=
  CE_ASSERT (table_has Uniforms id) "Uniform does not exist" >>
  match value with
  | None => fail (PreconditionFault "value is NULL")
  | Some bytes => on_submit (ctx_set_uniform id type bytes num)
  end.

Definition set_texture (unit_ : N) (sampler_uniform texture : Id) (flags : N) : M unit :=
  CE_ASSERT (table_has Uniforms sampler_uniform) "Uniform does not exist" >>
  CE_ASSERT (table_has Textures texture) "Texture does not exist" >>
  on_submit (ctx_apply (ctx_set_texture unit_ sampler_uniform texture flags)).

Definition set_layer_render_target (layer : N) (id : Id) : M unit :=
  CE_ASSERT (table_has RenderTargets id) "Render target does not exist" >>
  on_submit (ctx_apply (ctx_set_layer_render_target layer id)).

Definition set_layer_clear (layer flags color depth : N) : M unit :=
  on_submit (ctx_apply (ctx_set_layer_clear layer flags color depth)).

Definition set_layer_view (layer view : N) : M unit :=
  on_submit (ctx_apply (ctx_set_layer_view layer view)).

Definition set_layer_projection (layer projection : N) : M unit :=
  on_submit (ctx_apply (ctx_set_layer_projection layer projection)).

Definition set_layer_viewport (layer x y width height : N) : M unit :=
  on_submit (ctx_apply (ctx_set_layer_viewport layer x y width height)).

Definition set_layer_scissor (layer x y width height : N) : M unit :=
  on_submit (ctx_apply (ctx_set_layer_scissor layer x y width height)).

Definition commit (layer : N) : M unit := on_submit (ctx_apply (ctx_commit layer)).

(** ** The command dispatcher *)

(** [cmds.read(x)] on the command stream of context [i]. *)
Definition cmds_read (i : ContextRef) : M Cell :=
  λ r, match cb_read (m_commands (context i r)) with
       | Some (c, b) => (Ok c, set_context i (with_commands (λ _, b) (context i r)) r)
       | None => (Failed StreamFault, r)
       end.

Definition read_command (i : ContextRef) : M CommandType :=
  c <- cmds_read i ;; match c with CellCommand x => ret x | _ => fail StreamFault end.

Definition read_id (i : ContextRef) : M Id :=
  c <- cmds_read i ;; match c with CellId x => ret x | _ => fail StreamFault end.

Definition read_size (i : ContextRef) : M N :=
  c <- cmds_read i ;; match c with CellSize x => ret x | _ => fail StreamFault end.

Definition read_u32 (i : ContextRef) : M N :=
  c <- cmds_read i ;; match c with CellU32 x => ret x | _ => fail StreamFault end.

Definition read_u8 (i : ContextRef) : M N :=
  c <- cmds_read i ;; match c with CellU8 x => ret x | _ => fail StreamFault end.

Definition read_vertex_format (i : ContextRef) : M VertexFormat :=
  c <- cmds_read i ;; match c with CellVertexFormat x => ret x | _ => fail StreamFault end.

Definition read_pixel_format (i : ContextRef) : M PixelFormat :=
  c <- cmds_read i ;; match c with CellPixelFormat x => ret x | _ => fail StreamFault end.

Definition read_shader_type (i : ContextRef) : M ShaderType :=
  c <- cmds_read i ;; match c with CellShaderType x => ret x | _ => fail StreamFault end.

Definition read_uniform_type (i : ContextRef) : M UniformType :=
  c <- cmds_read i ;; match c with CellUniformType x => ret x | _ => fail StreamFault end.

Definition read_pointer (i : ContextRef) : M Pointer :=
  c <- cmds_read i ;; match c with CellPointer x => ret x | _ => fail StreamFault end.

(** [cmds.read(data, len)]. *)
Definition read_bytes (i : ContextRef) (len : N) : M (list ascii) :=
  c <- cmds_read i ;;
  match c with
  | CellBytes b => if bool_decide (N.of_nat (length b) = len) then ret b else fail StreamFault
  | _ => fail StreamFault
  end.

(** The C string held by a character array: what precedes the first NUL. *)
Fixpoint c_str (s : string) : string :=
  match s with
  | EmptyString => EmptyString
  | String c s' => if Ascii.eqb c Ascii.zero then EmptyString else String c (c_str s')
  end.

Definition set_is_initialized (b : bool) : M unit :=
  λ r, (Ok tt, set_flags b (m_should_run r) r).

Definition set_should_run (b : bool) : M unit :=
  λ r, (Ok tt, set_flags (m_is_initialized r) b r).

(** One turn of the [do ... while (!end)] loop of [execute_commands]:
    read an opcode, run its case, answer the value of [end]. *)
Definition execute_command (i : ContextRef) : M bool :=
  command <- read_command i ;;
  match command with
  | INIT_RENDERER =>
      emit init_impl >> set_is_initialized true >> ret false
  | SHUTDOWN_RENDERER =>
      emit shutdown_impl >> set_is_initialized false >> set_should_run false >> ret false
  | CREATE_VERTEX_BUFFER =>
      id <- read_id i ;; count <- read_size i ;;
      format <- read_vertex_format i ;; vertices <- read_pointer i ;;
      emit (create_vertex_buffer_impl id count format vertices) >> ret false
  | CREATE_DYNAMIC_VERTEX_BUFFER =>
      id <- read_id i ;; count <- read_size i ;; format <- read_vertex_format i ;;
      emit (create_dynamic_vertex_buffer_impl id count format) >> ret false
  | UPDATE_VERTEX_BUFFER =>
      id <- read_id i ;; offset <- read_size i ;;
      count <- read_size i ;; vertices <- read_pointer i ;;
      emit (update_vertex_buffer_impl id offset count vertices) >> ret false
  | DESTROY_VERTEX_BUFFER =>
      id <- read_id i ;; emit (destroy_vertex_buffer_impl id) >> ret false
  | CREATE_INDEX_BUFFER =>
      id <- read_id i ;; count <- read_size i ;; indices <- read_pointer i ;;
      emit (create_index_buffer_impl id count indices) >> ret false
  | CREATE_DYNAMIC_INDEX_BUFFER =>
      id <- read_id i ;; count <- read_size i ;;
      emit (create_dynamic_index_buffer_impl id count) >> ret false
  | UPDATE_INDEX_BUFFER =>
      id <- read_id i ;; offset <- read_size i ;;
      count <- read_size i ;; indices <- read_pointer i ;;
      emit (update_index_buffer_impl id offset count indices) >> ret false
  | DESTROY_INDEX_BUFFER =>
      id <- read_id i ;; emit (destroy_index_buffer_impl id) >> ret false
  | CREATE_TEXTURE =>
      id <- read_id i ;; width <- read_u32 i ;; height <- read_u32 i ;;
      format <- read_pixel_format i ;; data <- read_pointer i ;;
      emit (create_texture_impl id width height format data) >> ret false
  | UPDATE_TEXTURE =>
      id <- read_id i ;; x <- read_u32 i ;; y <- read_u32 i ;;
      width <- read_u32 i ;; height <- read_u32 i ;; data <- read_pointer i ;;
      emit (update_texture_impl id x y width height data) >> ret false
  | DESTROY_TEXTURE =>
      id <- read_id i ;; emit (destroy_texture_impl id) >> ret false
  | CREATE_SHADER =>
      id <- read_id i ;; type <- read_shader_type i ;; text <- read_pointer i ;;
      emit (create_shader_impl id type text) >> ret false
  | DESTROY_SHADER =>
      id <- read_id i ;; emit (destroy_shader_impl id) >> ret false
  | CREATE_GPU_PROGRAM =>
      id <- read_id i ;; vertex <- read_id i ;; pixel <- read_id i ;;
      emit (create_gpu_program_impl id vertex pixel) >> ret false
  | DESTROY_GPU_PROGRAM =>
      id <- read_id i ;; emit (destroy_gpu_program_impl id) >> ret false
  | CREATE_UNIFORM =>
      id <- read_id i ;; len <- read_size i ;;
      (* char name[CROWN_MAX_UNIFORM_NAME_LENGTH]; name[len] = 0 *)
      name <- read_bytes i len ;;
      (if bool_decide (N.to_nat len < CROWN_MAX_UNIFORM_NAME_LENGTH)
       then ret tt else fail BufferOverrun) >>
      type <- read_uniform_type i ;; num <- read_u8 i ;;
      emit (create_uniform_impl id (c_str (string_of_list_ascii name)) type num) >> ret false
  | DESTROY_UNIFORM =>
      id <- read_id i ;; emit (destroy_uniform_impl id) >> ret false
  | END => ret true
  | OTHER_COMMAND _ => fail UnknownCommand
  end.

Fixpoint execute_loop (fuel : nat) (i : ContextRef) : M unit :=
  match fuel with
  | O => λ r, (OutOfFuel, r)
  | S fuel' =>
      end_ <- execute_command i ;;
      if end_ then ret tt else execute_loop fuel' i
  end.

(** The cells of context [i]'s command stream that the cursor has not
    passed.  Every turn of the loop reads at least one of them, so one
    turn more than their number is enough. *)
Definition unread (i : ContextRef) (r : Renderer) : nat :=
  length (cb_cells (m_commands (context i r))) - cb_cursor (m_commands (context i r)).

(** [execute_commands(cmds)], with [cmds] the command stream of context [i]. *)
Definition execute_commands (i : ContextRef) : M unit :=
  (λ r, execute_loop (S (unread i r)) i r) >>
  (λ r, (Ok tt, set_context i (with_commands cb_clear (context i r)) r)).

(** [cbuf.read(...)] on the constant stream of context [i]. *)
Definition const_read (i : ContextRef) : M ConstantCell :=
  λ r, match kb_read (m_constants (context i r)) with
       | Some (c, b) => (Ok c, set_context i (with_constants (λ _, b) (context i r)) r)
       | None => (Failed StreamFault, r)
       end.

Definition const_read_type (i : ContextRef) : M UniformType :=
  c <- const_read i ;; match c with ConstType x => ret x | _ => fail StreamFault end.

Definition const_read_id (i : ContextRef) : M Id :=
  c <- const_read i ;; match c with ConstId x => ret x | _ => fail StreamFault end.

Definition const_read_size (i : ContextRef) : M N :=
  c <- const_read i ;; match c with ConstSize x => ret x | _ => fail StreamFault end.

Definition const_read_data (i : ContextRef) (size : N) : M (list ascii) :=
  c <- const_read i ;;
  match c with
  | ConstData d => if bool_decide (N.of_nat (length d) = size) then ret d else fail StreamFault
  | _ => fail StreamFault
  end.

Fixpoint update_uniforms_loop (fuel : nat) (i : ContextRef) : M unit :=
  match fuel with
  | O => λ r, (OutOfFuel, r)
  | S fuel' =>
      type <- const_read_type i ;;
      match type with
      | UniformType_END => ret tt
      | UniformTypeEnum _ =>
          id <- const_read_id i ;;
          size <- const_read_size i ;;
          data <- const_read_data i size ;;
          emit (update_uniform_impl id size data) >>
          update_uniforms_loop fuel' i
      end
  end.

Definition unread_constants (i : ContextRef) (r : Renderer) : nat :=
  length (kb_cells (m_constants (context i r))) - kb_cursor (m_constants (context i r)).

(** [update_uniforms(cbuf)], with [cbuf] the constant stream of context [i]. *)
Definition update_uniforms (i : ContextRef) : M unit :=
  (λ r, update_uniforms_loop (S (unread_constants i r)) i r) >>
  (λ r, (Ok tt, set_context i (with_constants kb_clear (context i r)) r)).

(** ** Double buffer and scheduler *)

Definition swap_contexts : M unit :=
  on_submit ctx_push >>
  (λ r, (Ok tt, set_roles (m_draw r) (m_submit r) r)) >>
  emit contexts_swapped.

Definition frame : M unit :=
  post RenderWait >>
  wait MainWait.

Definition render_all : M unit :=
  wait RenderWait >>
  swap_contexts >>
  (λ r, execute_commands (m_draw r) r) >>
  (λ r, update_uniforms (m_draw r) r) >>
  (λ r, if m_is_initialized r then emit render_impl r else ret tt r) >>
  post MainWait.

(** Modelled from the spec: the constructor (defined with the backend).
    Two fixed contexts, [submit] the first and [draw] the second, empty
    tables of the configured capacities, both signals at zero. *)
Definition Renderer_new : Renderer :=
  {| m_render_wait := 0; m_main_wait := 0;
     m_contexts_0 := RenderContext_new; m_contexts_1 := RenderContext_new;
     m_submit := Context0; m_draw := Context1;
     m_vertex_buffers := IdTable.make CROWN_MAX_VERTEX_BUFFERS;
     m_index_buffers := IdTable.make CROWN_MAX_INDEX_BUFFERS;
     m_textures := IdTable.make CROWN_MAX_TEXTURES;
     m_shaders := IdTable.make CROWN_MAX_SHADERS;
     m_gpu_programs := IdTable.make CROWN_MAX_GPU_PROGRAMS;
     m_uniforms := IdTable.make CROWN_MAX_UNIFORMS;
     m_render_targets := IdTable.make CROWN_MAX_RENDER_TARGETS;
     m_is_initialized := false; m_should_run := false;
     m_trace := [] |}.

(** ** Calls of the API that return without waiting *)

Inductive Call :=
| call_create_vertex_buffer (count : N) (format : VertexFormat) (vertices : Pointer)
| call_create_dynamic_vertex_buffer (count : N) (format : VertexFormat)
| call_update_vertex_buffer (id : Id) (offset count : N) (vertices : Pointer)
| call_destroy_vertex_buffer (id : Id)
| call_create_index_buffer (count : N) (indices : Pointer)
| call_create_dynamic_index_buffer (count : N)
| call_update_index_buffer (id : Id) (offset count : N) (indices : Pointer)
| call_destroy_index_buffer (id : Id)
| call_create_texture (width height : N) (format : PixelFormat) (data : Pointer)
| call_update_texture (id : Id) (x y width height : N) (data : Pointer)
| call_destroy_texture (id : Id)
| call_create_shader (type : ShaderType) (text : Pointer)
| call_destroy_shader (id : Id)
| call_create_gpu_program (vertex pixel : Id)
| call_destroy_gpu_program (id : Id)
| call_create_uniform (name : string) (type : UniformType) (num : N)
| call_destroy_uniform (id : Id)
| call_set_state (flags : N)
| call_set_pose (pose : N)
| call_set_program (id : Id)
| call_set_vertex_buffer (id : Id)
| call_set_index_buffer (id : Id) (start_index num_indices : N)
| call_set_uniform (id : Id) (type : UniformType) (value : option (list ascii)) (num : N)
| call_set_texture (unit_ : N) (sampler_uniform texture : Id) (flags : N)
| call_set_layer_render_target (layer : N) (id : Id)
| call_set_layer_clear (layer flags color depth : N)
| call_set_layer_view (layer view : N)
| call_set_layer_projection (layer projection : N)
| call_set_layer_viewport (layer x y width height : N)
| call_set_layer_scissor (layer x y width height : N)
| call_commit (layer : N).

Definition returning {A} (c : M A) : M (option Id) := _ <- c ;; ret None.
Definition returning_id (c : M Id) : M (option Id) := id <- c ;; ret (Some id).

(** Running a call; the answer is the id a [create_*] returns. *)
Definition run_call (c : Call) : M (option Id) :=
  match c with
  | call_create_vertex_buffer n f p => returning_id (create_vertex_buffer n f p)
  | call_create_dynamic_vertex_buffer n f => returning_id (create_dynamic_vertex_buffer n f)
  | call_update_vertex_buffer id o n p => returning (update_vertex_buffer id o n p)
  | call_destroy_vertex_buffer id => returning (destroy_vertex_buffer id)
  | call_create_index_buffer n p => returning_id (create_index_buffer n p)
  | call_create_dynamic_index_buffer n => returning_id (create_dynamic_index_buffer n)
  | call_update_index_buffer id o n p => returning (update_index_buffer id o n p)
  | call_destroy_index_buffer id => returning (destroy_index_buffer id)
  | call_create_texture w h f p => returning_id (create_texture w h f p)
  | call_update_texture id x y w h p => returning (update_texture id x y w h p)
  | call_destroy_texture id => returning (destroy_texture id)
  | call_create_shader t p => returning_id (create_shader t p)
  | call_destroy_shader id => returning (destroy_shader id)
  | call_create_gpu_program v p => returning_id (create_gpu_program v p)
  | call_destroy_gpu_program id => returning (destroy_gpu_program id)
  | call_create_uniform name t n => returning_id (create_uniform name t n)
  | call_destroy_uniform id => returning (destroy_uniform id)
  | call_set_state f => returning (set_state f)
  | call_set_pose p => returning (set_pose p)
  | call_set_program id => returning (set_program id)
  | call_set_vertex_buffer id => returning (set_vertex_buffer id)
  | call_set_index_buffer id s n => returning (set_index_buffer id s n)
  | call_set_uniform id t v n => returning (set_uniform id t v n)
  | call_set_texture u s t f => returning (set_texture u s t f)
  | call_set_layer_render_target l id => returning (set_layer_render_target l id)
  | call_set_layer_clear l f c d => returning (set_layer_clear l f c d)
  | call_set_layer_view l v => returning (set_layer_view l v)
  | call_set_layer_projection l p => returning (set_layer_projection l p)
  | call_set_layer_viewport l x y w h => returning (set_layer_viewport l x y w h)
  | call_set_layer_scissor l x y w h => returning (set_layer_scissor l x y w h)
  | call_commit l => returning (commit l)
  end.

(** Running calls one after the other, stopping at the first that does
    not return; the answers are collected in order. *)
Fixpoint run_calls (cs : list Call) : M (list (option Id)) :=
  match cs with
  | [] => ret []
  | c :: cs' => a <- run_call c ;; rest <- run_calls cs' ;; ret (a :: rest)
  end.

(** What the consumer is to invoke for a call that returned [a]: the
    backend operation of the record the call wrote, with the operands
    it wrote, or nothing when the call writes no record. *)
Definition written (c : Call) (a : option Id) : list Event :=
  match c, a with
  | call_create_vertex_buffer n f p, Some id => [create_vertex_buffer_impl id n f p]
  | call_create_dynamic_vertex_buffer n f, Some id => [create_dynamic_vertex_buffer_impl id n f]
  | call_update_vertex_buffer id o n p, _ => [update_vertex_buffer_impl id o n p]
  | call_destroy_vertex_buffer id, _ => [destroy_vertex_buffer_impl id]
  | call_create_index_buffer n p, Some id => [create_index_buffer_impl id n p]
  | call_create_dynamic_index_buffer n, Some id => [create_dynamic_index_buffer_impl id n]
  | call_update_index_buffer id o n p, _ => [update_index_buffer_impl id o n p]
  | call_destroy_index_buffer id, _ => [destroy_index_buffer_impl id]
  | call_create_texture w h f p, Some id => [create_texture_impl id w h f p]
  | call_update_texture id x y w h p, _ => [update_texture_impl id x y w h p]
  | call_destroy_texture id, _ => [destroy_texture_impl id]
  | call_create_shader t p, Some id => [create_shader_impl id t p]
  | call_destroy_shader id, _ => [destroy_shader_impl id]
  | call_create_gpu_program v p, Some id => [create_gpu_program_impl id v p]
  | call_destroy_gpu_program id, _ => [destroy_gpu_program_impl id]
  | call_create_uniform name t n, Some id => [create_uniform_impl id (c_str name) t n]
  | call_destroy_uniform id, _ => [destroy_uniform_impl id]
  | _, _ => []
  end.

(** What the producer writes into the command stream between two
    handoffs: the records of the calls above, and the record each of
    [init] and [shutdown] writes before its [frame]. *)
Inductive Submission :=
| Api (c : Call)
| InitRecord
| ShutdownRecord.

Definition run_submission (s : Submission) : M (option Id) :=
  match s with
  | Api c => run_call c
  | InitRecord => returning (submit_write (CellCommand INIT_RENDERER))
  | ShutdownRecord => returning (submit_write (CellCommand SHUTDOWN_RENDERER))
  end.

Fixpoint run_submissions (ss : list Submission) : M (list (option Id)) :=
  match ss with
  | [] => ret []
  | s :: ss' => a <- run_submission s ;; rest <- run_submissions ss' ;; ret (a :: rest)
  end.

(** The backend operations the consumer is to invoke for them, in order. *)
Definition dispatched (s : Submission) (a : option Id) : list Event :=
  match s with
  | Api c => written c a
  | InitRecord => [init_impl]
  | ShutdownRecord => [shutdown_impl]
  end.

Fixpoint dispatched_all (ss : list Submission) (answers : list (option Id)) : list Event :=
  match ss, answers with
  | s :: ss', a :: answers' => dispatched s a ++ dispatched_all ss' answers'
  | _, _ => []
  end.

(** The uniform updates the consumer is to apply for them, in order. *)
Definition uniform_update (s : Submission) : list Event :=
  match s with
  | Api (call_set_uniform id _ (Some value) _) =>
      [update_uniform_impl id (N.of_nat (length value)) value]
  | _ => []
  end.

(** The value of [m_is_initialized] once the records are executed. *)
Definition initialized_after (ss : list Submission) (b : bool) : bool :=
  foldl (λ b s, match s with Api _ => b | InitRecord => true | ShutdownRecord => false end) b ss.

(** ** The two threads *)

(** Where the caller's thread stands. *)
Inductive AfterFrame := ToCaller | ToStop.

Inductive ProducerPc :=
| InUserCode                 (* between two calls of the API *)
| InInit                     (* init(): thread started, INIT_RENDERER not yet written *)
| AtPost (k : AfterFrame)    (* frame(): before m_render_wait.post() *)
| AtWait (k : AfterFrame)    (* frame(): in m_main_wait.wait() *)
| AtStop.                    (* shutdown(): in m_thread.stop() *)

(** Where [render_thread] stands ([m_thread]). *)
Inductive ConsumerPc :=
| NotStarted
| AtLoopHead                 (* while (renderer->m_should_run) *)
| AtRenderWait               (* render_all(): in m_render_wait.wait() *)
| AtSwap                     (* before swap_contexts() *)
| AtExecute                  (* before execute_commands(m_draw->m_commands) *)
| AtUniforms                 (* before update_uniforms(m_draw->m_constants) *)
| AtRender                   (* before if (m_is_initialized) render_impl() *)
| AtMainPost                 (* before m_main_wait.post() *)
| Finished.                  (* return 0 *)

#[global] Instance AfterFrame_eq_dec : EqDecision AfterFrame.
Proof. solve_decision. Defined.
#[global] Instance ProducerPc_eq_dec : EqDecision ProducerPc.
Proof. solve_decision. Defined.
#[global] Instance ConsumerPc_eq_dec : EqDecision ConsumerPc.
Proof. solve_decision. Defined.

Record System := mkSystem {
  renderer : Renderer;
  producer : ProducerPc;
  consumer : ConsumerPc
}.

(** An atomic action of one of the threads. *)
Inductive Action :=
| DoCall (c : Call)          (* producer: a call that returns without waiting *)
| DoInit                     (* producer: init() up to m_thread.start() *)
| DoInitWrite                (* producer: init() writes INIT_RENDERER *)
| DoShutdown                 (* producer: shutdown() up to its frame() *)
| DoFrame                    (* producer: frame() is called and posts *)
| DoPost                     (* producer: the post of the frame() inside init/shutdown *)
| DoWait                     (* producer: the wait of frame() returns *)
| DoStop                     (* producer: m_thread.stop() returns *)
| Consume.                   (* consumer: its next statement *)

(** An action goes through when its thread stands where the action
    starts and the statement returns; a fault stops the program, and a
    wait on a zero count does not go through. *)
Definition advance {A} (c : M A) (s : System) (p : ProducerPc) (q : ConsumerPc) : option System :=
  match c (renderer s) with
  | (Ok _, r') => Some (mkSystem r' p q)
  | _ => None
  end.

Definition after_frame (k : AfterFrame) : ProducerPc :=
  match k with ToCaller => InUserCode | ToStop => AtStop end.

Definition consume (s : System) : option System :=
  let r := renderer s in
  match consumer s with
  | NotStarted => None
  | AtLoopHead =>
      Some (mkSystem r (producer s) (if m_should_run r then AtRenderWait else Finished))
  | AtRenderWait => advance (wait RenderWait) s (producer s) AtSwap
  | AtSwap => advance swap_contexts s (producer s) AtExecute
  | AtExecute => advance (execute_commands (m_draw r)) s (producer s) AtUniforms
  | AtUniforms => advance (update_uniforms (m_draw r)) s (producer s) AtRender
  | AtRender =>
      advance (if m_is_initialized r then emit render_impl else ret tt) s (producer s) AtMainPost
  | AtMainPost => advance (post MainWait) s (producer s) AtLoopHead
  | Finished => None
  end.

Definition act (a : Action) (s : System) : option System :=
  match a, producer s with
  | DoCall c, InUserCode => advance (run_call c) s InUserCode (consumer s)
  | DoInit, InUserCode =>
      match consumer s with
      | NotStarted | Finished => advance (set_should_run true) s InInit AtLoopHead
      | _ => None
      end
  | DoInitWrite, InInit =>
      advance (submit_write (CellCommand INIT_RENDERER)) s (AtPost ToCaller) (consumer s)
  | DoShutdown, InUserCode =>
      if m_should_run (renderer s)
      then advance (submit_write (CellCommand SHUTDOWN_RENDERER)) s (AtPost ToStop) (consumer s)
      else Some s
  | DoFrame, InUserCode => advance (post RenderWait) s (AtWait ToCaller) (consumer s)
  | DoPost, AtPost k => advance (post RenderWait) s (AtWait k) (consumer s)
  | DoWait, AtWait k => advance (wait MainWait) s (after_frame k) (consumer s)
  | DoStop, AtStop =>
      match consumer s with
      | Finished => Some (mkSystem (renderer s) InUserCode Finished)
      | _ => None
      end
  | Consume, _ => consume s
  | _, _ => None
  end.

Definition step (s s' : System) : Prop := ∃ a, act a s = Some s'.

(** The program starts with a constructed renderer and no render thread. *)
Definition initial : System := mkSystem Renderer_new InUserCode NotStarted.

Definition reachable (s : System) : Prop := rtc step initial s.

(** Running a schedule, for computing with the model. *)
Fixpoint run_schedule (sched : list Action) (s : System) : option System :=
  match sched with
  | [] => Some s
  | a :: sched' => match act a s with Some s' => run_schedule sched' s' | None => None end
  end.

(** The contexts a thread may read or write where it stands.  The
    caller's thread touches the context [m_submit] points to, and only
    inside the API calls that return without waiting and in the write of
    [init]; [frame] touches none.  The render thread touches both
    contexts in [swap_contexts] and afterwards the one [m_draw] points to. *)
Definition producer_touches (s : System) : list ContextRef :=
  match producer s with
  | InUserCode | InInit => [m_submit (renderer s)]
  | AtPost _ | AtWait _ | AtStop => []
  end.

Definition consumer_touches (s : System) : list ContextRef :=
  match consumer s with
  | AtSwap => [m_submit (renderer s); m_draw (renderer s)]
  | AtExecute | AtUniforms | AtRender => [m_draw (renderer s)]
  | NotStarted | AtLoopHead | AtRenderWait | AtMainPost | Finished => []
  end.

(** Counting in the trace. *)
Definition occurrences (e : Event) (r : Renderer) : nat :=
  length (filter (λ x, x = e) (m_trace r)).

(** Calls of [frame] that have posted, and calls that have returned. *)
Definition frames_begun (r : Renderer) : nat := occurrences (signal_posted RenderWait) r.
Definition frames_returned (r : Renderer) : nat := occurrences (signal_waited MainWait) r.

(** Turns of [render_all] that have passed their wait, and turns that
    have posted at their end. *)
Definition renders_begun (r : Renderer) : nat := occurrences (signal_waited RenderWait) r.
Definition renders_done (r : Renderer) : nat := occurrences (signal_posted MainWait) r.

(** Exchanges of the two contexts. *)
Definition handoffs (r : Renderer) : nat := occurrences contexts_swapped r.

(** * Notions used in the statements *)

(** [c] relates every renderer to the renderer it leaves behind,
    whatever the outcome. *)
Definition preserves {A} (R : relation Renderer) (c : M A) : Prop :=
  ∀ r, R r (c r).2.

Definition tables_grow (r r' : Renderer) : Prop :=
  ∀ k id, table_has k id r = true → table_has k id r' = true.

(** The ids a call takes together with the table each belongs to, for
    the update and destroy calls and for the setters that take ids. *)
Definition checked_ids (c : Call) : list (TableName * Id) :=
  match c with
  | call_update_vertex_buffer id _ _ _ => [(VertexBuffers, id)]
  | call_destroy_vertex_buffer id => [(VertexBuffers, id)]
  | call_update_index_buffer id _ _ _ => [(IndexBuffers, id)]
  | call_destroy_index_buffer id => [(IndexBuffers, id)]
  | call_update_texture id _ _ _ _ _ => [(Textures, id)]
  | call_destroy_texture id => [(Textures, id)]
  | call_destroy_shader id => [(Shaders, id)]
  | call_destroy_gpu_program id => [(GpuPrograms, id)]
  | call_destroy_uniform id => [(Uniforms, id)]
  | call_set_program id => [(GpuPrograms, id)]
  | call_set_vertex_buffer id => [(VertexBuffers, id)]
  | call_set_index_buffer id _ _ => [(IndexBuffers, id)]
  | call_set_uniform id _ _ _ => [(Uniforms, id)]
  | call_set_texture _ sampler_uniform texture _ => [(Uniforms, sampler_uniform); (Textures, texture)]
  | call_set_layer_render_target _ id => [(RenderTargets, id)]
  | _ => []
  end.

(** Apart from [table_create], nothing on the producer side writes a table. *)
Definition tables_same (r r' : Renderer) : Prop := ∀ k, table k r' = table k r.

(** A call that is not a [create_*] leaves every table as it was. *)
Definition creates (c : Call) : option TableName :=
  match c with
  | call_create_vertex_buffer _ _ _ | call_create_dynamic_vertex_buffer _ _ => Some VertexBuffers
  | call_create_index_buffer _ _ | call_create_dynamic_index_buffer _ => Some IndexBuffers
  | call_create_texture _ _ _ _ => Some Textures
  | call_create_shader _ _ => Some Shaders
  | call_create_gpu_program _ _ => Some GpuPrograms
  | call_create_uniform _ _ _ => Some Uniforms
  | _ => None
  end.

(** The ids that the [create_*] calls of a sequence returned from table [k]. *)
Fixpoint created (k : TableName) (cs : list Call) (answers : list (option Id)) : list Id :=
  match cs, answers with
  | c :: cs', a :: answers' =>
      match a with
      | Some id => if decide (creates c = Some k) then id :: created k cs' answers'
                   else created k cs' answers'
      | None => created k cs' answers'
      end
  | _, _ => []
  end.

(** The six destroy calls, with the table of the id each takes. *)
Definition destroys (c : Call) : option (TableName * Id) :=
  match c with
  | call_destroy_vertex_buffer id => Some (VertexBuffers, id)
  | call_destroy_index_buffer id => Some (IndexBuffers, id)
  | call_destroy_texture id => Some (Textures, id)
  | call_destroy_shader id => Some (Shaders, id)
  | call_destroy_gpu_program id => Some (GpuPrograms, id)
  | call_destroy_uniform id => Some (Uniforms, id)
  | _ => None
  end.

(** The record a call writes into the command stream. *)
Definition record_cells (c : Call) (a : option Id) : list Cell :=
  match c, a with
  | call_create_vertex_buffer n f p, Some id =>
      [CellCommand CREATE_VERTEX_BUFFER; CellId id; CellSize n; CellVertexFormat f; CellPointer p]
  | call_create_dynamic_vertex_buffer n f, Some id =>
      [CellCommand CREATE_DYNAMIC_VERTEX_BUFFER; CellId id; CellSize n; CellVertexFormat f]
  | call_update_vertex_buffer id o n p, _ =>
      [CellCommand UPDATE_VERTEX_BUFFER; CellId id; CellSize o; CellSize n; CellPointer p]
  | call_destroy_vertex_buffer id, _ => [CellCommand DESTROY_VERTEX_BUFFER; CellId id]
  | call_create_index_buffer n p, Some id =>
      [CellCommand CREATE_INDEX_BUFFER; CellId id; CellSize n; CellPointer p]
  | call_create_dynamic_index_buffer n, Some id =>
      [CellCommand CREATE_DYNAMIC_INDEX_BUFFER; CellId id; CellSize n]
  | call_update_index_buffer id o n p, _ =>
      [CellCommand UPDATE_INDEX_BUFFER; CellId id; CellSize o; CellSize n; CellPointer p]
  | call_destroy_index_buffer id, _ => [CellCommand DESTROY_INDEX_BUFFER; CellId id]
  | call_create_texture w h f p, Some id =>
      [CellCommand CREATE_TEXTURE; CellId id; CellU32 w; CellU32 h; CellPixelFormat f; CellPointer p]
  | call_update_texture id x y w h p, _ =>
      [CellCommand UPDATE_TEXTURE; CellId id; CellU32 x; CellU32 y; CellU32 w; CellU32 h;
       CellPointer p]
  | call_destroy_texture id, _ => [CellCommand DESTROY_TEXTURE; CellId id]
  | call_create_shader t p, Some id =>
      [CellCommand CREATE_SHADER; CellId id; CellShaderType t; CellPointer p]
  | call_destroy_shader id, _ => [CellCommand DESTROY_SHADER; CellId id]
  | call_create_gpu_program v p, Some id =>
      [CellCommand CREATE_GPU_PROGRAM; CellId id; CellId v; CellId p]
  | call_destroy_gpu_program id, _ => [CellCommand DESTROY_GPU_PROGRAM; CellId id]
  | call_create_uniform name t n, Some id =>
      [CellCommand CREATE_UNIFORM; CellId id; CellSize (N.of_nat (strlen name));
       CellBytes (take (strlen name) (list_ascii_of_string name)); CellUniformType t; CellU8 n]
  | call_destroy_uniform id, _ => [CellCommand DESTROY_UNIFORM; CellId id]
  | _, _ => []
  end.

Definition submission_cells (s : Submission) (a : option Id) : list Cell :=
  match s with
  | Api c => record_cells c a
  | InitRecord => [CellCommand INIT_RENDERER]
  | ShutdownRecord => [CellCommand SHUTDOWN_RENDERER]
  end.

Fixpoint submission_cells_all (ss : list Submission) (answers : list (option Id)) : list Cell :=
  match ss, answers with
  | s :: ss', a :: answers' => submission_cells s a ++ submission_cells_all ss' answers'
  | _, _ => []
  end.

(** The constant record a submission appends. *)
Definition constant_cells (s : Submission) : list ConstantCell :=
  match s with
  | Api (call_set_uniform id t (Some value) _) =>
      [ConstType t; ConstId id; ConstSize (N.of_nat (length value)); ConstData value]
  | _ => []
  end.

(** The name of a created uniform fits the consumer's array. *)
Definition name_fits (s : Submission) : Prop :=
  match s with
  | Api (call_create_uniform name _ _) => strlen name < CROWN_MAX_UNIFORM_NAME_LENGTH
  | _ => True
  end.

(** A uniform value is not tagged with the sentinel type. *)
Definition tagged (s : Submission) : Prop :=
  match s with
  | Api (call_set_uniform _ t _ _) => t ≠ UniformType_END
  | _ => True
  end.

(** The submissions whose uniform values [update_uniforms] applies:
    those before the first value tagged with the sentinel type, which the
    loop of [update_uniforms] takes for the end of the stream. *)
Fixpoint applied (ss : list Submission) : list Submission :=
  match ss with
  | [] => []
  | Api (call_set_uniform _ UniformType_END (Some _) _) :: _ => []
  | s :: rest => s :: applied rest
  end.

(** The context the producer writes to. *)
Definition submit_context (r : Renderer) : RenderContext := context (m_submit r) r.

(** The cells of context [i]'s command stream from the cursor on. *)
Definition pending (i : ContextRef) (r : Renderer) : list Cell :=
  drop (cb_cursor (m_commands (context i r))) (cb_cells (m_commands (context i r))).

(** The renderer after one read on that stream. *)
Definition advance_cursor (i : ContextRef) (r : Renderer) : Renderer :=
  set_context i
    (with_commands (λ b, {| cb_cells := cb_cells b; cb_cursor := S (cb_cursor b) |})
       (context i r)) r.

(** The flags once the record of a submission is executed. *)
Definition flags_after (s : Submission) (flags : bool * bool) : bool * bool :=
  match s with
  | Api _ => flags
  | InitRecord => (true, flags.2)
  | ShutdownRecord => (false, false)
  end.

Definition flags (r : Renderer) : bool * bool := (m_is_initialized r, m_should_run r).

(** [f] has the same value before and after. *)
Definition keeps {B} (f : Renderer → B) : relation Renderer := λ r r', f r' = f r.

(** The events that are calls into the backend. *)
Definition backend (e : Event) : Prop :=
  match e with
  | signal_waited _ | signal_posted _ | contexts_swapped => False
  | _ => True
  end.

(** The trace has grown, by events that satisfy [P]. *)
Definition extends_trace (P : Event → Prop) : relation Renderer :=
  λ r r', ∃ evs, m_trace r' = m_trace r ++ evs ∧ Forall P evs.

Definition other (i : ContextRef) : ContextRef :=
  match i with Context0 => Context1 | Context1 => Context0 end.

Definition tables (r : Renderer) :=
  (m_vertex_buffers r, m_index_buffers r, m_textures r, m_shaders r,
   m_gpu_programs r, m_uniforms r, m_render_targets r).

Definition control (r : Renderer) := (m_submit r, m_draw r, m_render_wait r, m_main_wait r).

(** What executing the command stream of context [i] leaves alone. *)
Definition exec_view (i : ContextRef) (r : Renderer) :=
  (control r, tables r, context (other i) r,
   m_constants (context i r), m_state (context i r)).

(** What applying the constant stream of context [i] leaves alone. *)
Definition unif_view (i : ContextRef) (r : Renderer) :=
  (control r, tables r, context (other i) r,
   m_commands (context i r), m_state (context i r), flags r).

(** What a call of the producer leaves alone. *)
Definition call_view (r : Renderer) :=
  (control r, flags r, m_trace r, context (other (m_submit r)) r).

Definition idle (c : ConsumerPc) : bool :=
  match c with
  | NotStarted | AtLoopHead | AtRenderWait | Finished => true
  | AtSwap | AtExecute | AtUniforms | AtRender | AtMainPost => false
  end.

Definition waiting (p : ProducerPc) : bool :=
  match p with AtWait _ => true | _ => false end.

(** The two counts and the five counters of the trace. *)
Definition numbers (r : Renderer) : nat * nat * nat * nat * nat * nat * nat :=
  (m_render_wait r, m_main_wait r, frames_begun r, frames_returned r,
   renders_begun r, renders_done r, handoffs r).

Definition bump (e ev : Event) : nat := if decide (ev = e) then 1 else 0.

Definition rest_view (r : Renderer) :=
  (m_submit r, m_draw r, m_contexts_0 r, m_contexts_1 r, flags r, tables r).

(** The two signals and the two threads move in lockstep: the counts
    account for the begun and finished frames and turns, and at most one
    of "a unit in [m_render_wait]", "a unit in [m_main_wait]" and "the
    consumer is between its wait and its post" holds, and then the
    producer is inside [frame]. *)
Definition sync_invariant (s : System) : Prop :=
  let r := renderer s in
  let active := if idle (consumer s) then 0 else 1 in
  let inside := if waiting (producer s) then 1 else 0 in
  frames_begun r = renders_begun r + m_render_wait r ∧
  renders_done r = frames_returned r + m_main_wait r ∧
  renders_begun r = renders_done r + active ∧
  handoffs r + (if decide (consumer s = AtSwap) then 1 else 0) = renders_begun r ∧
  frames_begun r = frames_returned r + inside ∧
  m_render_wait r + m_main_wait r + active = inside.

(** The two role pointers designate different contexts; the stream
    the producer writes to has not been read and holds no END; the
    stream of the draw context is empty, except when the consumer is
    about to execute it: then it ends in its only END. *)
Definition stream_invariant (s : System) : Prop :=
  let r := renderer s in
  m_draw r = other (m_submit r) ∧
  cb_cursor (m_commands (submit_context r)) = 0 ∧
  (CellCommand END ∉ cb_cells (m_commands (submit_context r))) ∧
  (match consumer s with
   | AtExecute =>
       ∃ body, m_commands (context (m_draw r) r) =
                 {| cb_cells := body ++ [CellCommand END]; cb_cursor := 0 |} ∧
               CellCommand END ∉ body
   | _ => m_commands (context (m_draw r) r) = CommandBuffer_new
   end).

(** The cells of context [i]'s constant stream from the cursor on. *)
Definition pending_constants (i : ContextRef) (r : Renderer) : list ConstantCell :=
  drop (kb_cursor (m_constants (context i r))) (kb_cells (m_constants (context i r))).

Definition advance_constants (i : ContextRef) (r : Renderer) : Renderer :=
  set_context i
    (with_constants (λ b, {| kb_cells := kb_cells b; kb_cursor := S (kb_cursor b) |})
       (context i r)) r.

(** The actions of a run in which the producer only calls [frame]. *)
Definition frame_action (a : Action) : Prop := a = DoFrame ∨ a = DoWait ∨ a = Consume.

Definition frame_step (s s' : System) : Prop := ∃ a, frame_action a ∧ act a s = Some s'.

Definition closed_commands : CommandBuffer :=
  {| cb_cells := [CellCommand END]; cb_cursor := 0 |}.

Definition closed_constants : ConstantBuffer :=
  {| kb_cells := [ConstType UniformType_END]; kb_cursor := 0 |}.

(** The render thread runs, the streams of the submit context are
    empty, and those of the draw context are empty or, between the swap
    and their execution, hold their END and nothing else. *)
Definition settled (s : System) : Prop :=
  let r := renderer s in
  m_should_run r = true ∧
  m_draw r = other (m_submit r) ∧
  m_commands (submit_context r) = CommandBuffer_new ∧
  m_constants (submit_context r) = ConstantBuffer_new ∧
  m_commands (context (m_draw r) r) =
    (match consumer s with AtExecute => closed_commands | _ => CommandBuffer_new end) ∧
  m_constants (context (m_draw r) r) =
    (match consumer s with
     | AtExecute | AtUniforms => closed_constants
     | _ => ConstantBuffer_new
     end).

(** One call of [frame] with the turn of the consumer it waits for. *)
Definition one_frame : list Action :=
  [DoFrame; Consume; Consume; Consume; Consume; Consume; Consume; Consume; DoWait].

Fixpoint frames (n : nat) : list Action :=
  match n with
  | O => []
  | S n' => one_frame ++ frames n'
  end.

(** The producer is in user code, the render thread waits for it, and
    nothing is pending. *)
Definition ready (s : System) : Prop :=
  reachable s ∧ settled s ∧ producer s = InUserCode ∧ consumer s = AtRenderWait.

(** Whether an action is a return of [frame]. *)
Definition returns (a : Action) : nat := match a with DoWait => 1 | _ => 0 end.

(** A member function that never waits and never runs out of turns. *)
Definition total {A} (c : M A) : Prop :=
  ∀ r, match (c r).1 with Blocked | OutOfFuel => False | _ => True end.

(** Reading moves the cursor of context [i]'s command stream forward. *)
Definition reads_on (i : ContextRef) : relation Renderer :=
  λ r r', unread i r' ≤ unread i r.

(** Whether table [k] has a slot left for [m_X.create()]. *)
Definition has_free_slot (k : TableName) (r : Renderer) : bool :=
  match IdTable.create (table k r) with Some _ => true | None => false end.

(** What a call needs in order to return: the ids it checks are live,
    the table it allocates from has a free slot, and what
    [create_uniform] and [set_uniform] check besides. *)
Definition admissible (c : Call) (r : Renderer) : bool :=
  forallb (λ x, table_has x.1 x.2 r) (checked_ids c) &&
  match creates c with Some k => has_free_slot k r | None => true end &&
  match c with
  | call_create_uniform name _ _ =>
      bool_decide (name_to_stock_uniform name = ShaderUniform_COUNT) &&
      bool_decide (strlen name < CROWN_MAX_UNIFORM_NAME_LENGTH)
  | call_set_uniform _ _ value _ => bool_decide (is_Some value)
  | _ => true
  end.

(** The cells of context [i]'s command stream, read or not. *)
Definition written_cells (i : ContextRef) (r : Renderer) : list Cell :=
  cb_cells (m_commands (context i r)).


(** The render thread has been started and has not returned. *)
Definition running (c : ConsumerPc) : bool :=
  match c with NotStarted | Finished => false | _ => true end.

(** The record [shutdown] writes, when it has written it. *)
Definition shutdown_cells (shut : bool) : list Cell :=
  if shut then [CellCommand SHUTDOWN_RENDERER] else [].

(** The cells of records that calls of the API and [init] wrote,
    followed by the record of [shutdown] when [shut] is set. *)
Definition records (shut : bool) (cells : list Cell) : Prop :=
  ∃ ss answers,
    Forall name_fits ss ∧ length answers = length ss ∧ (ShutdownRecord ∉ ss) ∧
    cells = submission_cells_all ss answers ++ shutdown_cells shut.

(** The cells of constant records that calls of [set_uniform] wrote. *)
Definition constant_records (cells : list ConstantCell) : Prop :=
  ∃ ss, cells = ss ≫= constant_cells.

Definition posted (count : nat) : bool := match count with O => false | S _ => true end.

(** [shutdown] has written its record and the consumer has not yet
    taken the stream that holds it. *)
Definition closing (p : ProducerPc) (c : ConsumerPc) (render_wait : nat) : bool :=
  match p with
  | AtPost ToStop => true
  | AtWait ToStop => match c with AtSwap => true | _ => posted render_wait end
  | _ => false
  end.

(** The producer is inside the [frame] of [shutdown]. *)
Definition shutting (p : ProducerPc) : bool :=
  match p with AtWait ToStop => true | _ => false end.

(** The value of [m_should_run] where the two threads stand. *)
Definition expect_run (p : ProducerPc) (c : ConsumerPc) (render_wait : nat) : bool :=
  match c with
  | NotStarted | Finished => false
  | AtUniforms | AtRender | AtMainPost => negb (shutting p)
  | AtLoopHead =>
      match p with
      | AtStop => false
      | AtWait ToStop => posted render_wait
      | _ => true
      end
  | AtRenderWait | AtSwap | AtExecute => true
  end.

(** Where the render thread can stand while the producer is inside
    [init], [shutdown] or [frame]. *)
Definition coherent (p : ProducerPc) (c : ConsumerPc) (render_wait : nat) : bool :=
  match p with
  | InInit | AtPost _ => match c with AtLoopHead | AtRenderWait => true | _ => false end
  | AtStop => match c with AtLoopHead | Finished => true | _ => false end
  | AtWait ToStop =>
      match c with
      | NotStarted => false
      | Finished => negb (posted render_wait)
      | AtRenderWait => posted render_wait
      | _ => true
      end
  | AtWait ToCaller =>
      match c with NotStarted | Finished => posted render_wait | _ => true end
  | InUserCode => true
  end.

Definition lifecycle (p : ProducerPc) (c : ConsumerPc) (render_wait : nat)
  (should_run is_initialized : bool) (submit_cells draw_cells : list Cell) : Prop :=
  should_run = expect_run p c render_wait ∧
  coherent p c render_wait = true ∧
  (should_run = false → is_initialized = false) ∧
  records (closing p c render_wait) submit_cells ∧
  (c = AtExecute →
     ∃ body, draw_cells = body ++ [CellCommand END] ∧ records (shutting p) body).

(** [m_should_run] is set from [init] until the consumer has executed
    the record of [shutdown], and [m_is_initialized] is never set without
    it; the command streams hold well-formed records, the record of
    [shutdown] last and only while [shutdown] waits for its frame. *)
Definition lifecycle_invariant (s : System) : Prop :=
  let r := renderer s in
  lifecycle (producer s) (consumer s) (m_render_wait r)
    (m_should_run r) (m_is_initialized r)
    (cb_cells (m_commands (submit_context r)))
    (cb_cells (m_commands (context (m_draw r) r))).

(** The constant streams hold well-formed records: that of the submit
    context is unread, that of the draw context is closed by its END tag
    between the swap and its application, and empty otherwise. *)
Definition constants_invariant (s : System) : Prop :=
  let r := renderer s in
  kb_cursor (m_constants (submit_context r)) = 0 ∧
  constant_records (kb_cells (m_constants (submit_context r))) ∧
  match consumer s with
  | AtExecute | AtUniforms =>
      ∃ body, m_constants (context (m_draw r) r) =
                {| kb_cells := body ++ [ConstType UniformType_END]; kb_cursor := 0 |} ∧
              constant_records body
  | _ => m_constants (context (m_draw r) r) = ConstantBuffer_new
  end.


(** The statements the render thread has to go through before it
    posts [m_main_wait]. *)
Definition distance (c : ConsumerPc) : nat :=
  match c with
  | AtLoopHead => 7
  | AtRenderWait => 6
  | AtSwap => 5
  | AtExecute => 4
  | AtUniforms => 3
  | AtRender => 2
  | AtMainPost => 1
  | NotStarted | Finished => 0
  end.

(** Where the render thread stands after its next statement. *)
Definition after_consume (c : ConsumerPc) (should_run : bool) : ConsumerPc :=
  match c with
  | AtLoopHead => if should_run then AtRenderWait else Finished
  | AtRenderWait => AtSwap
  | AtSwap => AtExecute
  | AtExecute => AtUniforms
  | AtUniforms => AtRender
  | AtRender => AtMainPost
  | AtMainPost => AtLoopHead
  | NotStarted => NotStarted
  | Finished => Finished
  end.


(** The trace has grown and [m_should_run] is as it was. *)
Definition quiet_run : relation Renderer :=
  λ r r', (∃ evs, m_trace r' = m_trace r ++ evs) ∧ m_should_run r' = m_should_run r.

(** Once [m_should_run] has been cleared on a render thread that was
    started, the backend has been shut down. *)
Definition shut_invariant (s : System) : Prop :=
  m_should_run (renderer s) = false → consumer s ≠ NotStarted →
  shutdown_impl ∈ m_trace (renderer s).

(** [init()], statement by statement, with the turn of the render
    thread that its [frame] waits for. *)
Definition init_schedule : list Action :=
  [DoInit; DoInitWrite; DoPost] ++ replicate 7 Consume ++ [DoWait].

(** [shutdown()], statement by statement: [n] statements of the render
    thread until the wait of [frame] returns, [m] more until the thread
    has returned. *)
Definition shutdown_schedule (n m : nat) : list Action :=
  [DoShutdown; DoPost] ++ replicate n Consume ++ [DoWait] ++
  replicate m Consume ++ [DoStop].


(** * Properties *)

(** ** Handle tables *)

Lemma elem_of_live_from (i : nat) (l : list IdTable.Slot) (id : Id) :
  id ∈ IdTable.live_from i l ↔
  ∃ s, i ≤ IdTable.id_index id ∧ l !! (IdTable.id_index id - i) = Some s ∧
       IdTable.slot_live s = true ∧ IdTable.slot_generation s = IdTable.id_generation id.
Proof.
  revert i. induction l as [|s0 l IH]; intros i; simpl.
  - split; [intros H; inversion H | intros (s & _ & H & _); discriminate].
  - rewrite elem_of_app, IH. split.
    + intros [H | (s & Hle & Hl & Hs)].
      * destruct (IdTable.slot_live s0) eqn:E; [|inversion H].
        apply list_elem_of_singleton in H. subst id. simpl.
        exists s0. rewrite Nat.sub_diag. auto.
      * exists s. split; [lia|]. split; [|done].
        replace (IdTable.id_index id - i) with (S (IdTable.id_index id - S i)) by lia. done.
    + intros (s & Hle & Hl & Hlive & Hgen).
      destruct (decide (IdTable.id_index id = i)) as [Heq|Hne].
      * left. replace (IdTable.id_index id - i) with 0 in Hl by lia.
        simpl in Hl. injection Hl as ->.
        rewrite Hlive. apply list_elem_of_singleton. destruct id; simpl in *; congruence.
      * right. exists s. split; [lia|]. split; [|done].
        replace (IdTable.id_index id - i) with (S (IdTable.id_index id - S i)) in Hl by lia. done.
Qed.

Lemma has_live_ids (tb : IdTable.t) (id : Id) :
  IdTable.has tb id = true ↔ id ∈ IdTable.live_ids tb.
Proof.
  unfold IdTable.live_ids, IdTable.has. rewrite elem_of_live_from, Nat.sub_0_r. split.
  - destruct (IdTable.m_slots tb !! IdTable.id_index id) as [s|]; [|done].
    intros [H1 H2]%andb_true_iff. apply bool_decide_eq_true in H2.
    exists s. split; [lia|done].
  - intros (s & _ & -> & H1 & H2). rewrite H1. simpl. by apply bool_decide_eq_true.
Qed.

Lemma live_from_NoDup (i : nat) (l : list IdTable.Slot) : NoDup (IdTable.live_from i l).
Proof.
  revert i. induction l as [|s l IH]; intros i; simpl; [constructor|].
  destruct (IdTable.slot_live s); simpl; [|apply IH].
  constructor; [|apply IH].
  rewrite elem_of_live_from. simpl. intros (? & Hle & _). lia.
Qed.

Lemma live_from_length (i : nat) (l : list IdTable.Slot) :
  length (IdTable.live_from i l) =
  length (filter (λ s, IdTable.slot_live s = true) l).
Proof.
  revert i. induction l as [|s l IH]; intros i; simpl; [done|].
  rewrite length_app, IH, filter_cons. case_decide as Hd.
  - by rewrite Hd.
  - by destruct (IdTable.slot_live s).
Qed.

Lemma live_ids_bound (tb : IdTable.t) : length (IdTable.live_ids tb) ≤ IdTable.capacity tb.
Proof. unfold IdTable.live_ids. rewrite live_from_length. apply length_filter. Qed.

Lemma capacity_make (C : nat) : IdTable.capacity (IdTable.make C) = C.
Proof. unfold IdTable.capacity. simpl. apply length_replicate. Qed.

Lemma create_capacity (tb tb' : IdTable.t) (id : Id) :
  IdTable.create tb = Some (id, tb') → IdTable.capacity tb' = IdTable.capacity tb.
Proof.
  unfold IdTable.create, IdTable.capacity.
  destruct (list_find _ _) as [[i s]|]; [|done].
  intros [= _ <-]. simpl. apply length_insert.
Qed.

Lemma destroy_capacity (tb tb' : IdTable.t) (id : Id) :
  IdTable.destroy tb id = Some tb' → IdTable.capacity tb' = IdTable.capacity tb.
Proof.
  unfold IdTable.destroy, IdTable.capacity.
  destruct (IdTable.has tb id); [|done].
  intros [= <-]. simpl. apply length_insert.
Qed.

Lemma run_ops_capacity (ops : list IdTable.op) (tb : IdTable.t) :
  IdTable.capacity (IdTable.run_ops ops tb) = IdTable.capacity tb.
Proof.
  revert tb. induction ops as [|o ops IH]; intros tb; simpl; [done|].
  unfold IdTable.run_ops in *. simpl. rewrite IH.
  destruct o as [|id]; simpl.
  - destruct (IdTable.create tb) as [[id tb']|] eqn:E; [|done].
    by eapply create_capacity.
  - destruct (IdTable.destroy tb id) as [tb'|] eqn:E; [|done].
    by eapply destroy_capacity.
Qed.

Lemma create_has (tb tb' : IdTable.t) (id : Id) :
  IdTable.create tb = Some (id, tb') →
  IdTable.has tb id = false ∧ IdTable.has tb' id = true.
Proof.
  unfold IdTable.create.
  destruct (list_find _ _) as [[i s]|] eqn:E; [|done].
  intros [= <- <-]. apply list_find_Some in E as (Hi & Hfree & _).
  unfold IdTable.has. simpl. rewrite Hi, Hfree. split; [done|].
  rewrite list_lookup_insert_eq by (by eapply lookup_lt_Some). simpl.
  by apply bool_decide_eq_true.
Qed.

Lemma destroy_has (tb tb' : IdTable.t) (id : Id) :
  IdTable.destroy tb id = Some tb' →
  IdTable.has tb id = true ∧ IdTable.has tb' id = false.
Proof.
  unfold IdTable.destroy. destruct (IdTable.has tb id) eqn:E; [|done].
  intros [= <-]. split; [done|].
  unfold IdTable.has in *. simpl.
  destruct (IdTable.m_slots tb !! IdTable.id_index id) as [s|] eqn:Hi; [|done].
  by rewrite list_lookup_insert_eq by (by eapply lookup_lt_Some).
Qed.

Lemma filter_length_all {A} (P : A → Prop) `{∀ x, Decision (P x)} (l : list A) :
  length (filter P l) = length l → Forall P l.
Proof.
  induction l as [|x l IH]; [constructor|].
  rewrite filter_cons. case_decide; simpl.
  - intros [= Hl]. constructor; auto.
  - intros Hl. pose proof (length_filter P l). lia.
Qed.

Lemma filter_all_length {A} (P : A → Prop) `{∀ x, Decision (P x)} (l : list A) :
  Forall P l → length (filter P l) = length l.
Proof.
  induction 1 as [|x l Hx _ IH]; [done|].
  rewrite filter_cons_True by done. simpl. by rewrite IH.
Qed.

Lemma create_full (tb : IdTable.t) :
  length (IdTable.live_ids tb) = IdTable.capacity tb → IdTable.create tb = None.
Proof.
  unfold IdTable.live_ids, IdTable.capacity, IdTable.create.
  rewrite live_from_length. intros Hall%filter_length_all.
  destruct (list_find _ _) as [[i s]|] eqn:E; [|done].
  apply list_find_Some in E as (Hi & Hfree & _).
  rewrite Forall_lookup in Hall. specialize (Hall _ _ Hi). simpl in *. congruence.
Qed.

Lemma create_not_full (tb : IdTable.t) :
  length (IdTable.live_ids tb) < IdTable.capacity tb → is_Some (IdTable.create tb).
Proof.
  unfold IdTable.live_ids, IdTable.capacity, IdTable.create.
  rewrite live_from_length. intros Hlt.
  destruct (list_find _ _) as [[i s]|] eqn:E; [done|].
  exfalso. rewrite list_find_None in E.
  assert (Forall (λ s, IdTable.slot_live s = true) (IdTable.m_slots tb)) as Hall.
  { eapply Forall_impl; [exact E|]. simpl. intros s. by destruct (IdTable.slot_live s). }
  rewrite filter_all_length in Hlt; [lia|done].
Qed.

Lemma filter_insert_length {A} (P : A → Prop) `{∀ x, Decision (P x)}
  (l : list A) (i : nat) (x y : A) :
  l !! i = Some x → ¬ P x → P y →
  length (filter P (<[i:=y]> l)) = S (length (filter P l)).
Proof.
  revert i. induction l as [|z l IH]; intros i Hi Hx Hy; [done|].
  destruct i as [|i]; simpl in *.
  - injection Hi as ->. by rewrite filter_cons_True, filter_cons_False.
  - rewrite !filter_cons. case_decide; simpl; by rewrite (IH i).
Qed.

Lemma create_live_count (tb tb' : IdTable.t) (id : Id) :
  IdTable.create tb = Some (id, tb') →
  length (IdTable.live_ids tb') = S (length (IdTable.live_ids tb)).
Proof.
  unfold IdTable.create, IdTable.live_ids.
  destruct (list_find _ _) as [[i s]|] eqn:E; [|done].
  intros [= _ <-]. apply list_find_Some in E as (Hi & Hfree & _).
  simpl. rewrite !live_from_length.
  apply (filter_insert_length _ _ _ s); [done| |done]. simpl in *. congruence.
Qed.

Lemma create_has_other (tb tb' : IdTable.t) (id x : Id) :
  IdTable.create tb = Some (id, tb') →
  IdTable.has tb' x = true ↔ x = id ∨ IdTable.has tb x = true.
Proof.
  intros Hc. pose proof (create_has _ _ _ Hc) as [Hold Hnew].
  unfold IdTable.create in Hc.
  destruct (list_find _ _) as [[i s]|] eqn:E; [|done].
  injection Hc as <- <-. apply list_find_Some in E as (Hi & Hfree & _).
  destruct (decide (IdTable.id_index x = i)) as [Hx|Hx].
  - unfold IdTable.has in *. simpl in *. rewrite Hx.
    rewrite list_lookup_insert_eq by (by eapply lookup_lt_Some).
    rewrite Hi, Hfree. simpl. rewrite bool_decide_eq_true. split.
    + intros Hg. left. destruct x; simpl in *; congruence.
    + intros [->|?]; done.
  - assert (IdTable.has {| IdTable.m_slots :=
        <[i:=IdTable.mkSlot true (IdTable.slot_generation s)]> (IdTable.m_slots tb) |} x
        = IdTable.has tb x) as ->.
    { unfold IdTable.has. simpl. by rewrite list_lookup_insert_ne. }
    split; [auto|]. intros [->|H]; [done|exact H].
Qed.

(** C6: for every sequence of create and destroy calls on a handle
    table of capacity C, the table keeps its C slots; the ids for which
    [has] answers true are pairwise distinct and at most C; [has] is true
    of an id right after [create] returned it and false right after
    [destroy] of it; [create] succeeds while fewer than C ids are live,
    and with C live ids it fails and the table stays as it was. *)
Theorem handle_table_capacity_invariant (C : nat) (ops : list IdTable.op) :
  let tb := IdTable.run_ops ops (IdTable.make C) in
  IdTable.capacity tb = C ∧
  NoDup (IdTable.live_ids tb) ∧
  (∀ id, IdTable.has tb id = true ↔ id ∈ IdTable.live_ids tb) ∧
  length (IdTable.live_ids tb) ≤ C ∧
  (∀ id tb', IdTable.create tb = Some (id, tb') →
     IdTable.has tb' id = true ∧
     length (IdTable.live_ids tb') = S (length (IdTable.live_ids tb))) ∧
  (∀ id, IdTable.has tb id = true →
     ∃ tb', IdTable.destroy tb id = Some tb' ∧ IdTable.has tb' id = false) ∧
  (length (IdTable.live_ids tb) < C → is_Some (IdTable.create tb)) ∧
  (length (IdTable.live_ids tb) = C →
     IdTable.create tb = None ∧ IdTable.apply_op tb IdTable.Create = tb).
Proof.
  intros tb.
  assert (IdTable.capacity tb = C) as Hcap.
  { unfold tb. by rewrite run_ops_capacity, capacity_make. }
  split; [done|]. split; [apply live_from_NoDup|].
  split; [apply has_live_ids|].
  split; [rewrite <- Hcap; apply live_ids_bound|].
  split.
  { intros id tb' Hc. split; [by eapply create_has|exact (create_live_count _ _ _ Hc)]. }
  split.
  { intros id Hid. destruct (IdTable.destroy tb id) as [tb'|] eqn:E.
    - exists tb'. split; [done|]. by eapply destroy_has.
    - unfold IdTable.destroy in E. by rewrite Hid in E. }
  split.
  { intros Hlt. apply create_not_full. by rewrite Hcap. }
  intros Hfull. assert (IdTable.create tb = None) as Hnone.
  { apply create_full. by rewrite Hcap. }
  split; [done|]. simpl. by rewrite Hnone.
Qed.

(** ** Reasoning about member functions *)

Lemma preserves_bind {A B} (R : relation Renderer) `{!PreOrder R}
  (c : M A) (k : A → M B) :
  preserves R c → (∀ a, preserves R (k a)) → preserves R (bind c k).
Proof.
  intros Hc Hk r. unfold bind. specialize (Hc r).
  destruct (c r) as [[a|f| |] r1]; simpl in *; try done.
  etransitivity; [exact Hc|apply Hk].
Qed.

Lemma preserves_ret {A} (R : relation Renderer) `{!Reflexive R} (a : A) :
  preserves R (ret a).
Proof. intros r. simpl. reflexivity. Qed.

Lemma preserves_fail {A} (R : relation Renderer) `{!Reflexive R} (f : Fault) :
  preserves R (@fail A f).
Proof. intros r. simpl. reflexivity. Qed.

Lemma preserves_CE_ASSERT (R : relation Renderer) `{!Reflexive R} cond msg :
  preserves R (CE_ASSERT cond msg).
Proof. intros r. unfold CE_ASSERT. destruct (cond r); simpl; reflexivity. Qed.

(** A bind whose first part returns. *)
Lemma bind_ok {A B} (c : M A) (k : A → M B) (r r1 : Renderer) (a : A) :
  c r = (Ok a, r1) → bind c k r = k a r1.
Proof. intros H. unfold bind. by rewrite H. Qed.

(** A bind that returns: so did both parts. *)
Lemma bind_inv {A B} (c : M A) (k : A → M B) (r r2 : Renderer) (b : B) :
  bind c k r = (Ok b, r2) → ∃ a r1, c r = (Ok a, r1) ∧ k a r1 = (Ok b, r2).
Proof.
  unfold bind. destruct (c r) as [[a|f| |] r1]; try done. eauto.
Qed.

(** *** The tables only gain ids on the producer side *)

#[local] Instance tables_grow_preorder : PreOrder tables_grow.
Proof. split; [by intros r k id|]. intros r1 r2 r3 H12 H23 k id H. auto. Qed.

Lemma table_set_table (k k' : TableName) (tb : IdTable.t) (r : Renderer) :
  table k' (set_table k tb r) = if decide (k = k') then tb else table k' r.
Proof. by destruct k'. Qed.

Lemma tables_grow_create (k : TableName) : preserves tables_grow (table_create k).
Proof.
  intros r k' id. unfold table_create, table_has.
  destruct (IdTable.create (table k r)) as [[id' tb]|] eqn:E; simpl; [|done].
  rewrite table_set_table. case_decide as Hk; [subst k'|done].
  intros H. apply (create_has_other _ _ _ id E). by right.
Qed.

Lemma tables_grow_submit_write (x : Cell) : preserves tables_grow (submit_write x).
Proof. intros r k id. unfold submit_write, table_has. simpl. by destruct (m_submit r), k. Qed.

Lemma tables_grow_on_submit f : preserves tables_grow (on_submit f).
Proof. intros r k id. unfold on_submit, table_has. simpl. by destruct (m_submit r), k. Qed.

Create HintDb grow discriminated.
#[local] Hint Resolve tables_grow_create tables_grow_submit_write tables_grow_on_submit : grow.
#[local] Hint Extern 1 (preserves tables_grow (ret _)) => apply preserves_ret; apply _ : grow.
#[local] Hint Extern 1 (preserves tables_grow (fail _)) => apply preserves_fail; apply _ : grow.
#[local] Hint Extern 1 (preserves tables_grow (CE_ASSERT _ _)) =>
  apply preserves_CE_ASSERT; apply _ : grow.
#[local] Hint Extern 2 (preserves tables_grow (bind _ _)) =>
  apply preserves_bind; [apply _ | | intros ?] : grow.

Lemma tables_grow_run_call (c : Call) : preserves tables_grow (run_call c).
Proof.
  destruct c; simpl; unfold returning, returning_id;
    try (match goal with v : option (list ascii) |- _ => destruct v end);
    unfold create_vertex_buffer, create_dynamic_vertex_buffer, update_vertex_buffer,
      destroy_vertex_buffer, create_index_buffer, create_dynamic_index_buffer,
      update_index_buffer, destroy_index_buffer, create_texture, update_texture,
      destroy_texture, create_shader, destroy_shader, create_gpu_program,
      destroy_gpu_program, create_uniform, destroy_uniform, set_state, set_pose,
      set_program, set_vertex_buffer, set_index_buffer, set_uniform, set_texture,
      set_layer_render_target, set_layer_clear, set_layer_view, set_layer_projection,
      set_layer_viewport, set_layer_scissor, commit;
    auto 20 with grow.
Qed.

Lemma tables_grow_run_calls (cs : list Call) : preserves tables_grow (run_calls cs).
Proof.
  induction cs as [|c cs IH]; simpl; [auto with grow|].
  apply preserves_bind; [apply _|apply tables_grow_run_call|intros a].
  apply preserves_bind; [apply _|exact IH|intros rest]. auto with grow.
Qed.

(** ** Validation on the producer side *)

Lemma checked_call_faults (c : Call) (k : TableName) (id : Id) (r : Renderer) :
  (k, id) ∈ checked_ids c → table_has k id r = false →
  ∃ msg, run_call c r = (Failed (PreconditionFault msg), r).
Proof.
  intros Hin Hhas.
  destruct c; simpl in Hin;
    repeat (apply elem_of_cons in Hin as [Hin|Hin]; [injection Hin as -> ->|]);
    try (by apply elem_of_nil in Hin);
    simpl; unfold returning, update_vertex_buffer, destroy_vertex_buffer,
      update_index_buffer, destroy_index_buffer, update_texture, destroy_texture,
      destroy_shader, destroy_gpu_program, destroy_uniform, set_program,
      set_vertex_buffer, set_index_buffer, set_uniform, set_texture,
      set_layer_render_target, bind, CE_ASSERT;
    try (rewrite Hhas; eauto; fail).
  destruct (table_has Uniforms sampler_uniform r); [rewrite Hhas|]; eauto.
Qed.

#[local] Instance tables_same_preorder : PreOrder tables_same.
Proof.
  split; [by intros r k|]. intros r1 r2 r3 H12 H23 k. by rewrite H23, H12.
Qed.

Lemma tables_same_submit_write (x : Cell) : preserves tables_same (submit_write x).
Proof. intros r k. unfold submit_write. simpl. by destruct (m_submit r), k. Qed.

Lemma tables_same_on_submit f : preserves tables_same (on_submit f).
Proof. intros r k. unfold on_submit. simpl. by destruct (m_submit r), k. Qed.

Create HintDb same discriminated.
#[local] Hint Resolve tables_same_submit_write tables_same_on_submit : same.
#[local] Hint Extern 1 (preserves tables_same (ret _)) => apply preserves_ret; apply _ : same.
#[local] Hint Extern 1 (preserves tables_same (fail _)) => apply preserves_fail; apply _ : same.
#[local] Hint Extern 1 (preserves tables_same (CE_ASSERT _ _)) =>
  apply preserves_CE_ASSERT; apply _ : same.
#[local] Hint Extern 2 (preserves tables_same (bind _ _)) =>
  apply preserves_bind; [apply _ | | intros ?] : same.

Ltac unfold_api :=
  unfold run_call, returning, returning_id,
    create_vertex_buffer, create_dynamic_vertex_buffer, update_vertex_buffer,
    destroy_vertex_buffer, create_index_buffer, create_dynamic_index_buffer,
    update_index_buffer, destroy_index_buffer, create_texture, update_texture,
    destroy_texture, create_shader, destroy_shader, create_gpu_program,
    destroy_gpu_program, create_uniform, destroy_uniform, set_state, set_pose,
    set_program, set_vertex_buffer, set_index_buffer, set_uniform, set_texture,
    set_layer_render_target, set_layer_clear, set_layer_view, set_layer_projection,
    set_layer_viewport, set_layer_scissor, commit in *.

Lemma tables_same_run_call (c : Call) :
  creates c = None → preserves tables_same (run_call c).
Proof.
  destruct c; simpl; try discriminate; intros _; unfold_api;
    try (match goal with v : option (list ascii) |- _ => destruct v end);
    auto 20 with same.
Qed.

(** The ids a table has after a call are those it had and the one the
    call returned. *)
Lemma table_create_inv (k0 : TableName) (r r1 : Renderer) (x : Id) :
  table_create k0 r = (Ok x, r1) →
  ∃ tb, IdTable.create (table k0 r) = Some (x, tb) ∧ r1 = set_table k0 tb r.
Proof.
  unfold table_create. destruct (IdTable.create (table k0 r)) as [[x' tb]|]; [|done].
  intros [= <- <-]. eauto.
Qed.

Lemma run_call_has (c : Call) (r r' : Renderer) (a : option Id) (k : TableName) (id : Id) :
  run_call c r = (Ok a, r') → table_has k id r' = true →
  table_has k id r = true ∨ (creates c = Some k ∧ a = Some id).
Proof.
  intros Hrun Hhas. destruct (creates c) as [k0|] eqn:Hc.
  - assert (∃ x tb, IdTable.create (table k0 r) = Some (x, tb) ∧ a = Some x ∧
                    ∀ k', table k' r' = table k' (set_table k0 tb r)) as (x & tb & Hx & -> & Hr').
    { destruct c; simpl in Hc; try discriminate; injection Hc as <-;
        simpl in Hrun; unfold_api;
        repeat match goal with
          | H : bind _ _ _ = (Ok _, _) |- _ => apply bind_inv in H as (? & ? & ? & ?)
          | H : CE_ASSERT _ _ _ = (Ok _, _) |- _ =>
              unfold CE_ASSERT in H; case_match; [|done]; injection H as <- <-
          | H : table_create _ _ = (Ok _, _) |- _ =>
              apply table_create_inv in H as (? & ? & ->)
          | H : submit_write ?x ?r0 = (Ok _, _) |- _ =>
              let Hk := fresh "Hk" in
              pose proof (tables_same_submit_write x r0) as Hk; rewrite H in Hk;
              clear H; simpl in Hk
          | H : ret _ _ = (Ok _, _) |- _ => injection H as <- <-
          end;
        do 2 eexists; (split; [eassumption|]); (split; [reflexivity|]);
        intros k'; repeat match goal with H : tables_same _ _ |- _ =>
          rewrite (H k'); clear H end; reflexivity. }
    unfold table_has in *. rewrite Hr', table_set_table in Hhas.
    case_decide as Hk; [subst k0|by left].
    apply (create_has_other _ _ _ id Hx) in Hhas as [->|Hhas]; auto.
  - pose proof (tables_same_run_call c Hc r k) as Hs. rewrite Hrun in Hs. simpl in Hs.
    left. unfold table_has in *. by rewrite <- Hs.
Qed.

Lemma run_calls_has (cs : list Call) (r r' : Renderer) (answers : list (option Id))
  (k : TableName) (id : Id) :
  run_calls cs r = (Ok answers, r') → table_has k id r' = true →
  table_has k id r = true ∨ id ∈ created k cs answers.
Proof.
  revert r answers. induction cs as [|c cs IH]; intros r answers Hrun Hhas; simpl in Hrun.
  - injection Hrun as <- <-. by left.
  - apply bind_inv in Hrun as (a & r1 & Hc & Hrun).
    apply bind_inv in Hrun as (rest & r2 & Hcs & Hrun).
    injection Hrun as <- <-.
    destruct (IH _ _ Hcs Hhas) as [H1|Hin].
    + destruct (run_call_has _ _ _ _ _ _ Hc H1) as [H0|[Hk ->]]; [by left|].
      right. simpl. rewrite decide_True by done. apply elem_of_cons. by left.
    + right. simpl. destruct a as [x|]; [|done].
      case_decide; [apply elem_of_cons; by right|done].
Qed.

Lemma has_make (C : nat) (id : Id) : IdTable.has (IdTable.make C) id = false.
Proof.
  unfold IdTable.has, IdTable.make. simpl.
  destruct (replicate C _ !! _) as [s|] eqn:E; [|done].
  apply lookup_replicate in E as [-> _]. done.
Qed.

Lemma has_Renderer_new (k : TableName) (id : Id) : table_has k id Renderer_new = false.
Proof. unfold table_has. destruct k; apply has_make. Qed.

(** C2: each update and destroy call and each setter that takes an id
    checks [has(id)] before it encodes anything: when the check fails the
    call stops with the precondition fault and the renderer, its command
    streams included, is as before the call.  In particular, after any
    calls on a new renderer, [destroy_vertex_buffer] on an id that no
    vertex-buffer creation returned faults and writes nothing. *)
Theorem producer_validates_before_encoding :
  (∀ (c : Call) (k : TableName) (id : Id) (r : Renderer),
     (k, id) ∈ checked_ids c → table_has k id r = false →
     ∃ msg, run_call c r = (Failed (PreconditionFault msg), r)) ∧
  (∀ (cs : list Call) (answers : list (option Id)) (r : Renderer) (id : Id),
     run_calls cs Renderer_new = (Ok answers, r) →
     id ∉ created VertexBuffers cs answers →
     ∃ msg, destroy_vertex_buffer id r = (Failed (PreconditionFault msg), r)).
Proof.
  split; [exact checked_call_faults|].
  intros cs answers r id Hrun Hnew.
  assert (table_has VertexBuffers id r = false) as Hhas.
  { destruct (table_has VertexBuffers id r) eqn:E; [|done].
    destruct (run_calls_has _ _ _ _ _ _ Hrun E) as [H|H]; [|done].
    by rewrite has_Renderer_new in H. }
  destruct (checked_call_faults (call_destroy_vertex_buffer id) VertexBuffers id r)
    as [msg Hmsg]; [simpl; apply elem_of_cons; by left|done|].
  exists msg. simpl in Hmsg. unfold returning, bind in Hmsg.
  destruct (destroy_vertex_buffer id r) as [[[]|f| |] r1]; by simplify_eq.
Qed.

(** [create_gpu_program] takes two shader ids and checks neither. *)
Remark create_gpu_program_unchecked (vertex pixel : Id) (r : Renderer) :
  is_Some (IdTable.create (m_gpu_programs r)) →
  ∃ id r', create_gpu_program vertex pixel r = (Ok id, r').
Proof.
  intros [[id tb] Hc]. unfold create_gpu_program, bind, table_create. simpl.
  rewrite Hc. eauto.
Qed.

(** ** Destruction on the producer side *)

Lemma create_skips_live (tb tb' : IdTable.t) (id id' : Id) :
  IdTable.has tb id = true → IdTable.create tb = Some (id', tb') →
  IdTable.id_index id' ≠ IdTable.id_index id.
Proof.
  unfold IdTable.create, IdTable.has.
  destruct (list_find _ _) as [[i s]|] eqn:E; [|done].
  apply list_find_Some in E as (Hi & Hfree & _).
  intros Hhas [= <- _] Heq. simpl in *. rewrite Heq in Hi.
  rewrite Hi, Hfree in Hhas. done.
Qed.

(** C9: a destroy call of the producer side that returns has left every
    handle table as it was: [has(id)] is still true, it stays true
    through whatever calls follow, and no later creation on that table
    returns the slot of [id]. *)
Theorem producer_destroy_keeps_table (c : Call) (k : TableName) (id : Id)
  (r r' : Renderer) (a : option Id) :
  destroys c = Some (k, id) → run_call c r = (Ok a, r') →
  (∀ k', table k' r' = table k' r) ∧
  table_has k id r' = true ∧
  (∀ cs res r'', run_calls cs r' = (res, r'') →
     table_has k id r'' = true ∧
     ∀ id' tb', IdTable.create (table k r'') = Some (id', tb') →
                IdTable.id_index id' ≠ IdTable.id_index id).
Proof.
  intros Hd Hrun.
  assert (creates c = None) as Hc by (destruct c; done).
  pose proof (tables_same_run_call c Hc r) as Hsame. rewrite Hrun in Hsame. simpl in Hsame.
  assert (table_has k id r = true) as Hhas.
  { destruct (table_has k id r) eqn:E; [done|].
    destruct (checked_call_faults c k id r) as [msg Hmsg]; [|done|congruence].
    destruct c; simpl in Hd; try discriminate; injection Hd as <- <-;
      simpl; apply elem_of_cons; by left. }
  assert (table_has k id r' = true) as Hhas'.
  { unfold table_has in *. by rewrite Hsame. }
  split; [exact Hsame|]. split; [exact Hhas'|].
  intros cs res r'' Hcs.
  pose proof (tables_grow_run_calls cs r' k id Hhas') as Hg. rewrite Hcs in Hg. simpl in Hg.
  split; [exact Hg|]. intros id' tb'. by apply create_skips_live.
Qed.

(** ** Creating a uniform *)

Lemma create_uniform_stock (name : string) (type : UniformType) (num : N) (r : Renderer) :
  name_to_stock_uniform name ≠ ShaderUniform_COUNT →
  create_uniform name type num r =
    (Failed (PreconditionFault "Uniform name '%s' is a stock uniform."), r).
Proof.
  intros Hstock. unfold create_uniform, bind, CE_ASSERT.
  by rewrite bool_decide_eq_false_2.
Qed.

Lemma create_uniform_too_long (name : string) (type : UniformType) (num : N)
  (r : Renderer) (id : Id) (tb : IdTable.t) :
  name_to_stock_uniform name = ShaderUniform_COUNT →
  IdTable.create (m_uniforms r) = Some (id, tb) →
  CROWN_MAX_UNIFORM_NAME_LENGTH ≤ strlen name →
  create_uniform name type num r =
    (Failed (PreconditionFault "Max uniform name length is %d"),
     set_table Uniforms tb r).
Proof.
  intros Hstock Hcreate Hlen. unfold create_uniform, bind, CE_ASSERT, table_create.
  rewrite bool_decide_eq_true_2 by done. simpl. rewrite Hcreate.
  rewrite bool_decide_eq_false_2 by lia. done.
Qed.

Lemma create_uniform_fits (name : string) (type : UniformType) (num : N)
  (r : Renderer) (id : Id) (tb : IdTable.t) :
  name_to_stock_uniform name = ShaderUniform_COUNT →
  IdTable.create (m_uniforms r) = Some (id, tb) →
  strlen name < CROWN_MAX_UNIFORM_NAME_LENGTH →
  ∃ r', create_uniform name type num r = (Ok id, r').
Proof.
  intros Hstock Hcreate Hlen. unfold create_uniform, bind, CE_ASSERT, table_create.
  rewrite bool_decide_eq_true_2 by done. simpl. rewrite Hcreate.
  rewrite bool_decide_eq_true_2 by lia. simpl. eauto.
Qed.

(** With a name that is not a stock one and a free slot in the uniform
    table, [create_uniform] returns exactly when the name is shorter than
    [CROWN_MAX_UNIFORM_NAME_LENGTH], and faults the precondition check
    otherwise. *)
Lemma create_uniform_name_length_limit (name : string) (type : UniformType) (num : N)
  (r : Renderer) (id : Id) (tb : IdTable.t) :
  name_to_stock_uniform name = ShaderUniform_COUNT →
  IdTable.create (m_uniforms r) = Some (id, tb) →
  (strlen name < CROWN_MAX_UNIFORM_NAME_LENGTH →
     ∃ r', create_uniform name type num r = (Ok id, r')) ∧
  (CROWN_MAX_UNIFORM_NAME_LENGTH ≤ strlen name →
     ∃ msg r', create_uniform name type num r = (Failed (PreconditionFault msg), r')).
Proof.
  intros Hstock Hcreate. split; intros Hlen.
  - by eapply create_uniform_fits.
  - do 2 eexists. by eapply (create_uniform_too_long _ _ _ _ id).
Qed.

(** C7: the lengths [create_uniform] allows are those below
    [CROWN_MAX_UNIFORM_NAME_LENGTH], the bound of the consumer's name
    array, so the maximum allowed length is one less than that constant.
    With a free slot in the uniform table and names that are not stock
    ones, [create_uniform] succeeds for a name of exactly the maximum
    allowed length, succeeds for no longer name, and faults the length
    check for a name one character longer. *)
Theorem create_uniform_name_length_boundary (name longer : string) (type : UniformType)
  (num : N) (r : Renderer) (id : Id) (tb : IdTable.t) :
  name_to_stock_uniform name = ShaderUniform_COUNT →
  name_to_stock_uniform longer = ShaderUniform_COUNT →
  IdTable.create (m_uniforms r) = Some (id, tb) →
  S (strlen name) = CROWN_MAX_UNIFORM_NAME_LENGTH →
  strlen longer = S (strlen name) →
  (∃ r', create_uniform name type num r = (Ok id, r')) ∧
  (∀ other type' num' id' r',
     create_uniform other type' num' r = (Ok id', r') → strlen other ≤ strlen name) ∧
  create_uniform longer type num r =
    (Failed (PreconditionFault "Max uniform name length is %d"), set_table Uniforms tb r).
Proof.
  intros Hstock Hstock' Hcreate Hmax Hlonger. split; [|split].
  - apply (create_uniform_name_length_limit name type num r id tb Hstock Hcreate). lia.
  - intros other type' num' id' r' Hok.
    destruct (decide (name_to_stock_uniform other = ShaderUniform_COUNT)) as [Hother|Hother].
    + destruct (decide (strlen other ≤ strlen name)) as [|Hlong]; [done|].
      rewrite (create_uniform_too_long other type' num' r id tb Hother Hcreate) in Hok by lia.
      done.
    + by rewrite (create_uniform_stock other type' num' r Hother) in Hok.
  - apply (create_uniform_too_long longer type num r id tb Hstock' Hcreate). lia.
Qed.

(** C10: in [create_uniform] the stock-name check comes before the
    handle is allocated and the name-length check after it.  A stock
    name faults with the renderer untouched; a name that is too long
    faults with the renderer as [m_uniforms.create()] left it: the
    returned id is live in the uniform table, one more slot is taken, and
    nothing else has changed. *)
Theorem create_uniform_length_fault_keeps_slot (name : string) (type : UniformType)
  (num : N) (r : Renderer) :
  (name_to_stock_uniform name ≠ ShaderUniform_COUNT →
     ∃ msg, create_uniform name type num r = (Failed (PreconditionFault msg), r)) ∧
  (name_to_stock_uniform name = ShaderUniform_COUNT →
   CROWN_MAX_UNIFORM_NAME_LENGTH ≤ strlen name →
   ∀ id tb, IdTable.create (m_uniforms r) = Some (id, tb) →
     ∃ msg, create_uniform name type num r =
              (Failed (PreconditionFault msg), set_table Uniforms tb r) ∧
            table_has Uniforms id r = false ∧
            table_has Uniforms id (set_table Uniforms tb r) = true ∧
            length (IdTable.live_ids (m_uniforms (set_table Uniforms tb r))) =
              S (length (IdTable.live_ids (m_uniforms r)))).
Proof.
  split.
  - intros Hstock. eexists. by apply create_uniform_stock.
  - intros Hstock Hlen id tb Hcreate. eexists.
    split; [by apply (create_uniform_too_long _ _ _ _ id)|].
    pose proof (create_has _ _ _ Hcreate) as [H1 H2].
    change (m_uniforms (set_table Uniforms tb r)) with (table Uniforms (set_table Uniforms tb r)).
    unfold table_has. rewrite table_set_table, decide_True by done.
    split; [exact H1|]. split; [exact H2|]. exact (create_live_count _ _ _ Hcreate).
Qed.

(** ** Swapping the contexts *)

Lemma context_set_context (i j : ContextRef) (c : RenderContext) (r : Renderer) :
  context j (set_context i c r) = if decide (i = j) then c else context j r.
Proof. by destruct i, j. Qed.

Lemma swap_contexts_spec (r : Renderer) :
  swap_contexts r =
    (Ok tt,
     set_trace (m_trace r ++ [contexts_swapped])
       (set_roles (m_draw r) (m_submit r)
          (set_context (m_submit r) (ctx_push (context (m_submit r) r)) r))).
Proof.
  unfold swap_contexts, bind, on_submit, emit.
  destruct (m_submit r) eqn:E; simpl; rewrite E; reflexivity.
Qed.

(** ** What the producer writes *)

Lemma submit_write_inv (x : Cell) (r r1 : Renderer) (u : unit) :
  submit_write x r = (Ok u, r1) →
  m_submit r1 = m_submit r ∧ submit_context r1 = with_commands (cb_write x) (submit_context r).
Proof.
  unfold submit_write, submit_context. intros [= _ <-].
  destruct (m_submit r) eqn:E; simpl; by rewrite E.
Qed.

Lemma on_submit_inv f (r r1 : Renderer) (u : unit) :
  on_submit f r = (Ok u, r1) →
  m_submit r1 = m_submit r ∧ submit_context r1 = f (submit_context r).
Proof.
  unfold on_submit, submit_context. intros [= _ <-].
  destruct (m_submit r) eqn:E; simpl; by rewrite E.
Qed.

Lemma table_create_submit (k : TableName) (r r1 : Renderer) (x : Id) :
  table_create k r = (Ok x, r1) →
  m_submit r1 = m_submit r ∧ submit_context r1 = submit_context r.
Proof.
  intros (tb & _ & ->)%table_create_inv. unfold submit_context. simpl.
  by destruct (m_submit r).
Qed.

Lemma CE_ASSERT_inv cond msg (r r1 : Renderer) (u : unit) :
  CE_ASSERT cond msg r = (Ok u, r1) → r1 = r ∧ cond r = true.
Proof. unfold CE_ASSERT. destruct (cond r); [|done]. by intros [= _ <-]. Qed.

(** Decomposing a run that returned into the runs of its statements. *)
Ltac invert_run :=
  repeat match goal with
    | H : bind _ _ _ = (Ok _, _) |- _ => apply bind_inv in H as (? & ? & ? & ?)
    | H : CE_ASSERT _ _ _ = (Ok _, _) |- _ => apply CE_ASSERT_inv in H as [-> ?]
    | H : table_create _ _ = (Ok _, _) |- _ => apply table_create_submit in H as [? ?]
    | H : submit_write _ _ = (Ok _, _) |- _ => apply submit_write_inv in H as [? ?]
    | H : on_submit _ _ = (Ok _, _) |- _ => apply on_submit_inv in H as [? ?]
    | H : ret _ _ = (Ok _, _) |- _ => injection H as <- <-
    | H : fail _ _ = (Ok _, _) |- _ => discriminate H
    end.

Lemma run_submission_writes (s : Submission) (a : option Id) (r r' : Renderer) :
  run_submission s r = (Ok a, r') →
  m_submit r' = m_submit r ∧
  cb_cells (m_commands (submit_context r')) =
    cb_cells (m_commands (submit_context r)) ++ submission_cells s a ∧
  cb_cursor (m_commands (submit_context r')) = cb_cursor (m_commands (submit_context r)) ∧
  kb_cells (m_constants (submit_context r')) =
    kb_cells (m_constants (submit_context r)) ++ constant_cells s ∧
  kb_cursor (m_constants (submit_context r')) = kb_cursor (m_constants (submit_context r)).
Proof.
  intros Hrun.
  destruct s as [c| |]; [destruct c|..]; simpl in Hrun; unfold_api;
    try (match goal with v : option (list ascii) |- _ => destruct v end);
    invert_run;
    repeat match goal with
      | H : m_submit _ = _ |- _ => rewrite H in *; clear H
      end;
    repeat match goal with
      | H : submit_context _ = _ |- _ => rewrite H; clear H
      end;
    simpl; rewrite <- ?app_assoc, ?app_nil_r; done.
Qed.

Lemma run_submission_fits (s : Submission) (a : option Id) (r r' : Renderer) :
  run_submission s r = (Ok a, r') → name_fits s.
Proof.
  intros Hrun. destruct s as [c| |]; [destruct c|..]; try exact I.
  simpl in *. unfold_api. invert_run.
  match goal with H : bool_decide (_ < _) = true |- _ => by apply bool_decide_eq_true in H end.
Qed.

Lemma run_submissions_writes (ss : list Submission) (answers : list (option Id))
  (r r' : Renderer) :
  run_submissions ss r = (Ok answers, r') →
  m_submit r' = m_submit r ∧
  cb_cells (m_commands (submit_context r')) =
    cb_cells (m_commands (submit_context r)) ++ submission_cells_all ss answers ∧
  cb_cursor (m_commands (submit_context r')) = cb_cursor (m_commands (submit_context r)) ∧
  kb_cells (m_constants (submit_context r')) =
    kb_cells (m_constants (submit_context r)) ++ (ss ≫= constant_cells) ∧
  kb_cursor (m_constants (submit_context r')) = kb_cursor (m_constants (submit_context r)) ∧
  Forall name_fits ss ∧ length answers = length ss.
Proof.
  revert answers r. induction ss as [|s ss IH]; intros answers r Hrun; simpl in Hrun.
  - injection Hrun as <- <-. simpl. by rewrite !app_nil_r.
  - apply bind_inv in Hrun as (a & r1 & Hs & Hrun).
    apply bind_inv in Hrun as (rest & r2 & Hss & Hrun).
    injection Hrun as <- <-.
    pose proof (run_submission_fits _ _ _ _ Hs) as Hfit.
    apply run_submission_writes in Hs as (Hs1 & Hs2 & Hs3 & Hs4 & Hs5).
    apply IH in Hss as (H1 & H2 & H3 & H4 & H5 & H6 & H7).
    rewrite H1, H2, H3, H4, H5, Hs1, Hs2, Hs3, Hs4, Hs5. simpl.
    rewrite <- !app_assoc, H7. repeat split; auto.
Qed.

(** ** What the consumer reads *)

Lemma drop_tail {A} (n : nat) (l : list A) : drop (S n) l = tail (drop n l).
Proof.
  revert l. induction n as [|n IH]; intros [|x l]; simpl; done.
Qed.

Lemma cmds_read_pending (i : ContextRef) (r : Renderer) :
  cmds_read i r =
    match pending i r with
    | c :: _ => (Ok c, advance_cursor i r)
    | [] => (Failed StreamFault, r)
    end.
Proof.
  unfold cmds_read, cb_read, pending, advance_cursor.
  destruct (cb_cells _ !! cb_cursor _) as [c|] eqn:E.
  - by rewrite (drop_S _ _ _ E).
  - apply lookup_ge_None in E. by rewrite drop_ge.
Qed.

Lemma pending_advance (i : ContextRef) (r : Renderer) :
  pending i (advance_cursor i r) = tail (pending i r).
Proof.
  unfold pending, advance_cursor. rewrite context_set_context, decide_True by done.
  simpl. apply drop_tail.
Qed.

Lemma context_set_trace (i : ContextRef) tr (r : Renderer) :
  context i (set_trace tr r) = context i r.
Proof. by destruct i. Qed.

Lemma context_set_flags (i : ContextRef) a b (r : Renderer) :
  context i (set_flags a b r) = context i r.
Proof. by destruct i. Qed.

Lemma pending_set_trace (i : ContextRef) tr (r : Renderer) :
  pending i (set_trace tr r) = pending i r.
Proof. unfold pending. by rewrite context_set_trace. Qed.

Lemma pending_set_flags (i : ContextRef) a b (r : Renderer) :
  pending i (set_flags a b r) = pending i r.
Proof. unfold pending. by rewrite context_set_flags. Qed.

Lemma trace_advance (i : ContextRef) (r : Renderer) :
  m_trace (advance_cursor i r) = m_trace r.
Proof. by destruct i. Qed.

Lemma initialized_advance (i : ContextRef) (r : Renderer) :
  m_is_initialized (advance_cursor i r) = m_is_initialized r.
Proof. by destruct i. Qed.

Lemma should_run_advance (i : ContextRef) (r : Renderer) :
  m_should_run (advance_cursor i r) = m_should_run r.
Proof. by destruct i. Qed.

Lemma trace_set_trace tr (r : Renderer) : m_trace (set_trace tr r) = tr.
Proof. done. Qed.

Lemma trace_set_flags a b (r : Renderer) : m_trace (set_flags a b r) = m_trace r.
Proof. done. Qed.

Lemma initialized_set_trace tr (r : Renderer) :
  m_is_initialized (set_trace tr r) = m_is_initialized r.
Proof. done. Qed.

Lemma initialized_set_flags a b (r : Renderer) : m_is_initialized (set_flags a b r) = a.
Proof. done. Qed.

Lemma should_run_set_trace tr (r : Renderer) :
  m_should_run (set_trace tr r) = m_should_run r.
Proof. done. Qed.

Lemma should_run_set_flags a b (r : Renderer) : m_should_run (set_flags a b r) = b.
Proof. done. Qed.

Create Rewrite HintDb renderer.
Hint Rewrite pending_advance pending_set_trace pending_set_flags
  trace_advance trace_set_trace trace_set_flags
  initialized_advance initialized_set_trace initialized_set_flags
  should_run_advance should_run_set_trace should_run_set_flags : renderer.

#[local] Arguments advance_cursor : simpl never.
#[local] Arguments pending : simpl never.
#[local] Arguments set_trace : simpl never.
#[local] Arguments set_flags : simpl never.
#[local] Arguments cmds_read : simpl never.

Ltac read_cell Hp :=
  rewrite cmds_read_pending; autorewrite with renderer; rewrite Hp; simpl.

Lemma list_ascii_length_take (n : nat) (s : string) :
  n ≤ strlen s → length (take n (list_ascii_of_string s)) = n.
Proof.
  revert n. induction s as [|c s IH]; intros n Hn; simpl in *.
  - by replace n with 0 by lia.
  - destruct (Ascii.eqb c Ascii.zero); [by replace n with 0 by lia|].
    destruct n as [|n]; simpl; [done|]. rewrite IH; [done|lia].
Qed.

Lemma c_str_take_strlen (s : string) :
  c_str (string_of_list_ascii (take (strlen s) (list_ascii_of_string s))) = c_str s.
Proof.
  induction s as [|c s IH]; simpl; [done|].
  destruct (Ascii.eqb c Ascii.zero) eqn:E; simpl; [done|]. by rewrite E, IH.
Qed.

Lemma execute_command_record (s : Submission) (a : option Id) (i : ContextRef)
  (r : Renderer) (rest : list Cell) :
  name_fits s → submission_cells s a ≠ [] →
  pending i r = submission_cells s a ++ rest →
  ∃ r1, execute_command i r = (Ok false, r1) ∧
        pending i r1 = rest ∧
        m_trace r1 = m_trace r ++ dispatched s a ∧
        (m_is_initialized r1, m_should_run r1) =
          flags_after s (m_is_initialized r, m_should_run r).
Proof.
  intros Hfit Hne Hp.
  destruct s as [c| |]; [destruct c; destruct a as [id0|]|..];
    simpl in Hp, Hne; try done;
    unfold execute_command, read_command, read_id, read_size, read_u32, read_u8,
      read_vertex_format, read_pixel_format, read_shader_type, read_uniform_type,
      read_pointer, read_bytes, set_is_initialized, set_should_run, bind.
  all: repeat read_cell Hp.
  all: try (eexists; split; [reflexivity|]; autorewrite with renderer; rewrite ?Hp; done).
  simpl in Hfit.
  rewrite list_ascii_length_take, bool_decide_eq_true_2 by done. simpl.
  rewrite Nat2N.id, bool_decide_eq_true_2 by done. simpl.
  repeat read_cell Hp.
  eexists; split; [reflexivity|]; autorewrite with renderer; rewrite ?Hp; simpl.
  by rewrite c_str_take_strlen.
Qed.

Lemma execute_command_end (i : ContextRef) (r : Renderer) (rest : list Cell) :
  pending i r = CellCommand END :: rest →
  execute_command i r = (Ok true, advance_cursor i r).
Proof.
  intros Hp. unfold execute_command, read_command, bind. by read_cell Hp.
Qed.

Lemma submission_cells_no_END (s : Submission) (a : option Id) :
  CellCommand END ∉ submission_cells s a.
Proof.
  destruct s as [c| |]; [destruct c; destruct a|..]; simpl;
    repeat (apply not_elem_of_cons; split; [done|]); apply not_elem_of_nil.
Qed.

Lemma submission_cells_all_no_END (ss : list Submission) (answers : list (option Id)) :
  CellCommand END ∉ submission_cells_all ss answers.
Proof.
  revert answers. induction ss as [|s ss IH]; intros [|a answers]; simpl;
    try apply not_elem_of_nil.
  rewrite elem_of_app. intros [H|H]; [by apply submission_cells_no_END in H|by apply IH in H].
Qed.

(** The loop of [execute_commands] over the records of a sequence of
    submissions followed by END: every record is dispatched in order,
    the loop stops right after the END, and it needs no more turns than
    there are cells. *)
Lemma execute_loop_records (ss : list Submission) (answers : list (option Id))
  (i : ContextRef) (r : Renderer) (rest : list Cell) (fuel : nat) :
  Forall name_fits ss → length answers = length ss →
  pending i r = submission_cells_all ss answers ++ CellCommand END :: rest →
  length (submission_cells_all ss answers) < fuel →
  ∃ r1, execute_loop fuel i r = (Ok tt, r1) ∧
        pending i r1 = rest ∧
        m_trace r1 = m_trace r ++ dispatched_all ss answers ∧
        flags r1 = foldl (λ f s, flags_after s f) (flags r) ss.
Proof.
  revert answers r fuel. induction ss as [|s ss IH]; intros answers r fuel Hfit Hlen Hp Hfuel.
  - destruct answers; [|done]. simpl in *. destruct fuel as [|fuel]; [lia|]. simpl.
    rewrite (bind_ok _ _ _ _ _ (execute_command_end _ _ _ Hp)). simpl.
    eexists. split; [done|]. autorewrite with renderer. rewrite Hp, app_nil_r.
    unfold flags. by autorewrite with renderer.
  - destruct answers as [|a answers]; [done|]. simpl in *.
    apply Forall_cons in Hfit as [Hs Hfit]. injection Hlen as Hlen.
    destruct (decide (submission_cells s a = [])) as [Hnil|Hne].
    + rewrite Hnil in *. simpl in *.
      destruct (IH answers r fuel Hfit Hlen Hp Hfuel) as (r1 & H1 & H2 & H3 & H4).
      exists r1. split; [done|]. split; [done|].
      assert (dispatched s a = [] ∧ flags_after s (flags r) = flags r) as [-> ->].
      { destruct s as [c| |]; [destruct c; destruct a|..]; done. }
      done.
    + rewrite <- app_assoc in Hp.
      destruct (execute_command_record s a i r _ Hs Hne Hp) as (r0 & H0 & Hp0 & Ht0 & Hf0).
      destruct fuel as [|fuel]; [lia|]. simpl.
      rewrite (bind_ok _ _ _ _ _ H0). simpl.
      rewrite length_app in Hfuel.
      assert (0 < length (submission_cells s a)) by (destruct (submission_cells s a); simpl; [done|lia]).
      destruct (IH answers r0 fuel Hfit Hlen Hp0) as (r1 & H1 & H2 & H3 & H4); [lia|].
      exists r1. split; [done|]. split; [done|].
      rewrite H3, Ht0, <- app_assoc. split; [done|].
      rewrite H4. unfold flags at 1. by rewrite Hf0.
Qed.

(** ** What a member function leaves alone *)

#[local] Instance keeps_preorder {B} (f : Renderer → B) : PreOrder (keeps f).
Proof.
  split; [by intros r|]. intros r1 r2 r3 H12 H23. unfold keeps in *. congruence.
Qed.

#[local] Instance extends_trace_preorder (P : Event → Prop) : PreOrder (extends_trace P).
Proof.
  split.
  - intros r. exists []. by rewrite app_nil_r.
  - intros r1 r2 r3 (e1 & H1 & F1) (e2 & H2 & F2). exists (e1 ++ e2).
    rewrite H2, H1, app_assoc. split; [done|]. by apply Forall_app.
Qed.

Ltac unfold_prims :=
  unfold cmds_read, const_read, emit, set_is_initialized, set_should_run,
    submit_write, on_submit, table_create.

Ltac split_submit :=
  try match goal with
    | |- context [m_submit ?r] =>
        is_var r; let E := fresh "E" in destruct (m_submit r) eqn:E; simpl; rewrite ?E
    end.

Ltac preserves_prim :=
  solve [ apply preserves_ret; apply _
        | apply preserves_fail; apply _
        | apply preserves_CE_ASSERT; apply _
        | let r := fresh "r" in
          intros r;
          unfold keeps, exec_view, unif_view, call_view, control, tables, flags;
          unfold_prims; repeat case_match; simpl;
          repeat match goal with i : ContextRef |- _ => destruct i end;
          first [reflexivity | split_submit; reflexivity]
        | let r := fresh "r" in
          intros r; unfold extends_trace; unfold_prims;
          repeat case_match; simpl;
          repeat match goal with i : ContextRef |- _ => destruct i end;
          split_submit;
          first [ exists []; rewrite app_nil_r; split; [reflexivity|constructor]
                | eexists [_]; split; [reflexivity|repeat (constructor; try exact I)] ] ].

Ltac preserves_tac :=
  repeat first
    [ apply preserves_bind; [apply _ | | intros ?]
    | match goal with
      | |- preserves _ (match ?x with _ => _ end) => destruct x
      end
    | preserves_prim ].

Lemma execute_command_keeps (i : ContextRef) :
  preserves (keeps (exec_view i)) (execute_command i).
Proof.
  unfold execute_command, read_command, read_id, read_size, read_u32, read_u8,
    read_vertex_format, read_pixel_format, read_shader_type, read_uniform_type,
    read_pointer, read_bytes.
  preserves_tac.
Qed.

Lemma execute_command_backend (i : ContextRef) :
  preserves (extends_trace backend) (execute_command i).
Proof.
  unfold execute_command, read_command, read_id, read_size, read_u32, read_u8,
    read_vertex_format, read_pixel_format, read_shader_type, read_uniform_type,
    read_pointer, read_bytes.
  preserves_tac.
Qed.

Lemma execute_loop_keeps (i : ContextRef) (fuel : nat) :
  preserves (keeps (exec_view i)) (execute_loop fuel i).
Proof.
  induction fuel as [|fuel IH]; simpl; [by intros r|].
  apply preserves_bind; [apply _|apply execute_command_keeps|].
  intros [|]; [preserves_prim|exact IH].
Qed.

Lemma execute_loop_backend (i : ContextRef) (fuel : nat) :
  preserves (extends_trace backend) (execute_loop fuel i).
Proof.
  induction fuel as [|fuel IH]; simpl; [intros r; simpl; reflexivity|].
  apply preserves_bind; [apply _|apply execute_command_backend|].
  intros [|]; [preserves_prim|exact IH].
Qed.

Lemma execute_commands_keeps (i : ContextRef) :
  preserves (keeps (exec_view i)) (execute_commands i).
Proof.
  unfold execute_commands. apply preserves_bind; [apply _| |intros _].
  - intros r. apply execute_loop_keeps.
  - intros r. unfold keeps, exec_view. simpl. by destruct i.
Qed.

Lemma execute_commands_backend (i : ContextRef) :
  preserves (extends_trace backend) (execute_commands i).
Proof.
  unfold execute_commands. apply preserves_bind; [apply _| |intros _].
  - intros r. apply execute_loop_backend.
  - intros r. exists []. rewrite app_nil_r. split; [by destruct i|constructor].
Qed.

Lemma update_uniforms_loop_keeps (i : ContextRef) (fuel : nat) :
  preserves (keeps (unif_view i)) (update_uniforms_loop fuel i).
Proof.
  induction fuel as [|fuel IH]; simpl; [by intros r|].
  unfold const_read_type, const_read_id, const_read_size, const_read_data.
  preserves_tac. exact IH.
Qed.

Lemma update_uniforms_loop_backend (i : ContextRef) (fuel : nat) :
  preserves (extends_trace backend) (update_uniforms_loop fuel i).
Proof.
  induction fuel as [|fuel IH]; simpl; [intros r; simpl; reflexivity|].
  unfold const_read_type, const_read_id, const_read_size, const_read_data.
  preserves_tac. exact IH.
Qed.

Lemma update_uniforms_keeps (i : ContextRef) :
  preserves (keeps (unif_view i)) (update_uniforms i).
Proof.
  unfold update_uniforms. apply preserves_bind; [apply _| |intros _].
  - intros r. apply update_uniforms_loop_keeps.
  - intros r. unfold keeps, unif_view. simpl. by destruct i.
Qed.

Lemma update_uniforms_backend (i : ContextRef) :
  preserves (extends_trace backend) (update_uniforms i).
Proof.
  unfold update_uniforms. apply preserves_bind; [apply _| |intros _].
  - intros r. apply update_uniforms_loop_backend.
  - intros r. exists []. rewrite app_nil_r. split; [by destruct i|constructor].
Qed.

Lemma run_call_keeps (c : Call) : preserves (keeps call_view) (run_call c).
Proof.
  destruct c; simpl; unfold_api;
    try (match goal with v : option (list ascii) |- _ => destruct v end);
    preserves_tac.
Qed.

Lemma run_submission_keeps (s : Submission) : preserves (keeps call_view) (run_submission s).
Proof.
  destruct s; simpl; [apply run_call_keeps|..]; unfold returning; preserves_tac.
Qed.

Lemma run_submissions_keeps (ss : list Submission) :
  preserves (keeps call_view) (run_submissions ss).
Proof.
  induction ss as [|s ss IH]; simpl; [preserves_prim|].
  apply preserves_bind; [apply _|apply run_submission_keeps|intros a].
  apply preserves_bind; [apply _|exact IH|intros rest]. preserves_prim.
Qed.

Lemma run_submission_tables_grow (s : Submission) :
  preserves tables_grow (run_submission s).
Proof.
  destruct s; simpl; [apply tables_grow_run_call|..]; unfold returning; auto 10 with grow.
Qed.

(** ** The handoff between the two threads *)

Lemma occurrences_app (e : Event) (r r' : Renderer) (evs : list Event) :
  m_trace r' = m_trace r ++ evs →
  occurrences e r' = occurrences e r + length (filter (λ x, x = e) evs).
Proof. unfold occurrences. intros ->. by rewrite filter_app, length_app. Qed.

Lemma filter_backend (e : Event) (evs : list Event) :
  Forall backend evs → ¬ backend e → filter (λ x, x = e) evs = [].
Proof.
  intros Hb He. induction Hb as [|x evs Hx _ IH]; [done|].
  rewrite filter_cons_False; [done|]. by intros ->.
Qed.

Lemma numbers_quiet (r r' : Renderer) :
  keeps control r r' → extends_trace backend r r' → numbers r' = numbers r.
Proof.
  intros Hk (evs & Ht & Hb). unfold keeps, control in Hk.
  injection Hk as _ _ Hrw Hmw.
  unfold numbers, frames_begun, frames_returned, renders_begun, renders_done, handoffs.
  rewrite !(occurrences_app _ _ _ _ Ht), !(filter_backend _ _ Hb) by (simpl; tauto).
  simpl. rewrite !Nat.add_0_r. by rewrite Hrw, Hmw.
Qed.

Lemma keeps_fst {B C} (f : Renderer → B) (g : Renderer → C) (r r' : Renderer) :
  keeps (λ r, (f r, g r)) r r' → keeps f r r'.
Proof. unfold keeps. congruence. Qed.

Lemma keeps_snd {B C} (f : Renderer → B) (g : Renderer → C) (r r' : Renderer) :
  keeps (λ r, (f r, g r)) r r' → keeps g r r'.
Proof. unfold keeps. congruence. Qed.

Lemma numbers_event (r r' : Renderer) (ev : Event) :
  m_trace r' = m_trace r ++ [ev] →
  numbers r' =
    (m_render_wait r', m_main_wait r',
     frames_begun r + bump (signal_posted RenderWait) ev,
     frames_returned r + bump (signal_waited MainWait) ev,
     renders_begun r + bump (signal_waited RenderWait) ev,
     renders_done r + bump (signal_posted MainWait) ev,
     handoffs r + bump contexts_swapped ev).
Proof.
  intros Ht.
  unfold numbers, frames_begun, frames_returned, renders_begun, renders_done, handoffs.
  rewrite !(occurrences_app _ _ _ _ Ht). unfold bump.
  rewrite !filter_cons, !filter_nil. by repeat case_decide.
Qed.

Lemma numbers_post_render (r : Renderer) :
  ∃ r', post RenderWait r = (Ok tt, r') ∧
        numbers r' = (S (m_render_wait r), m_main_wait r, S (frames_begun r),
                      frames_returned r, renders_begun r, renders_done r, handoffs r) ∧
        keeps rest_view r r'.
Proof.
  eexists. split; [reflexivity|]. split; [|done].
  rewrite (numbers_event r _ (signal_posted RenderWait)) by done.
  unfold bump. repeat case_decide; try done. by rewrite !Nat.add_0_r, Nat.add_1_r.
Qed.

Lemma numbers_post_main (r : Renderer) :
  ∃ r', post MainWait r = (Ok tt, r') ∧
        numbers r' = (m_render_wait r, S (m_main_wait r), frames_begun r,
                      frames_returned r, renders_begun r, S (renders_done r), handoffs r) ∧
        keeps rest_view r r'.
Proof.
  eexists. split; [reflexivity|]. split; [|done].
  rewrite (numbers_event r _ (signal_posted MainWait)) by done.
  unfold bump. repeat case_decide; try done. by rewrite !Nat.add_0_r, Nat.add_1_r.
Qed.

Lemma numbers_wait_render (r r' : Renderer) (u : unit) :
  wait RenderWait r = (Ok u, r') →
  ∃ n, m_render_wait r = S n ∧
       numbers r' = (n, m_main_wait r, frames_begun r, frames_returned r,
                     S (renders_begun r), renders_done r, handoffs r) ∧
       keeps rest_view r r'.
Proof.
  unfold wait. simpl. destruct (m_render_wait r) as [|n] eqn:E; [done|].
  intros [= _ <-]. exists n. split; [done|]. split; [|done].
  rewrite (numbers_event r _ (signal_waited RenderWait)) by done.
  unfold bump. repeat case_decide; try done. by rewrite !Nat.add_0_r, Nat.add_1_r.
Qed.

Lemma numbers_wait_main (r r' : Renderer) (u : unit) :
  wait MainWait r = (Ok u, r') →
  ∃ n, m_main_wait r = S n ∧
       numbers r' = (m_render_wait r, n, frames_begun r, S (frames_returned r),
                     renders_begun r, renders_done r, handoffs r) ∧
       keeps rest_view r r'.
Proof.
  unfold wait. simpl. destruct (m_main_wait r) as [|n] eqn:E; [done|].
  intros [= _ <-]. exists n. split; [done|]. split; [|done].
  rewrite (numbers_event r _ (signal_waited MainWait)) by done.
  unfold bump. repeat case_decide; try done. by rewrite !Nat.add_0_r, Nat.add_1_r.
Qed.

Lemma numbers_swap (r : Renderer) :
  ∃ r', swap_contexts r = (Ok tt, r') ∧
        numbers r' = (m_render_wait r, m_main_wait r, frames_begun r, frames_returned r,
                      renders_begun r, renders_done r, S (handoffs r)) ∧
        m_submit r' = m_draw r ∧ m_draw r' = m_submit r ∧
        context (m_submit r) r' = ctx_push (context (m_submit r) r) ∧
        (∀ j, j ≠ m_submit r → context j r' = context j r) ∧
        flags r' = flags r ∧ tables r' = tables r.
Proof.
  eexists. split; [apply swap_contexts_spec|].
  split.
  { rewrite (numbers_event r _ contexts_swapped) by (by destruct (m_submit r)).
    unfold bump. repeat case_decide; try done.
    rewrite !Nat.add_0_r, Nat.add_1_r. by destruct (m_submit r). }
  split; [done|]. split; [done|].
  split; [by destruct (m_submit r)|].
  split; [intros j Hj; by destruct (m_submit r), j|].
  split; by destruct (m_submit r).
Qed.

Lemma advance_inv {A} (c : M A) (s s' : System) (p : ProducerPc) (q : ConsumerPc) :
  advance c s p q = Some s' →
  ∃ a r', c (renderer s) = (Ok a, r') ∧ s' = mkSystem r' p q.
Proof.
  unfold advance. destruct (c (renderer s)) as [[a|f| |] r']; try done.
  intros [= <-]. eauto.
Qed.

Lemma numbers_call_view (r r' : Renderer) : keeps call_view r r' → numbers r' = numbers r.
Proof.
  intros Hk. unfold keeps, call_view in Hk.
  apply numbers_quiet; [unfold keeps; congruence|].
  exists []. rewrite app_nil_r. split; [congruence|constructor].
Qed.

Lemma numbers_run_call (c : Call) (r r' : Renderer) res :
  run_call c r = (res, r') → numbers r' = numbers r.
Proof.
  intros H. apply numbers_call_view. pose proof (run_call_keeps c r) as Hk. by rewrite H in Hk.
Qed.

Lemma numbers_submit_write (x : Cell) (r r' : Renderer) res :
  submit_write x r = (res, r') → numbers r' = numbers r.
Proof. unfold submit_write. intros [= _ <-]. by destruct (m_submit r). Qed.

Lemma numbers_execute_commands (i : ContextRef) (r r' : Renderer) res :
  execute_commands i r = (res, r') → numbers r' = numbers r.
Proof.
  intros H. apply numbers_quiet.
  - pose proof (execute_commands_keeps i r) as Hk. rewrite H in Hk.
    unfold exec_view in Hk. by do 4 apply keeps_fst in Hk.
  - pose proof (execute_commands_backend i r) as Hk. by rewrite H in Hk.
Qed.

Lemma numbers_update_uniforms (i : ContextRef) (r r' : Renderer) res :
  update_uniforms i r = (res, r') → numbers r' = numbers r.
Proof.
  intros H. apply numbers_quiet.
  - pose proof (update_uniforms_keeps i r) as Hk. rewrite H in Hk.
    unfold unif_view in Hk. by do 5 apply keeps_fst in Hk.
  - pose proof (update_uniforms_backend i r) as Hk. by rewrite H in Hk.
Qed.

Lemma numbers_render (r r' : Renderer) res :
  (if m_is_initialized r then emit render_impl else ret tt) r = (res, r') →
  numbers r' = numbers r.
Proof.
  intros H. apply numbers_quiet.
  - destruct (m_is_initialized r); by injection H as _ <-.
  - destruct (m_is_initialized r); injection H as _ <-.
    + exists [render_impl]. split; [done|]. by repeat constructor.
    + exists []. by rewrite app_nil_r.
Qed.

Ltac use_numbers :=
  repeat match goal with
    | H : numbers _ = _ |- _ => unfold numbers in H; injection H as ? ? ? ? ? ? ?
    end.

Lemma act_Consume (s : System) : act Consume s = consume s.
Proof. unfold act. by destruct (producer s). Qed.

Lemma sync_invariant_consume (s s' : System) :
  consume s = Some s' → sync_invariant s → sync_invariant s'.
Proof.
  destruct s as [r p c]. unfold sync_invariant, consume. simpl. destruct c; try done.
  all: try (intros [= <-]; simpl; destruct (m_should_run r); simpl; tauto).
  all: intros (x & r' & Hc & ->)%advance_inv Hinv; simpl in *.
  all: first
    [ apply numbers_wait_render in Hc as (n & Hrw & Hn & _)
    | destruct (numbers_swap r) as (r2 & Hp & Hn & _);
      rewrite Hp in Hc; injection Hc as _ <-
    | apply numbers_execute_commands in Hc
    | apply numbers_update_uniforms in Hc
    | apply numbers_render in Hc
    | destruct (numbers_post_main r) as (r2 & Hp & Hn & _);
      rewrite Hp in Hc; injection Hc as _ <- ].
  all: use_numbers; lia.
Qed.

Lemma sync_invariant_step (a : Action) (s s' : System) :
  act a s = Some s' → sync_invariant s → sync_invariant s'.
Proof.
  destruct a as [call| | | | | | | |];
    [..|rewrite act_Consume; apply sync_invariant_consume];
    destruct s as [r p c]; unfold sync_invariant; destruct p; simpl; try done.
  - (* DoCall *)
    intros (x & r' & Hc & ->)%advance_inv Hinv. simpl in *.
    apply numbers_run_call in Hc. use_numbers. lia.
  - (* DoInit *)
    destruct c; try done; intros (x & r' & Hc & ->)%advance_inv Hinv; simpl in *;
      injection Hc as _ <-; tauto.
  - (* DoInitWrite *)
    intros (x & r' & Hc & ->)%advance_inv Hinv. simpl in *.
    apply numbers_submit_write in Hc. use_numbers. lia.
  - (* DoShutdown *)
    destruct (m_should_run r); [|by intros [= <-]].
    intros (x & r' & Hc & ->)%advance_inv Hinv. simpl in *.
    apply numbers_submit_write in Hc. use_numbers. lia.
  - (* DoFrame *)
    intros (x & r' & Hc & ->)%advance_inv Hinv. simpl in *.
    destruct (numbers_post_render r) as (r2 & Hp & Hn & _).
    rewrite Hp in Hc; injection Hc as _ <-.
    use_numbers. lia.
  - (* DoPost *)
    intros (x & r' & Hc & ->)%advance_inv Hinv. simpl in *.
    destruct (numbers_post_render r) as (r2 & Hp & Hn & _).
    rewrite Hp in Hc; injection Hc as _ <-.
    use_numbers. lia.
  - (* DoWait *)
    intros (x & r' & Hc & ->)%advance_inv Hinv. simpl in *.
    apply numbers_wait_main in Hc as (n & Hmw & Hn & _).
    use_numbers. destruct k; simpl; lia.
  - (* DoStop *)
    destruct c; try done. intros [= <-]. simpl. tauto.
Qed.

Lemma sync_invariant_initial : sync_invariant initial.
Proof. unfold sync_invariant. simpl. by vm_compute. Qed.

Lemma reachable_invariant (P : System → Prop) :
  P initial → (∀ a s s', act a s = Some s' → P s → P s') →
  ∀ s, reachable s → P s.
Proof.
  intros H0 Hstep. unfold reachable. apply rtc_ind_r; [done|].
  intros s1 s2 _ [a Ha] IH. by eapply Hstep.
Qed.

Lemma reachable_sync (s : System) : reachable s → sync_invariant s.
Proof. apply reachable_invariant; [apply sync_invariant_initial|apply sync_invariant_step]. Qed.

Lemma run_schedule_rtc (sched : list Action) (s s' : System) :
  run_schedule sched s = Some s' → rtc step s s'.
Proof.
  revert s. induction sched as [|a sched IH]; intros s; simpl.
  - intros [= <-]. constructor.
  - destruct (act a s) as [s1|] eqn:E; [|done]. intros H.
    eapply rtc_l; [by exists a|by apply IH].
Qed.

Lemma run_schedule_reachable (sched : list Action) (s : System) :
  run_schedule sched initial = Some s → reachable s.
Proof. apply run_schedule_rtc. Qed.

(** C1: in every state the two threads can reach, at most one of them
    stands where it touches a Frame Context, so no context is touched
    by both; a call of [frame] returns only after a turn of [render_all]
    has been completed for it, and the producer is never more than one
    frame ahead of the consumer. *)
Theorem handoff_mutual_exclusion (s : System) :
  reachable s →
  (producer_touches s = [] ∨ consumer_touches s = []) ∧
  (∀ j, j ∈ producer_touches s → j ∉ consumer_touches s) ∧
  frames_returned (renderer s) ≤ renders_done (renderer s) ∧
  renders_done (renderer s) ≤ frames_begun (renderer s) ∧
  frames_begun (renderer s) ≤ renders_done (renderer s) + 1 ∧
  (waiting (producer s) = false →
     frames_begun (renderer s) = frames_returned (renderer s) ∧
     renders_done (renderer s) = frames_returned (renderer s) ∧
     idle (consumer s) = true).
Proof.
  intros Hs. apply reachable_sync in Hs. unfold sync_invariant in Hs.
  destruct s as [r p c]. simpl in *.
  assert (producer_touches (mkSystem r p c) = [] ∨ consumer_touches (mkSystem r p c) = [])
    as Hex.
  { unfold producer_touches, consumer_touches. simpl.
    destruct p; simpl in *; auto; destruct c; simpl in *; auto; lia. }
  split; [exact Hex|]. split.
  { intros j Hj Hj'.
    destruct Hex as [H|H]; rewrite H in *;
      first [by apply elem_of_nil in Hj|by apply elem_of_nil in Hj']. }
  destruct (idle c), (waiting p); simpl in *; repeat split; try lia.
Qed.

(** ** The streams across the handoff *)

Lemma other_other (i : ContextRef) : other (other i) = i.
Proof. by destruct i. Qed.

Lemma other_ne (i : ContextRef) : other i ≠ i.
Proof. by destruct i. Qed.

Lemma ne_other (i j : ContextRef) : j ≠ i → j = other i.
Proof. by destruct i, j. Qed.

Lemma stream_invariant_same (s : System) (r' : Renderer) (p : ProducerPc) (q : ConsumerPc) :
  m_submit r' = m_submit (renderer s) → m_draw r' = m_draw (renderer s) →
  (∀ j, m_commands (context j r') = m_commands (context j (renderer s))) →
  (q = consumer s ∨ (consumer s ≠ AtExecute ∧ q ≠ AtExecute)) →
  stream_invariant s → stream_invariant (mkSystem r' p q).
Proof.
  intros Hs Hd Hc Hq (H1 & H2 & H3 & H4). unfold stream_invariant, submit_context in *.
  simpl. rewrite Hs, Hd, !Hc. repeat split; try done.
  destruct Hq as [->|[Hn Hq]]; [done|].
  destruct (consumer s), q; done.
Qed.

Lemma rest_view_facts (r r' : Renderer) :
  keeps rest_view r r' →
  m_submit r' = m_submit r ∧ m_draw r' = m_draw r ∧ (∀ j, context j r' = context j r) ∧
  flags r' = flags r ∧ tables r' = tables r.
Proof.
  unfold keeps, rest_view. intros H. repeat split; try congruence.
  intros [|]; simpl; congruence.
Qed.

Lemma stream_invariant_write (s : System) (sub : Submission) (a : option Id)
  (r' : Renderer) (p : ProducerPc) :
  run_submission sub (renderer s) = (Ok a, r') →
  stream_invariant s → stream_invariant (mkSystem r' p (consumer s)).
Proof.
  intros Hrun (H1 & H2 & H3 & H4).
  pose proof (run_submission_keeps sub (renderer s)) as Hk. rewrite Hrun in Hk.
  unfold keeps, call_view, control in Hk. simpl in Hk.
  apply run_submission_writes in Hrun as (Hs & Hcells & Hcur & _).
  assert (m_draw r' = m_draw (renderer s)) as Hd by congruence.
  assert (context (m_draw r') r' = context (m_draw (renderer s)) (renderer s)) as Hctx.
  { rewrite Hd, H1. rewrite <- Hs at 1. congruence. }
  unfold stream_invariant. simpl. rewrite Hcur, Hcells, Hctx, Hd, Hs.
  repeat split; try done.
  rewrite elem_of_app. intros [H|H]; [done|by apply submission_cells_no_END in H].
Qed.

Lemma execute_commands_clears (i : ContextRef) (r r' : Renderer) (u : unit) :
  execute_commands i r = (Ok u, r') → m_commands (context i r') = CommandBuffer_new.
Proof.
  unfold execute_commands. intros (x & r1 & _ & H)%bind_inv. injection H as _ <-.
  by rewrite context_set_context, decide_True.
Qed.

Lemma update_uniforms_clears (i : ContextRef) (r r' : Renderer) (u : unit) :
  update_uniforms i r = (Ok u, r') → m_constants (context i r') = ConstantBuffer_new.
Proof.
  unfold update_uniforms. intros (x & r1 & _ & H)%bind_inv. injection H as _ <-.
  by rewrite context_set_context, decide_True.
Qed.

Lemma stream_invariant_consume (s s' : System) :
  consume s = Some s' → stream_invariant s → stream_invariant s'.
Proof.
  destruct s as [r p c]. unfold consume. simpl. destruct c; try done.
  - (* AtLoopHead *)
    intros [= <-]. apply (stream_invariant_same (mkSystem r p AtLoopHead)); try done.
    right. by destruct (m_should_run r).
  - (* AtRenderWait *)
    intros (x & r' & Hc & ->)%advance_inv. simpl in Hc.
    apply numbers_wait_render in Hc as (n & _ & _ & Hk).
    apply rest_view_facts in Hk as (Hs & Hd & Hctx & _).
    apply (stream_invariant_same (mkSystem r p AtRenderWait)); try done.
    + intros j. by rewrite Hctx.
    + by right.
  - (* AtSwap *)
    intros (x & r' & Hc & ->)%advance_inv (H1 & H2 & H3 & H4). simpl in *.
    destruct (numbers_swap r) as (r2 & Hp & _ & Hs & Hd & Hpush & Hrest & _).
    rewrite Hp in Hc; injection Hc as _ <-.
    unfold stream_invariant, submit_context in *. simpl.
    rewrite Hs, Hd, Hpush. rewrite Hrest by (rewrite H1; apply other_ne).
    rewrite H4. split; [by rewrite H1, other_other|]. split; [done|].
    split; [apply not_elem_of_nil|].
    exists (cb_cells (m_commands (context (m_submit r) r))). split; [|done].
    simpl. unfold cb_write. by rewrite H2.
  - (* AtExecute *)
    intros (x & r' & Hc & ->)%advance_inv (H1 & H2 & H3 & H4). simpl in *.
    pose proof (execute_commands_clears _ _ _ _ Hc) as Hclear.
    pose proof (execute_commands_keeps (m_draw r) r) as Hk. rewrite Hc in Hk.
    unfold keeps, exec_view, control in Hk. simpl in Hk.
    assert (m_submit r' = m_submit r) as Hs by congruence.
    assert (m_draw r' = m_draw r) as Hd by congruence.
    assert (context (m_submit r) r' = context (m_submit r) r) as Hctx.
    { rewrite H1, other_other in Hk. congruence. }
    unfold stream_invariant, submit_context. simpl. by rewrite Hs, Hd, Hctx, Hclear.
  - (* AtUniforms *)
    intros (x & r' & Hc & ->)%advance_inv Hinv. simpl in Hc.
    pose proof (update_uniforms_keeps (m_draw r) r) as Hk. rewrite Hc in Hk.
    unfold keeps, unif_view, control in Hk. simpl in Hk.
    destruct Hinv as (H1 & H2 & H3 & H4). simpl in *.
    assert (m_submit r' = m_submit r) as Hs by congruence.
    assert (m_draw r' = m_draw r) as Hd by congruence.
    assert (context (m_submit r) r' = context (m_submit r) r) as Hctx.
    { rewrite H1, other_other in Hk. congruence. }
    assert (m_commands (context (m_draw r) r') = m_commands (context (m_draw r) r)) as Hcmd
      by congruence.
    unfold stream_invariant, submit_context. simpl. by rewrite Hs, Hd, Hctx, Hcmd.
  - (* AtRender *)
    intros (x & r' & Hc & ->)%advance_inv. simpl in Hc.
    apply (stream_invariant_same (mkSystem r p AtRender)); try (by right);
      destruct (m_is_initialized r); injection Hc as _ <-; try done;
      intros j; by rewrite context_set_trace.
  - (* AtMainPost *)
    intros (x & r' & Hc & ->)%advance_inv. simpl in Hc.
    destruct (numbers_post_main r) as (r2 & Hp & _ & Hk).
    rewrite Hp in Hc; injection Hc as _ <-.
    apply rest_view_facts in Hk as (Hs & Hd & Hctx & _).
    apply (stream_invariant_same (mkSystem r p AtMainPost)); try done.
    + intros j. by rewrite Hctx.
    + by right.
Qed.

Lemma returning_submit_write (x : Cell) (r r' : Renderer) (u : unit) :
  submit_write x r = (Ok u, r') → returning (submit_write x) r = (Ok None, r').
Proof. intros H. unfold returning. by rewrite (bind_ok _ _ _ _ _ H). Qed.

Ltac same_streams :=
  first [ done
        | by left
        | by right
        | let j := fresh "j" in
          intros j;
          rewrite ?context_set_flags, ?context_set_trace;
          repeat match goal with H : ∀ j, context j _ = context j _ |- _ => rewrite H end;
          done ].

Lemma stream_invariant_step (a : Action) (s s' : System) :
  act a s = Some s' → stream_invariant s → stream_invariant s'.
Proof.
  destruct a as [call| | | | | | | |];
    [..|rewrite act_Consume; apply stream_invariant_consume];
    destruct s as [r p c]; destruct p; simpl; try done.
  - (* DoCall *)
    intros (x & r' & Hc & ->)%advance_inv. simpl in Hc.
    apply (stream_invariant_write (mkSystem r InUserCode c) (Api call) x). exact Hc.
  - (* DoInit *)
    destruct c; try done; intros (x & r' & Hc & ->)%advance_inv; simpl in Hc;
      injection Hc as _ <-.
    + apply (stream_invariant_same (mkSystem r InUserCode NotStarted)); same_streams.
    + apply (stream_invariant_same (mkSystem r InUserCode Finished)); same_streams.
  - (* DoInitWrite *)
    intros (x & r' & Hc & ->)%advance_inv. simpl in Hc.
    apply returning_submit_write in Hc.
    apply (stream_invariant_write (mkSystem r InInit c) InitRecord None). exact Hc.
  - (* DoShutdown *)
    destruct (m_should_run r); [|by intros [= <-]].
    intros (x & r' & Hc & ->)%advance_inv. simpl in Hc.
    apply returning_submit_write in Hc.
    apply (stream_invariant_write (mkSystem r InUserCode c) ShutdownRecord None). exact Hc.
  - (* DoFrame *)
    intros (x & r' & Hc & ->)%advance_inv. simpl in Hc.
    destruct (numbers_post_render r) as (r2 & Hp & _ & Hk).
    rewrite Hp in Hc; injection Hc as _ <-.
    apply rest_view_facts in Hk as (Hs & Hd & Hctx & _).
    apply (stream_invariant_same (mkSystem r InUserCode c)); same_streams.
  - (* DoPost *)
    intros (x & r' & Hc & ->)%advance_inv. simpl in Hc.
    destruct (numbers_post_render r) as (r2 & Hp & _ & Hk).
    rewrite Hp in Hc; injection Hc as _ <-.
    apply rest_view_facts in Hk as (Hs & Hd & Hctx & _).
    apply (stream_invariant_same (mkSystem r (AtPost k) c)); same_streams.
  - (* DoWait *)
    intros (x & r' & Hc & ->)%advance_inv. simpl in Hc.
    apply numbers_wait_main in Hc as (n & _ & _ & Hk).
    apply rest_view_facts in Hk as (Hs & Hd & Hctx & _).
    apply (stream_invariant_same (mkSystem r (AtWait k) c)); same_streams.
  - (* DoStop *)
    destruct c; try done. intros [= <-].
    apply (stream_invariant_same (mkSystem r AtStop Finished)); same_streams.
Qed.

Lemma stream_invariant_initial : stream_invariant initial.
Proof. unfold stream_invariant. simpl. repeat split; try done. apply not_elem_of_nil. Qed.

Lemma reachable_stream (s : System) : reachable s → stream_invariant s.
Proof.
  apply reachable_invariant; [apply stream_invariant_initial|apply stream_invariant_step].
Qed.

(** C3: [swap_contexts] appends END to the command stream of the
    submit context and then exchanges the roles: the context that was
    [submit] is now [draw] and its stream is the old one followed by
    END, the other context is untouched.  Whenever the consumer is about
    to execute a command stream, that stream is unread and ends in its
    only END. *)
Theorem swap_contexts_closes_then_swaps :
  (∀ r : Renderer, ∃ r',
     swap_contexts r = (Ok tt, r') ∧
     m_submit r' = m_draw r ∧ m_draw r' = m_submit r ∧
     context (m_draw r') r' = ctx_push (context (m_submit r) r) ∧
     cb_cells (m_commands (context (m_draw r') r')) =
       cb_cells (m_commands (context (m_submit r) r)) ++ [CellCommand END] ∧
     (∀ j, j ≠ m_submit r → context j r' = context j r)) ∧
  (∀ s : System, reachable s → consumer s = AtExecute →
     ∃ body,
       m_commands (context (m_draw (renderer s)) (renderer s)) =
         {| cb_cells := body ++ [CellCommand END]; cb_cursor := 0 |} ∧
       CellCommand END ∉ body).
Proof.
  split.
  - intros r. destruct (numbers_swap r) as (r' & Hp & _ & Hs & Hd & Hpush & Hrest & _).
    exists r'. rewrite Hd, Hpush. by repeat split.
  - intros s Hs Hc. apply reachable_stream in Hs as (_ & _ & _ & H).
    by rewrite Hc in H.
Qed.

(** ** Round trip through the command stream *)

Lemma execute_commands_records (ss : list Submission) (answers : list (option Id))
  (i : ContextRef) (r : Renderer) :
  Forall name_fits ss → length answers = length ss →
  m_commands (context i r) =
    {| cb_cells := submission_cells_all ss answers ++ [CellCommand END]; cb_cursor := 0 |} →
  ∃ r1 r2,
    execute_loop (S (unread i r)) i r = (Ok tt, r1) ∧
    pending i r1 = [] ∧
    m_trace r1 = m_trace r ++ dispatched_all ss answers ∧
    flags r1 = foldl (λ f s, flags_after s f) (flags r) ss ∧
    execute_commands i r = (Ok tt, r2) ∧
    m_trace r2 = m_trace r1 ∧ flags r2 = flags r1 ∧
    m_commands (context i r2) = CommandBuffer_new.
Proof.
  intros Hfit Hlen Hcmd.
  assert (pending i r = submission_cells_all ss answers ++ [CellCommand END]) as Hp.
  { unfold pending. by rewrite Hcmd. }
  destruct (execute_loop_records ss answers i r [] (S (unread i r)) Hfit Hlen Hp)
    as (r1 & Hloop & Hp1 & Ht1 & Hf1).
  { unfold unread. rewrite Hcmd. simpl. rewrite length_app. simpl. lia. }
  exists r1. eexists. split; [exact Hloop|]. split; [exact Hp1|].
  split; [exact Ht1|]. split; [exact Hf1|].
  unfold execute_commands, bind. cbv beta. rewrite Hloop.
  split; [reflexivity|]. split; [by destruct i|]. split; [by destruct i|].
  by rewrite context_set_context, decide_True.
Qed.

(** C5: whatever records the producer API writes into a fresh command
    stream, once [swap_contexts] has closed it the stream is those
    records followed by the one END; the loop of [execute_commands]
    dispatches exactly the written opcodes with the written operands, in
    order, and stops with nothing left to read; the [clear()] that
    follows leaves a stream equal to a freshly constructed one. *)
Theorem command_stream_round_trip (ss : list Submission) (answers : list (option Id))
  (r r1 : Renderer) :
  m_commands (submit_context r) = CommandBuffer_new →
  run_submissions ss r = (Ok answers, r1) →
  ∃ r2 r3 r4,
    swap_contexts r1 = (Ok tt, r2) ∧
    m_commands (context (m_draw r2) r2) =
      {| cb_cells := submission_cells_all ss answers ++ [CellCommand END]; cb_cursor := 0 |} ∧
    (CellCommand END ∉ submission_cells_all ss answers) ∧
    execute_loop (S (unread (m_draw r2) r2)) (m_draw r2) r2 = (Ok tt, r3) ∧
    pending (m_draw r2) r3 = [] ∧
    m_trace r3 = m_trace r2 ++ dispatched_all ss answers ∧
    execute_commands (m_draw r2) r2 = (Ok tt, r4) ∧
    m_trace r4 = m_trace r3 ∧
    m_commands (context (m_draw r2) r4) = CommandBuffer_new.
Proof.
  intros Hfresh Hrun.
  apply run_submissions_writes in Hrun as (Hs & Hcells & Hcur & _ & _ & Hfit & Hlen).
  rewrite Hfresh in Hcells, Hcur. simpl in Hcells, Hcur.
  destruct (numbers_swap r1) as (r2 & Hswap & _ & Hs2 & Hd2 & Hpush & _).
  assert (m_commands (context (m_draw r2) r2) =
    {| cb_cells := submission_cells_all ss answers ++ [CellCommand END]; cb_cursor := 0 |})
    as Hcmd.
  { rewrite Hd2, Hpush. simpl. unfold cb_write. fold (submit_context r1).
    by rewrite Hcells, Hcur. }
  destruct (execute_commands_records ss answers (m_draw r2) r2 Hfit Hlen Hcmd)
    as (r3 & r4 & H1 & H2 & H3 & _ & H5 & H6 & _ & H8).
  exists r2, r3, r4. repeat split; try done.
  apply submission_cells_all_no_END.
Qed.

(** ** One turn of the consumer *)

Lemma const_read_pending (i : ContextRef) (r : Renderer) :
  const_read i r =
    match pending_constants i r with
    | c :: _ => (Ok c, advance_constants i r)
    | [] => (Failed StreamFault, r)
    end.
Proof.
  unfold const_read, kb_read, pending_constants, advance_constants.
  destruct (kb_cells _ !! kb_cursor _) as [c|] eqn:E.
  - by rewrite (drop_S _ _ _ E).
  - apply lookup_ge_None in E. by rewrite drop_ge.
Qed.

Lemma pending_constants_advance (i : ContextRef) (r : Renderer) :
  pending_constants i (advance_constants i r) = tail (pending_constants i r).
Proof.
  unfold pending_constants, advance_constants.
  rewrite context_set_context, decide_True by done. simpl. apply drop_tail.
Qed.

Lemma pending_constants_set_trace (i : ContextRef) tr (r : Renderer) :
  pending_constants i (set_trace tr r) = pending_constants i r.
Proof. unfold pending_constants. by rewrite context_set_trace. Qed.

Lemma trace_advance_constants (i : ContextRef) (r : Renderer) :
  m_trace (advance_constants i r) = m_trace r.
Proof. by destruct i. Qed.

Hint Rewrite pending_constants_advance pending_constants_set_trace
  trace_advance_constants : renderer.

#[local] Arguments advance_constants : simpl never.
#[local] Arguments pending_constants : simpl never.
#[local] Arguments const_read : simpl never.

Lemma update_uniforms_loop_records (ss : list Submission) (i : ContextRef)
  (r : Renderer) (rest : list ConstantCell) (fuel : nat) :
  Forall tagged ss →
  pending_constants i r = (ss ≫= constant_cells) ++ ConstType UniformType_END :: rest →
  length (ss ≫= constant_cells) < fuel →
  ∃ r1, update_uniforms_loop fuel i r = (Ok tt, r1) ∧
        pending_constants i r1 = rest ∧
        m_trace r1 = m_trace r ++ (ss ≫= uniform_update).
Proof.
  revert r fuel. induction ss as [|s ss IH]; intros r fuel Htag Hp Hfuel.
  - simpl in *. destruct fuel as [|fuel]; [lia|]. simpl.
    unfold const_read_type, bind. rewrite const_read_pending, Hp. simpl.
    eexists. split; [reflexivity|]. autorewrite with renderer.
    by rewrite Hp, app_nil_r.
  - apply Forall_cons in Htag as [Hs Htag].
    rewrite bind_cons in Hp, Hfuel. rewrite bind_cons.
    destruct (decide (constant_cells s = [])) as [Hnil|Hne].
    + assert (uniform_update s = []) as ->.
      { destruct s as [[]| |]; try done. by destruct value. }
      rewrite Hnil in *. simpl in *. by apply IH.
    + destruct s as [[]| |]; try done.
      destruct value as [v|]; [|done].
      simpl in Hs, Hp, Hfuel. destruct type as [k|]; [|done].
      destruct fuel as [|fuel]; [lia|]. simpl.
      unfold const_read_type, const_read_id, const_read_size, const_read_data, bind.
      repeat (rewrite const_read_pending; autorewrite with renderer; rewrite Hp; simpl).
      rewrite bool_decide_eq_true_2 by done. simpl.
      destruct (IH (set_trace (m_trace (advance_constants i (advance_constants i
          (advance_constants i (advance_constants i r)))) ++
          [update_uniform_impl id (N.of_nat (length v)) v])
          (advance_constants i (advance_constants i (advance_constants i
             (advance_constants i r))))) fuel Htag) as (r1 & H1 & H2 & H3).
      { autorewrite with renderer. by rewrite Hp. }
      { lia. }
      exists r1. split; [exact H1|]. split; [exact H2|].
      rewrite H3. autorewrite with renderer. by rewrite <- app_assoc.
Qed.

Lemma update_uniforms_records (ss : list Submission) (i : ContextRef) (r : Renderer) :
  Forall tagged ss →
  m_constants (context i r) =
    {| kb_cells := (ss ≫= constant_cells) ++ [ConstType UniformType_END]; kb_cursor := 0 |} →
  ∃ r1, update_uniforms i r = (Ok tt, r1) ∧
        m_trace r1 = m_trace r ++ (ss ≫= uniform_update) ∧
        m_constants (context i r1) = ConstantBuffer_new.
Proof.
  intros Htag Hk.
  assert (pending_constants i r = (ss ≫= constant_cells) ++ [ConstType UniformType_END])
    as Hp.
  { unfold pending_constants. by rewrite Hk. }
  destruct (update_uniforms_loop_records ss i r [] (S (unread_constants i r)) Htag Hp)
    as (r1 & Hloop & _ & Ht).
  { unfold unread_constants. rewrite Hk. simpl. rewrite length_app. simpl. lia. }
  eexists. unfold update_uniforms, bind. cbv beta. rewrite Hloop.
  split; [reflexivity|]. split; [by destruct i|].
  by rewrite context_set_context, decide_True.
Qed.

Lemma wait_ready (sg : Signal) (r : Renderer) (n : nat) :
  signal_count sg r = S n →
  ∃ r', wait sg r = (Ok tt, r') ∧
        m_trace r' = m_trace r ++ [signal_waited sg] ∧
        signal_count sg r' = n ∧
        keeps rest_view r r'.
Proof.
  intros Hn. unfold wait. rewrite Hn. eexists. split; [reflexivity|].
  by destruct sg.
Qed.

Lemma wait_blocked (sg : Signal) (r : Renderer) :
  signal_count sg r = 0 → wait sg r = (Blocked, r).
Proof. intros Hn. unfold wait. by rewrite Hn. Qed.

Lemma initialized_after_flags (ss : list Submission) (f : bool * bool) :
  (foldl (λ f s, flags_after s f) f ss).1 = initialized_after ss f.1.
Proof.
  revert f. induction ss as [|s ss IH]; intros f; simpl; [done|].
  rewrite IH. by destruct s.
Qed.

Lemma applied_tagged (ss : list Submission) : Forall tagged ss → applied ss = ss.
Proof.
  induction ss as [|s ss IH]; intros Htag; [done|].
  apply Forall_cons in Htag as [Hs Htag]. simpl. rewrite (IH Htag).
  destruct s as [[]| |]; try done. destruct type; [done|]. by destruct value.
Qed.

(** The constant stream of a frame, as the loop of [update_uniforms]
    reads it: the records it applies, the tag it stops at, and what it
    leaves unread. *)
Lemma applied_shape (ss : list Submission) :
  ∃ ss1 rest,
    (ss ≫= constant_cells) ++ [ConstType UniformType_END] =
      (ss1 ≫= constant_cells) ++ ConstType UniformType_END :: rest ∧
    Forall tagged ss1 ∧
    ss1 ≫= uniform_update = applied ss ≫= uniform_update.
Proof.
  induction ss as [|s ss (ss1 & rest & Heq & Htag & Hupd)].
  - by exists [], [].
  - rewrite bind_cons, <- app_assoc, Heq.
    destruct (decide (constant_cells s = [])) as [Hnil|Hne].
    + exists ss1, rest. rewrite Hnil. split; [done|]. split; [done|].
      assert (applied (s :: ss) = s :: applied ss) as ->.
      { destruct s as [[]| |]; try done. destruct type; [done|]. by destruct value. }
      assert (uniform_update s = []) as Hs.
      { destruct s as [[]| |]; try done. by destruct value. }
      by rewrite bind_cons, Hs.
    + destruct s as [[]| |]; try done. destruct value as [v|]; [|done].
      destruct type as [k|].
      * eexists (_ :: ss1), rest. rewrite bind_cons, <- app_assoc.
        split; [done|]. split; [by constructor|].
        cbn [applied]. by rewrite !bind_cons, Hupd.
      * exists [], ([ConstId id; ConstSize (N.of_nat (length v)); ConstData v] ++
                  (ss1 ≫= constant_cells) ++ ConstType UniformType_END :: rest).
        done.
Qed.

Lemma update_uniforms_applied (ss : list Submission) (i : ContextRef) (r : Renderer) :
  m_constants (context i r) =
    {| kb_cells := (ss ≫= constant_cells) ++ [ConstType UniformType_END]; kb_cursor := 0 |} →
  ∃ r1, update_uniforms i r = (Ok tt, r1) ∧
        m_trace r1 = m_trace r ++ (applied ss ≫= uniform_update).
Proof.
  intros Hk. destruct (applied_shape ss) as (ss1 & rest & Heq & Htag & Hupd).
  assert (pending_constants i r =
          (ss1 ≫= constant_cells) ++ ConstType UniformType_END :: rest) as Hp.
  { unfold pending_constants. by rewrite Hk. }
  destruct (update_uniforms_loop_records ss1 i r rest (S (unread_constants i r)) Htag Hp)
    as (r1 & Hloop & _ & Ht).
  { unfold unread_constants. rewrite Hk. simpl. rewrite Heq, length_app. simpl. lia. }
  eexists. unfold update_uniforms, bind. cbv beta. rewrite Hloop.
  split; [reflexivity|]. rewrite <- Hupd. by destruct i.
Qed.


(** ** Frames with nothing submitted *)

Lemma settled_same (s : System) (r' : Renderer) (p : ProducerPc) (q : ConsumerPc) :
  m_submit r' = m_submit (renderer s) → m_draw r' = m_draw (renderer s) →
  (∀ j, context j r' = context j (renderer s)) →
  m_should_run r' = m_should_run (renderer s) →
  (q = consumer s ∨
   (consumer s ≠ AtExecute ∧ consumer s ≠ AtUniforms ∧ q ≠ AtExecute ∧ q ≠ AtUniforms)) →
  settled s → settled (mkSystem r' p q).
Proof.
  intros Hs Hd Hc Hr Hq (H1 & H2 & H3 & H4 & H5 & H6). unfold settled, submit_context in *.
  simpl. rewrite Hs, Hd, !Hc, Hr. repeat split; try done.
  - rewrite H5. destruct Hq as [->|(? & ? & ? & ?)]; [done|]. by destruct (consumer s), q.
  - rewrite H6. destruct Hq as [->|(? & ? & ? & ?)]; [done|]. by destruct (consumer s), q.
Qed.

Ltac same_settled :=
  first [ done
        | by left
        | by right
        | let j := fresh "j" in
          intros j;
          rewrite ?context_set_flags, ?context_set_trace;
          repeat match goal with H : ∀ j, context j _ = context j _ |- _ => rewrite H end;
          done
        | match goal with H : flags _ = flags _ |- _ =>
            unfold flags in H; by injection H end ].

Lemma settled_step (a : Action) (s s' : System) :
  frame_action a → act a s = Some s' → settled s → settled s'.
Proof.
  intros [-> | [-> | ->]]; destruct s as [r p c].
  - (* DoFrame *)
    destruct p; simpl; try done.
    intros (x & r' & Hc & ->)%advance_inv. simpl in Hc.
    destruct (numbers_post_render r) as (r2 & Hp & _ & Hk).
    rewrite Hp in Hc; injection Hc as _ <-.
    apply rest_view_facts in Hk as (Hs & Hd & Hctx & Hf & _).
    apply (settled_same (mkSystem r InUserCode c)); same_settled.
  - (* DoWait *)
    destruct p; simpl; try done.
    intros (x & r' & Hc & ->)%advance_inv. simpl in Hc.
    apply numbers_wait_main in Hc as (n & _ & _ & Hk).
    apply rest_view_facts in Hk as (Hs & Hd & Hctx & Hf & _).
    apply (settled_same (mkSystem r (AtWait k) c)); same_settled.
  - (* Consume *)
    rewrite act_Consume. unfold consume. simpl. destruct c; try done.
    + (* AtLoopHead *)
      intros [= <-] Hset. pose proof Hset as (Hrun & _). simpl in Hrun. rewrite Hrun.
      revert Hset. apply (settled_same (mkSystem r p AtLoopHead)); same_settled.
    + (* AtRenderWait *)
      intros (x & r' & Hc & ->)%advance_inv. simpl in Hc.
      apply numbers_wait_render in Hc as (n & _ & _ & Hk).
      apply rest_view_facts in Hk as (Hs & Hd & Hctx & Hf & _).
      apply (settled_same (mkSystem r p AtRenderWait)); same_settled.
    + (* AtSwap *)
      intros (x & r' & Hc & ->)%advance_inv (H1 & H2 & H3 & H4 & H5 & H6). simpl in *.
      destruct (numbers_swap r) as (r2 & Hp & _ & Hs & Hd & Hpush & Hrest & Hf & _).
      rewrite Hp in Hc; injection Hc as _ <-.
      unfold settled, submit_context in *. simpl.
      rewrite Hs, Hd, Hpush. rewrite Hrest by (rewrite H2; apply other_ne).
      rewrite H5, H6. simpl. rewrite H3, H4.
      repeat split; try done.
      * unfold flags in Hf. injection Hf as _ ->. done.
      * by rewrite H2, other_other.
    + (* AtExecute *)
      intros (x & r' & Hc & ->)%advance_inv (H1 & H2 & H3 & H4 & H5 & H6). simpl in *.
      destruct (execute_commands_records [] [] (m_draw r) r) as
        (r1 & r2 & _ & _ & _ & Hf1 & Hexec & _ & Hf2 & Hclear); try done.
      rewrite Hexec in Hc; injection Hc as _ <-.
      pose proof (execute_commands_keeps (m_draw r) r) as Hk. rewrite Hexec in Hk.
      unfold keeps, exec_view, control in Hk. simpl in Hk.
      assert (m_submit r2 = m_submit r) as Hs by congruence.
      assert (m_draw r2 = m_draw r) as Hd by congruence.
      assert (context (m_submit r) r2 = context (m_submit r) r) as Hctx.
      { rewrite H2, other_other in Hk. congruence. }
      assert (m_constants (context (m_draw r) r2) = m_constants (context (m_draw r) r)) as Hk2
        by congruence.
      unfold settled, submit_context. simpl. rewrite Hs, Hd, Hctx, Hclear, Hk2.
      repeat split; try done.
      assert (flags r2 = flags r) as Hf by (by rewrite Hf2, Hf1).
      unfold flags in Hf. injection Hf as _ ->. done.
    + (* AtUniforms *)
      intros (x & r' & Hc & ->)%advance_inv (H1 & H2 & H3 & H4 & H5 & H6). simpl in *.
      pose proof (update_uniforms_clears _ _ _ _ Hc) as Hclear.
      pose proof (update_uniforms_keeps (m_draw r) r) as Hk. rewrite Hc in Hk.
      unfold keeps, unif_view, control in Hk. simpl in Hk.
      assert (m_submit r' = m_submit r) as Hs by congruence.
      assert (m_draw r' = m_draw r) as Hd by congruence.
      assert (context (m_submit r) r' = context (m_submit r) r) as Hctx.
      { rewrite H2, other_other in Hk. congruence. }
      assert (m_commands (context (m_draw r) r') = m_commands (context (m_draw r) r)) as Hk2
        by congruence.
      assert (flags r' = flags r) as Hf by congruence.
      unfold settled, submit_context. simpl. rewrite Hs, Hd, Hctx, Hclear, Hk2.
      repeat split; try done.
      unfold flags in Hf. injection Hf as _ ->. done.
    + (* AtRender *)
      intros (x & r' & Hc & ->)%advance_inv. simpl in Hc.
      apply (settled_same (mkSystem r p AtRender));
        destruct (m_is_initialized r); injection Hc as _ <-; same_settled.
    + (* AtMainPost *)
      intros (x & r' & Hc & ->)%advance_inv. simpl in Hc.
      destruct (numbers_post_main r) as (r2 & Hp & _ & Hk).
      rewrite Hp in Hc; injection Hc as _ <-.
      apply rest_view_facts in Hk as (Hs & Hd & Hctx & Hf & _).
      apply (settled_same (mkSystem r p AtMainPost)); same_settled.
Qed.

Lemma advance_ok {A} (c : M A) (s : System) (p : ProducerPc) (q : ConsumerPc)
  (a : A) (r' : Renderer) :
  c (renderer s) = (Ok a, r') → advance c s p q = Some (mkSystem r' p q).
Proof. intros H. unfold advance. by rewrite H. Qed.

Lemma run_schedule_app (l1 l2 : list Action) (s : System) :
  run_schedule (l1 ++ l2) s =
    match run_schedule l1 s with Some s' => run_schedule l2 s' | None => None end.
Proof.
  revert s. induction l1 as [|a l1 IH]; intros s; simpl; [done|].
  destruct (act a s); [apply IH|done].
Qed.

Lemma run_schedule_frame_steps (l : list Action) (s s' : System) :
  Forall frame_action l → run_schedule l s = Some s' → rtc frame_step s s'.
Proof.
  revert s. induction l as [|a l IH]; intros s Hl; simpl.
  - intros [= <-]. constructor.
  - apply Forall_cons in Hl as [Ha Hl].
    destruct (act a s) as [s1|] eqn:E; [|done]. intros H.
    eapply rtc_l; [by exists a|by apply IH].
Qed.

Lemma one_frame_actions : Forall frame_action one_frame.
Proof. unfold one_frame, frame_action. repeat (apply Forall_cons; split; [tauto|]). constructor. Qed.

Lemma frame_steps_invariants (s s' : System) :
  rtc frame_step s s' → sync_invariant s → settled s → sync_invariant s' ∧ settled s'.
Proof.
  induction 1 as [|s1 s2 s3 (a & Ha & Hact) _ IH]; [done|].
  intros Hsync Hset. apply IH; [by eapply sync_invariant_step|by eapply settled_step].
Qed.

Lemma frames_returned_act (a : Action) (s s' : System) :
  act a s = Some s' →
  frames_returned (renderer s') = frames_returned (renderer s) + returns a.
Proof.
  destruct a as [call| | | | | | | |]; destruct s as [r p c]; destruct p; simpl; try done.
  all: try (destruct c; try done).
  all: try (destruct (m_should_run r)).
  all: try (intros [= <-]; simpl; lia).
  all: intros (x & r' & Hc & ->)%advance_inv; simpl in *.
  all: first
    [ apply numbers_run_call in Hc
    | apply numbers_submit_write in Hc
    | apply numbers_wait_main in Hc as (n & Hmw & Hc & _)
    | apply numbers_wait_render in Hc as (n & Hrw & Hc & _)
    | apply numbers_execute_commands in Hc
    | apply numbers_update_uniforms in Hc
    | apply numbers_render in Hc
    | injection Hc as _ <-; rewrite Nat.add_0_r; reflexivity
    | match type of Hc with
      | post RenderWait ?r = _ =>
          destruct (numbers_post_render r) as (r2 & Hp & Hn & _);
          rewrite Hp in Hc; injection Hc as _ <-
      | post MainWait ?r = _ =>
          destruct (numbers_post_main r) as (r2 & Hp & Hn & _);
          rewrite Hp in Hc; injection Hc as _ <-
      | swap_contexts ?r = _ =>
          destruct (numbers_swap r) as (r2 & Hp & Hn & _);
          rewrite Hp in Hc; injection Hc as _ <-
      end ].
  all: use_numbers; lia.
Qed.

Lemma frames_returned_schedule (l : list Action) (s s' : System) :
  run_schedule l s = Some s' →
  frames_returned (renderer s') = frames_returned (renderer s) + sum_list (returns <$> l).
Proof.
  revert s. induction l as [|a l IH]; intros s; simpl.
  - intros [= <-]. lia.
  - destruct (act a s) as [s1|] eqn:E; [|done]. intros H.
    rewrite (IH _ H), (frames_returned_act _ _ _ E). unfold fmap. lia.
Qed.

Lemma handoffs_settled (s : System) :
  sync_invariant s → waiting (producer s) = false →
  handoffs (renderer s) = frames_returned (renderer s) ∧
  m_render_wait (renderer s) = 0 ∧ m_main_wait (renderer s) = 0 ∧
  idle (consumer s) = true.
Proof.
  unfold sync_invariant. intros Hinv Hw. rewrite Hw in Hinv.
  destruct (idle (consumer s)) eqn:E; [|lia].
  destruct (decide (consumer s = AtSwap)) as [Hc|Hc]; [by rewrite Hc in E|lia].
Qed.

Ltac consume_with H :=
  rewrite act_Consume; unfold consume; simpl; eapply advance_ok; simpl; exact H.

Lemma one_frame_runs (s : System) :
  ready s →
  ∃ s', run_schedule one_frame s = Some s' ∧
        producer s' = InUserCode ∧ consumer s' = AtRenderWait.
Proof.
  destruct s as [r p c]. intros (Hreach & Hset & Hp & Hc). simpl in Hp, Hc. subst p c.
  pose proof (reachable_sync _ Hreach) as Hsync.
  destruct (handoffs_settled _ Hsync eq_refl) as (_ & Hrw & Hmw & _). simpl in Hrw, Hmw.
  (* frame() posts *)
  destruct (numbers_post_render r) as (r1 & Hpost & Hn1 & _).
  assert (act DoFrame (mkSystem r InUserCode AtRenderWait) =
          Some (mkSystem r1 (AtWait ToCaller) AtRenderWait)) as H1.
  { simpl. by eapply advance_ok. }
  pose proof (settled_step _ _ _ (or_introl eq_refl) H1 Hset) as Hset1.
  (* the wait of render_all returns *)
  destruct (wait_ready RenderWait r1 0) as (r2 & Hwait & _ & Hrw2 & Hk2).
  { unfold numbers in Hn1. injection Hn1 as Hr1 _ _ _ _ _ _. simpl. by rewrite Hr1, Hrw. }
  assert (act Consume (mkSystem r1 (AtWait ToCaller) AtRenderWait) =
          Some (mkSystem r2 (AtWait ToCaller) AtSwap)) as H2 by consume_with Hwait.
  pose proof (settled_step _ _ _ (or_intror (or_intror eq_refl)) H2 Hset1) as Hset2.
  (* swap_contexts *)
  destruct (numbers_swap r2) as (r3 & Hswap & Hn3 & _).
  assert (act Consume (mkSystem r2 (AtWait ToCaller) AtSwap) =
          Some (mkSystem r3 (AtWait ToCaller) AtExecute)) as H3 by consume_with Hswap.
  pose proof (settled_step _ _ _ (or_intror (or_intror eq_refl)) H3 Hset2) as Hset3.
  (* execute_commands *)
  pose proof Hset3 as (_ & _ & _ & _ & Hdc3 & _). simpl in Hdc3.
  destruct (execute_commands_records [] [] (m_draw r3) r3) as
    (r4' & r4 & _ & _ & _ & _ & Hexec & _); try done.
  assert (act Consume (mkSystem r3 (AtWait ToCaller) AtExecute) =
          Some (mkSystem r4 (AtWait ToCaller) AtUniforms)) as H4 by consume_with Hexec.
  pose proof (settled_step _ _ _ (or_intror (or_intror eq_refl)) H4 Hset3) as Hset4.
  (* update_uniforms *)
  pose proof Hset4 as (_ & _ & _ & _ & _ & Hdk4). simpl in Hdk4.
  destruct (update_uniforms_records [] (m_draw r4) r4) as (r5 & Hunif & _); try done.
  assert (act Consume (mkSystem r4 (AtWait ToCaller) AtUniforms) =
          Some (mkSystem r5 (AtWait ToCaller) AtRender)) as H5 by consume_with Hunif.
  pose proof (settled_step _ _ _ (or_intror (or_intror eq_refl)) H5 Hset4) as Hset5.
  (* render_impl, when initialized *)
  assert (∃ r6, (if m_is_initialized r5 then emit render_impl else ret tt) r5 = (Ok tt, r6))
    as (r6 & Hrender) by (destruct (m_is_initialized r5); eexists; reflexivity).
  assert (act Consume (mkSystem r5 (AtWait ToCaller) AtRender) =
          Some (mkSystem r6 (AtWait ToCaller) AtMainPost)) as H6 by consume_with Hrender.
  pose proof (settled_step _ _ _ (or_intror (or_intror eq_refl)) H6 Hset5) as Hset6.
  (* the post of render_all *)
  destruct (numbers_post_main r6) as (r7 & Hpost7 & Hn7 & _).
  assert (act Consume (mkSystem r6 (AtWait ToCaller) AtMainPost) =
          Some (mkSystem r7 (AtWait ToCaller) AtLoopHead)) as H7 by consume_with Hpost7.
  pose proof (settled_step _ _ _ (or_intror (or_intror eq_refl)) H7 Hset6) as Hset7.
  (* the loop of render_thread *)
  pose proof Hset7 as (Hrun7 & _). simpl in Hrun7.
  assert (act Consume (mkSystem r7 (AtWait ToCaller) AtLoopHead) =
          Some (mkSystem r7 (AtWait ToCaller) AtRenderWait)) as H8.
  { rewrite act_Consume. unfold consume. simpl. by rewrite Hrun7. }
  (* the wait of frame() returns *)
  destruct (wait_ready MainWait r7 (m_main_wait r6)) as (r8 & Hwait8 & _).
  { unfold numbers in Hn7. injection Hn7 as _ Hm7 _ _ _ _ _. exact Hm7. }
  assert (act DoWait (mkSystem r7 (AtWait ToCaller) AtRenderWait) =
          Some (mkSystem r8 InUserCode AtRenderWait)) as H9.
  { simpl. by eapply advance_ok. }
  exists (mkSystem r8 InUserCode AtRenderWait).
  split; [|done]. unfold one_frame. cbn [run_schedule].
  rewrite H1. cbn [run_schedule]. rewrite H2. cbn [run_schedule]. rewrite H3.
  cbn [run_schedule]. rewrite H4. cbn [run_schedule]. rewrite H5.
  cbn [run_schedule]. rewrite H6. cbn [run_schedule]. rewrite H7.
  cbn [run_schedule]. rewrite H8. cbn [run_schedule]. by rewrite H9.
Qed.

Lemma ready_after (l : list Action) (s s' : System) :
  Forall frame_action l → run_schedule l s = Some s' → ready s →
  producer s' = InUserCode → consumer s' = AtRenderWait →
  ready s' ∧
  frames_returned (renderer s') = frames_returned (renderer s) + sum_list (returns <$> l) ∧
  handoffs (renderer s') = handoffs (renderer s) + sum_list (returns <$> l).
Proof.
  intros Hl Hrun (Hreach & Hset & Hp & Hc) Hp' Hc'.
  pose proof (reachable_sync _ Hreach) as Hsync.
  pose proof (run_schedule_frame_steps _ _ _ Hl Hrun) as Hsteps.
  destruct (frame_steps_invariants _ _ Hsteps Hsync Hset) as [Hsync' Hset'].
  assert (reachable s') as Hreach'.
  { unfold reachable. etransitivity; [exact Hreach|by eapply run_schedule_rtc]. }
  split; [done|].
  pose proof (frames_returned_schedule _ _ _ Hrun) as Hfr. split; [exact Hfr|].
  destruct (handoffs_settled s Hsync) as (-> & _); [by rewrite Hp|].
  destruct (handoffs_settled s' Hsync') as (-> & _); [by rewrite Hp'|]. exact Hfr.
Qed.

Lemma frames_run (n : nat) (s : System) :
  ready s →
  ∃ s', run_schedule (frames n) s = Some s' ∧ ready s' ∧
        frames_returned (renderer s') = frames_returned (renderer s) + n ∧
        handoffs (renderer s') = handoffs (renderer s) + n.
Proof.
  revert s. induction n as [|n IH]; intros s Hready; cbn [frames].
  - exists s. by rewrite !Nat.add_0_r.
  - destruct (one_frame_runs s Hready) as (s1 & Hrun1 & Hp1 & Hc1).
    destruct (ready_after _ _ _ one_frame_actions Hrun1 Hready Hp1 Hc1)
      as (Hready1 & Hfr1 & Hh1).
    destruct (IH s1 Hready1) as (s' & Hrun & Hready' & Hfr & Hh).
    exists s'. rewrite run_schedule_app, Hrun1. split; [exact Hrun|].
    split; [exact Hready'|]. rewrite Hfr, Hh, Hfr1, Hh1. simpl. lia.
Qed.

Lemma settled_commands (s : System) (j : ContextRef) :
  settled s →
  Forall (λ c, c = CellCommand END) (cb_cells (m_commands (context j (renderer s)))) ∧
  (idle (consumer s) = true → m_commands (context j (renderer s)) = CommandBuffer_new).
Proof.
  intros (_ & Hd & Hsc & _ & Hdc & _). unfold submit_context in *.
  destruct (decide (j = m_submit (renderer s))) as [->|Hj].
  - rewrite Hsc. split; [constructor|done].
  - apply ne_other in Hj. rewrite <- Hd in Hj. subst j. rewrite Hdc.
    destruct (consumer s); simpl; split; try done; repeat constructor.
Qed.

(** C8: with the render thread waiting and nothing pending, [frame]
    can be called any number [n] of times with no submission in between:
    the [n] calls return, with exactly [n] more handoffs and both command
    streams empty.  In whatever order the two threads take their steps
    during such calls, no command stream ever holds anything but END, and
    whenever the producer is outside [frame] the handoffs made equal the
    calls returned and both command streams are empty. *)
Theorem idle_frames_hand_off (n : nat) (s : System) :
  ready s →
  (∃ s', run_schedule (frames n) s = Some s' ∧ ready s' ∧
         frames_returned (renderer s') = frames_returned (renderer s) + n ∧
         handoffs (renderer s') = handoffs (renderer s) + n ∧
         ∀ j, m_commands (context j (renderer s')) = CommandBuffer_new) ∧
  (∀ s', rtc frame_step s s' →
     (∀ j, Forall (λ c, c = CellCommand END)
             (cb_cells (m_commands (context j (renderer s'))))) ∧
     (waiting (producer s') = false →
        handoffs (renderer s') - handoffs (renderer s) =
          frames_returned (renderer s') - frames_returned (renderer s) ∧
        ∀ j, m_commands (context j (renderer s')) = CommandBuffer_new)).
Proof.
  intros Hready. split.
  - destruct (frames_run n s Hready) as (s' & Hrun & Hready' & Hfr & Hh).
    exists s'. do 4 (split; [done|]).
    intros j. destruct Hready' as (_ & Hset' & _ & Hc').
    apply (settled_commands s' j Hset'). by rewrite Hc'.
  - intros s' Hsteps. destruct Hready as (Hreach & Hset & Hp & Hc).
    pose proof (reachable_sync _ Hreach) as Hsync.
    destruct (frame_steps_invariants _ _ Hsteps Hsync Hset) as [Hsync' Hset'].
    split; [intros j; by apply settled_commands|].
    intros Hw.
    destruct (handoffs_settled s Hsync) as (-> & _); [by rewrite Hp|].
    destruct (handoffs_settled s' Hsync' Hw) as (-> & _ & _ & Hidle).
    split; [done|]. intros j. by apply settled_commands.
Qed.

(** ** The loops of the dispatcher end *)

Lemma total_bind {A B} (c : M A) (k : A → M B) :
  total c → (∀ a, total (k a)) → total (bind c k).
Proof.
  intros Hc Hk r. unfold bind. specialize (Hc r).
  destruct (c r) as [[a|f| |] r1]; simpl in *; try done. apply Hk.
Qed.

Lemma cmds_read_total (i : ContextRef) : total (cmds_read i).
Proof. intros r. unfold cmds_read. by destruct (cb_read _) as [[c b]|]. Qed.

Ltac total_tac :=
  repeat first
    [ apply total_bind; [|intros ?]
    | match goal with
      | |- total (match ?x with _ => _ end) => destruct x
      end
    | apply cmds_read_total
    | solve [ let r := fresh "r" in
              unfold total; intros r;
              unfold emit, set_is_initialized, set_should_run, ret, fail; exact I ] ].

Lemma execute_command_total (i : ContextRef) : total (execute_command i).
Proof.
  unfold execute_command, read_command, read_id, read_size, read_u32, read_u8,
    read_vertex_format, read_pixel_format, read_shader_type, read_uniform_type,
    read_pointer, read_bytes.
  total_tac.
Qed.

#[local] Instance reads_on_preorder (i : ContextRef) : PreOrder (reads_on i).
Proof.
  split; [intros r; unfold reads_on; lia|]. intros r1 r2 r3. unfold reads_on. lia.
Qed.

Lemma unread_pending (i : ContextRef) (r : Renderer) : unread i r = length (pending i r).
Proof. unfold unread, pending. by rewrite length_drop. Qed.

Lemma cmds_read_consumes (i : ContextRef) (r r' : Renderer) (c : Cell) :
  cmds_read i r = (Ok c, r') → unread i r' < unread i r.
Proof.
  rewrite cmds_read_pending, !unread_pending.
  destruct (pending i r) as [|x rest] eqn:E; [done|]. intros [= _ <-].
  rewrite pending_advance, E. simpl. lia.
Qed.

Lemma cmds_read_reads_on (i : ContextRef) : preserves (reads_on i) (cmds_read i).
Proof.
  intros r. unfold reads_on. destruct (cmds_read i r) as [[c|f| |] r'] eqn:E; simpl.
  - apply cmds_read_consumes in E. lia.
  - rewrite cmds_read_pending in E.
    destruct (pending i r); [injection E as _ <-; lia|discriminate].
  - rewrite cmds_read_pending in E. by destruct (pending i r).
  - rewrite cmds_read_pending in E. by destruct (pending i r).
Qed.

Ltac reads_tac :=
  repeat first
    [ apply preserves_bind; [apply _ | | intros ?]
    | match goal with
      | |- preserves _ (match ?x with _ => _ end) => destruct x
      end
    | apply cmds_read_reads_on
    | solve [ let r := fresh "r" in
              unfold preserves; intros r;
              unfold reads_on, unread, emit, set_is_initialized, set_should_run, ret, fail;
              simpl; repeat match goal with i : ContextRef |- _ => destruct i end;
              simpl; lia ] ].

Lemma execute_command_consumes (i : ContextRef) (r r' : Renderer) (b : bool) :
  execute_command i r = (Ok b, r') → unread i r' < unread i r.
Proof.
  unfold execute_command, read_command.
  intros (command & r1 & Hread & Hrest)%bind_inv.
  apply bind_inv in Hread as (c & r0 & Hread & Hc).
  apply cmds_read_consumes in Hread.
  assert (unread i r1 ≤ unread i r0) as H1.
  { destruct c; injection Hc as _ <-; lia. }
  assert (unread i r' ≤ unread i r1) as H2; [|lia].
  match type of Hrest with ?k _ = _ =>
    assert (preserves (reads_on i) k) as Hk
  end.
  { unfold read_id, read_size, read_u32, read_u8, read_vertex_format, read_pixel_format,
      read_shader_type, read_uniform_type, read_pointer, read_bytes.
    reads_tac. }
  specialize (Hk r1). by rewrite Hrest in Hk.
Qed.

Lemma execute_loop_total (i : ContextRef) (fuel : nat) (r : Renderer) :
  unread i r < fuel →
  match (execute_loop fuel i r).1 with Blocked | OutOfFuel => False | _ => True end.
Proof.
  revert r. induction fuel as [|fuel IH]; intros r Hfuel; [lia|]. simpl. unfold bind.
  pose proof (execute_command_total i r) as Ht.
  destruct (execute_command i r) as [[[|]|f| |] r1] eqn:E; simpl in *; try done.
  apply IH. apply execute_command_consumes in E. lia.
Qed.

(** [execute_commands] returns or stops at a fault, whatever the stream holds. *)
Lemma execute_commands_total (i : ContextRef) : total (execute_commands i).
Proof.
  intros r. unfold execute_commands, bind. cbv beta.
  pose proof (execute_loop_total i (S (unread i r)) r) as Ht.
  destruct (execute_loop (S (unread i r)) i r) as [[[]|f| |] r1]; simpl in *;
    try done; apply Ht; lia.
Qed.

(** The same for [update_uniforms]. *)
Lemma unread_constants_pending (i : ContextRef) (r : Renderer) :
  unread_constants i r = length (pending_constants i r).
Proof. unfold unread_constants, pending_constants. by rewrite length_drop. Qed.

Lemma const_read_inv (i : ContextRef) (r r' : Renderer) (c : ConstantCell) :
  const_read i r = (Ok c, r') →
  unread_constants i r' < unread_constants i r ∧ m_trace r' = m_trace r.
Proof.
  rewrite const_read_pending, !unread_constants_pending.
  destruct (pending_constants i r) as [|x rest] eqn:E; [done|]. intros [= _ <-].
  rewrite pending_constants_advance, E, trace_advance_constants. simpl. split; [lia|done].
Qed.

Lemma update_uniforms_loop_total (i : ContextRef) (fuel : nat) (r : Renderer) :
  unread_constants i r < fuel →
  match (update_uniforms_loop fuel i r).1 with Blocked | OutOfFuel => False | _ => True end.
Proof.
  revert r. induction fuel as [|fuel IH]; intros r Hfuel; [lia|]. simpl.
  unfold const_read_type, const_read_id, const_read_size, const_read_data, bind.
  destruct (const_read i r) as [[c|f| |] r1] eqn:E1; simpl; try done;
    [|rewrite const_read_pending in E1; by destruct (pending_constants i r)..].
  apply const_read_inv in E1 as [H1 _].
  destruct c as [[k|]| | |]; simpl; try done.
  destruct (const_read i r1) as [[c|f| |] r2] eqn:E2; simpl; try done;
    [|rewrite const_read_pending in E2; by destruct (pending_constants i r1)..].
  apply const_read_inv in E2 as [H2 _].
  destruct c; simpl; try done.
  destruct (const_read i r2) as [[c|f| |] r3] eqn:E3; simpl; try done;
    [|rewrite const_read_pending in E3; by destruct (pending_constants i r2)..].
  apply const_read_inv in E3 as [H3 _].
  destruct c; simpl; try done.
  destruct (const_read i r3) as [[c|f| |] r4] eqn:E4; simpl; try done;
    [|rewrite const_read_pending in E4; by destruct (pending_constants i r3)..].
  apply const_read_inv in E4 as [H4 _].
  destruct c; simpl; try done. case_bool_decide; simpl; [|done].
  apply IH. rewrite unread_constants_pending, pending_constants_set_trace,
    <- unread_constants_pending. lia.
Qed.

Lemma update_uniforms_total (i : ContextRef) : total (update_uniforms i).
Proof.
  intros r. unfold update_uniforms, bind. cbv beta.
  pose proof (update_uniforms_loop_total i (S (unread_constants i r)) r) as Ht.
  destruct (update_uniforms_loop (S (unread_constants i r)) i r) as [[[]|f| |] r1];
    simpl in *; try done; apply Ht; lia.
Qed.

(** ** The turn of the consumer, statement by statement *)

(** The six statements of [render_all], taken one after the other by
    the render thread, are [render_all]. *)
Lemma render_all_consume (r r' : Renderer) (p : ProducerPc) :
  render_all r = (Ok tt, r') →
  run_schedule [Consume; Consume; Consume; Consume; Consume; Consume]
    (mkSystem r p AtRenderWait) = Some (mkSystem r' p AtLoopHead).
Proof.
  unfold render_all.
  intros ([] & r1 & H1 & H)%bind_inv.
  apply bind_inv in H as ([] & r2 & H2 & H).
  apply bind_inv in H as ([] & r3 & H3 & H).
  apply bind_inv in H as ([] & r4 & H4 & H).
  apply bind_inv in H as ([] & r5 & H5 & H6).
  cbv beta in H3, H4, H5.
  assert (∀ a l s s1, act a s = Some s1 → run_schedule (a :: l) s = run_schedule l s1)
    as Hcons.
  { intros a l s s1 Ha. simpl. by rewrite Ha. }
  rewrite (Hcons _ _ _ (mkSystem r1 p AtSwap)) by consume_with H1.
  rewrite (Hcons _ _ _ (mkSystem r2 p AtExecute)) by consume_with H2.
  rewrite (Hcons _ _ _ (mkSystem r3 p AtUniforms)) by consume_with H3.
  rewrite (Hcons _ _ _ (mkSystem r4 p AtRender)) by consume_with H4.
  rewrite (Hcons _ _ _ (mkSystem r5 p AtMainPost))
    by (rewrite act_Consume; unfold consume; simpl; eapply advance_ok; simpl;
        destruct (m_is_initialized r4); exact H5).
  rewrite (Hcons _ _ _ (mkSystem r' p AtLoopHead)) by consume_with H6.
  done.
Qed.

(** ** What a producer call does and does not do *)

(** X1: whatever its outcome, a call of the producer API invokes no
    backend function and touches neither signal: the trace, the role
    pointers, the two counts and the two flags are as before, and so is
    the context that [m_submit] does not designate. *)
Theorem producer_call_defers_to_consumer (c : Call) (r : Renderer) :
  let r' := (run_call c r).2 in
  m_trace r' = m_trace r ∧
  m_submit r' = m_submit r ∧ m_draw r' = m_draw r ∧
  m_render_wait r' = m_render_wait r ∧ m_main_wait r' = m_main_wait r ∧
  m_is_initialized r' = m_is_initialized r ∧ m_should_run r' = m_should_run r ∧
  context (other (m_submit r)) r' = context (other (m_submit r)) r.
Proof.
  intros r'. pose proof (run_call_keeps c r) as Hk. fold r' in Hk.
  unfold keeps, call_view, control, flags in Hk.
  injection Hk as Hs Hd Hrw Hmw Hi Hr Ht Hctx.
  rewrite Hs in Hctx. done.
Qed.

Ltac split_checks H :=
  repeat match type of H with
    | context [IdTable.create ?t] =>
        destruct (IdTable.create t) as [[? ?]|] eqn:?; simpl in H
    | context [table_has ?k ?i ?r] => destruct (table_has k i r) eqn:?; simpl in H
    | context [bool_decide ?P] => destruct (bool_decide P) eqn:?; simpl in H
    end.

Lemma run_call_fault (c : Call) (r r' : Renderer) (f : Fault) :
  run_call c r = (Failed f, r') →
  (r' = r ∨
   ∃ name type num id tb,
     c = call_create_uniform name type num ∧
     CROWN_MAX_UNIFORM_NAME_LENGTH ≤ strlen name ∧
     IdTable.create (m_uniforms r) = Some (id, tb) ∧
     r' = set_table Uniforms tb r) ∧
  (f = CapacityFault ∧ creates c ≠ None ∨ ∃ msg, f = PreconditionFault msg).
Proof.
  intros Hrun.
  destruct c; simpl in Hrun; unfold_api;
    try (match goal with v : option (list ascii) |- _ => destruct v end);
    unfold bind, CE_ASSERT, table_create, submit_write, on_submit, ret, fail in Hrun;
    simpl in Hrun; split_checks Hrun;
    simplify_eq; try (split; [by left|]; first [by left | right; by eexists]).
  split; [|right; by eexists].
  right. do 5 eexists. split; [done|]. split; [|done].
  match goal with H : bool_decide (_ < _) = false |- _ =>
    apply bool_decide_eq_false in H; lia end.
Qed.

(** X2: a call that faults has encoded nothing, and with one exception
    it leaves the renderer exactly as it was.  The exception is
    [create_uniform] with a name that is too long, which leaves the slot
    it allocated taken.  The fault is the capacity error of a creation
    call or a failed assertion. *)
Theorem failed_call_leaves_renderer (c : Call) (r r' : Renderer) (f : Fault) :
  run_call c r = (Failed f, r') →
  (r' = r ∨
   ∃ name type num id tb,
     c = call_create_uniform name type num ∧
     CROWN_MAX_UNIFORM_NAME_LENGTH ≤ strlen name ∧
     IdTable.create (m_uniforms r) = Some (id, tb) ∧
     r' = set_table Uniforms tb r) ∧
  context Context0 r' = context Context0 r ∧
  context Context1 r' = context Context1 r ∧
  (f = CapacityFault ∧ creates c ≠ None ∨ ∃ msg, f = PreconditionFault msg).
Proof.
  intros Hrun. destruct (run_call_fault _ _ _ _ Hrun) as [Hr Hf].
  split; [exact Hr|]. split; [|split; [|exact Hf]];
    destruct Hr as [->|(? & ? & ? & ? & ? & _ & _ & _ & ->)]; done.
Qed.

(** X3: a call returns exactly when it is admissible: every id it
    checks is live in its table, the table a creation call allocates
    from has a free slot, the name given to [create_uniform] is not a
    stock name and is shorter than the maximum, and the value given to
    [set_uniform] is not null.  Nothing else is checked: not the shader
    ids of [create_gpu_program], not a layer, not a count or an offset. *)
Theorem call_returns_iff_admissible (c : Call) (r : Renderer) :
  (∃ a r', run_call c r = (Ok a, r')) ↔ admissible c r = true.
Proof.
  destruct c; unfold admissible, has_free_slot; simpl; unfold_api;
    try (match goal with v : option (list ascii) |- _ => destruct v end);
    unfold bind, CE_ASSERT, table_create, submit_write, on_submit, ret, fail; simpl;
    repeat match goal with
      | |- context [IdTable.create ?t] =>
          destruct (IdTable.create t) as [[? ?]|] eqn:?; simpl
      | |- context [table_has ?k ?i ?r] => destruct (table_has k i r) eqn:?; simpl
      | |- context [bool_decide ?P] => destruct (bool_decide P) eqn:?; simpl
      end;
    split; first [ by intros (? & ? & ?) | intros _; by eauto | done ].
Qed.

Lemma run_call_creates (c : Call) (r r' : Renderer) (a : option Id) (k0 : TableName) :
  creates c = Some k0 → run_call c r = (Ok a, r') →
  ∃ x tb, IdTable.create (table k0 r) = Some (x, tb) ∧ a = Some x ∧
          ∀ k', table k' r' = table k' (set_table k0 tb r).
Proof.
  intros Hc Hrun.
  destruct c; simpl in Hc; try discriminate; injection Hc as <-;
    simpl in Hrun; unfold_api;
    repeat match goal with
      | H : bind _ _ _ = (Ok _, _) |- _ => apply bind_inv in H as (? & ? & ? & ?)
      | H : CE_ASSERT _ _ _ = (Ok _, _) |- _ =>
          unfold CE_ASSERT in H; case_match; [|done]; injection H as <- <-
      | H : table_create _ _ = (Ok _, _) |- _ =>
          apply table_create_inv in H as (? & ? & ->)
      | H : submit_write ?x ?r0 = (Ok _, _) |- _ =>
          let Hk := fresh "Hk" in
          pose proof (tables_same_submit_write x r0) as Hk; rewrite H in Hk;
          clear H; simpl in Hk
      | H : ret _ _ = (Ok _, _) |- _ => injection H as <- <-
      end;
    do 2 eexists; (split; [eassumption|]); (split; [reflexivity|]);
    intros k'; repeat match goal with H : tables_same _ _ |- _ =>
      rewrite (H k'); clear H end; reflexivity.
Qed.

Lemma run_call_live (c : Call) (r r' : Renderer) (a : option Id) (k : TableName) :
  run_call c r = (Ok a, r') →
  IdTable.capacity (table k r') = IdTable.capacity (table k r) ∧
  match a with
  | Some id =>
      if decide (creates c = Some k)
      then table_has k id r = false ∧ table_has k id r' = true ∧
           length (IdTable.live_ids (table k r')) = S (length (IdTable.live_ids (table k r)))
      else table k r' = table k r
  | None => table k r' = table k r
  end.
Proof.
  intros Hrun. destruct (creates c) as [k0|] eqn:Hc.
  - destruct (run_call_creates _ _ _ _ _ Hc Hrun) as (x & tb & Hx & -> & Hr').
    rewrite Hr', table_set_table. unfold table_has. rewrite Hr', table_set_table.
    destruct (decide (k0 = k)) as [->|Hk].
    + rewrite decide_True by done. split; [by eapply create_capacity|].
      destruct (create_has _ _ _ Hx) as [H1 H2].
      split; [done|]. split; [done|]. exact (create_live_count _ _ _ Hx).
    + split; [done|]. rewrite decide_False by congruence. done.
  - pose proof (tables_same_run_call c Hc r k) as Hs. rewrite Hrun in Hs. simpl in Hs.
    rewrite Hs. split; [done|]. destruct a; [|done]. by rewrite decide_False.
Qed.

Lemma run_calls_created (cs : list Call) (answers : list (option Id)) (r r' : Renderer)
  (k : TableName) :
  run_calls cs r = (Ok answers, r') →
  IdTable.capacity (table k r') = IdTable.capacity (table k r) ∧
  NoDup (created k cs answers) ∧
  (∀ id, id ∈ created k cs answers →
     table_has k id r = false ∧ table_has k id r' = true) ∧
  length (IdTable.live_ids (table k r')) =
    length (IdTable.live_ids (table k r)) + length (created k cs answers).
Proof.
  revert answers r. induction cs as [|c cs IH]; intros answers r Hrun; simpl in Hrun.
  - injection Hrun as <- <-. simpl. split; [done|]. split; [constructor|].
    split; [by intros id H%elem_of_nil|lia].
  - apply bind_inv in Hrun as (a & r1 & Hc & Hrun).
    apply bind_inv in Hrun as (rest & r2 & Hcs & Hrun).
    injection Hrun as <- <-.
    destruct (IH _ _ Hcs) as (Hcap & Hnd & Hfresh & Hlen).
    destruct (run_call_live _ _ _ _ k Hc) as [Hcap1 Hlive].
    pose proof (tables_grow_run_calls cs r1 k) as Hgrow. rewrite Hcs in Hgrow. simpl in Hgrow.
    split; [congruence|]. simpl.
    destruct a as [x|]; [case_decide as Hk|].
    + destruct Hlive as (Hx0 & Hx1 & Hx2).
      split; [|split].
      * constructor; [|done]. intros Hin. apply Hfresh in Hin as [Hin _]. congruence.
      * intros id [->|Hin]%elem_of_cons; [split; [done|by apply Hgrow]|].
        destruct (Hfresh _ Hin) as [H1 H2]. split; [|done].
        destruct (table_has k id r) eqn:E; [|done].
        pose proof (tables_grow_run_call c r k id E) as Hg. rewrite Hc in Hg. simpl in Hg.
        congruence.
      * rewrite Hlen, Hx2. simpl. lia.
    + unfold table_has in *. rewrite <- Hlive. done.
    + unfold table_has in *. rewrite <- Hlive. done.
Qed.

(** X4: the ids that the creation calls of a call sequence return from
    one table are pairwise distinct, were not live before and are all
    live at the end, whatever destroy calls the sequence contains; the
    number of live ids grows by exactly their number, so no more of them
    are returned than the table had free slots.  The static and the
    dynamic creation calls of a buffer kind draw on the same table. *)
Theorem created_ids_fresh_and_bounded (cs : list Call) (answers : list (option Id))
  (r r' : Renderer) (k : TableName) :
  run_calls cs r = (Ok answers, r') →
  NoDup (created k cs answers) ∧
  (∀ id, id ∈ created k cs answers →
     table_has k id r = false ∧ table_has k id r' = true) ∧
  length (IdTable.live_ids (table k r')) =
    length (IdTable.live_ids (table k r)) + length (created k cs answers) ∧
  length (created k cs answers) ≤
    IdTable.capacity (table k r) - length (IdTable.live_ids (table k r)).
Proof.
  intros Hrun. destruct (run_calls_created _ _ _ _ k Hrun) as (Hcap & Hnd & Hfresh & Hlen).
  do 3 (split; [done|]).
  pose proof (live_ids_bound (table k r')) as Hb. lia.
Qed.

(** ** Streams the dispatcher does not run to their end *)

Lemma cmds_read_written (i j : ContextRef) :
  preserves (keeps (written_cells j)) (cmds_read i).
Proof.
  intros r. unfold keeps, written_cells. rewrite cmds_read_pending.
  destruct (pending i r); simpl; [done|]. unfold advance_cursor.
  rewrite context_set_context. by case_decide; subst.
Qed.

Lemma emit_written (j : ContextRef) (e : Event) : preserves (keeps (written_cells j)) (emit e).
Proof. intros r. unfold keeps, written_cells. simpl. by rewrite context_set_trace. Qed.

Lemma execute_command_written (i j : ContextRef) :
  preserves (keeps (written_cells j)) (execute_command i).
Proof.
  unfold execute_command, read_command, read_id, read_size, read_u32, read_u8,
    read_vertex_format, read_pixel_format, read_shader_type, read_uniform_type,
    read_pointer, read_bytes.
  repeat first
    [ apply preserves_bind; [apply _ | | intros ?]
    | match goal with
      | |- preserves _ (match ?x with _ => _ end) => destruct x
      | |- preserves _ (if ?x then _ else _) => destruct x
      end
    | apply cmds_read_written
    | apply emit_written
    | apply preserves_ret; apply _
    | apply preserves_fail; apply _
    | by (intros r; unfold keeps, written_cells, set_is_initialized, set_should_run;
          simpl; rewrite context_set_flags) ].
Qed.

(** The loop of [execute_commands] over the records of a sequence of
    submissions, whatever follows them: it comes to what follows with
    every record dispatched in order and enough turns left. *)
Lemma execute_loop_prefix (ss : list Submission) (answers : list (option Id))
  (i : ContextRef) (r : Renderer) (rest : list Cell) :
  Forall name_fits ss → length answers = length ss →
  pending i r = submission_cells_all ss answers ++ rest →
  ∃ r1 used, (∀ fuel, execute_loop (used + fuel) i r = execute_loop fuel i r1) ∧
        used ≤ length (submission_cells_all ss answers) ∧
        pending i r1 = rest ∧
        written_cells i r1 = written_cells i r ∧
        m_trace r1 = m_trace r ++ dispatched_all ss answers ∧
        flags r1 = foldl (λ f s, flags_after s f) (flags r) ss.
Proof.
  revert answers r. induction ss as [|s ss IH]; intros answers r Hfit Hlen Hp.
  - destruct answers; [|done]. exists r, 0. simpl. by rewrite app_nil_r.
  - destruct answers as [|a answers]; [done|]. simpl in *.
    apply Forall_cons in Hfit as [Hs Hfit]. injection Hlen as Hlen.
    destruct (decide (submission_cells s a = [])) as [Hnil|Hne].
    + rewrite Hnil in *. simpl in *.
      destruct (IH answers r Hfit Hlen Hp) as (r1 & used & H1 & H2 & H3 & H4 & H5 & H6).
      exists r1, used. do 4 (split; [done|]).
      assert (dispatched s a = [] ∧ flags_after s (flags r) = flags r) as [-> ->].
      { destruct s as [c| |]; [destruct c; destruct a|..]; done. }
      done.
    + rewrite <- app_assoc in Hp.
      destruct (execute_command_record s a i r _ Hs Hne Hp) as (r0 & H0 & Hp0 & Ht0 & Hf0).
      pose proof (execute_command_written i i r) as Hw0. rewrite H0 in Hw0.
      unfold keeps in Hw0. simpl in Hw0.
      destruct (IH answers r0 Hfit Hlen Hp0) as (r1 & used & H1 & H2 & H3 & H4 & H5 & H6).
      exists r1, (S used).
      split; [intros fuel; simpl; rewrite (bind_ok _ _ _ _ _ H0); simpl; apply H1|].
      rewrite length_app.
      assert (0 < length (submission_cells s a))
        by (destruct (submission_cells s a); simpl; [done|lia]).
      split; [lia|]. split; [done|]. split; [congruence|].
      rewrite H5, Ht0, <- app_assoc. split; [done|].
      rewrite H6. unfold flags at 1. by rewrite Hf0.
Qed.

(** X5: an opcode that is none of the known ones stops [execute_commands]
    at the assertion of the [default] branch.  The records before it have
    been dispatched to the backend, in order; nothing after it is, and
    the stream is not cleared: its cells are all still there, with the
    cursor just behind the opcode. *)
Theorem execute_commands_unknown_command (ss : list Submission) (answers : list (option Id))
  (i : ContextRef) (r : Renderer) (raw : N) (rest : list Cell) :
  Forall name_fits ss → length answers = length ss →
  m_commands (context i r) =
    {| cb_cells := submission_cells_all ss answers ++ CellCommand (OTHER_COMMAND raw) :: rest;
       cb_cursor := 0 |} →
  ∃ r', execute_commands i r = (Failed UnknownCommand, r') ∧
        m_trace r' = m_trace r ++ dispatched_all ss answers ∧
        cb_cells (m_commands (context i r')) = cb_cells (m_commands (context i r)) ∧
        pending i r' = rest.
Proof.
  intros Hfit Hlen Hcmd.
  assert (pending i r =
          submission_cells_all ss answers ++ CellCommand (OTHER_COMMAND raw) :: rest) as Hp.
  { unfold pending. by rewrite Hcmd. }
  destruct (execute_loop_prefix ss answers i r _ Hfit Hlen Hp)
    as (r1 & used & Hloop & Hused & Hp1 & Hw1 & Ht1 & _).
  assert (∃ fuel, S (unread i r) = used + S fuel) as [fuel Hfuel].
  { exists (unread i r - used). rewrite unread_pending, Hp, length_app. lia. }
  assert (execute_command i r1 = (Failed UnknownCommand, advance_cursor i r1)) as Hbad.
  { unfold execute_command, read_command, bind. by read_cell Hp1. }
  exists (advance_cursor i r1).
  unfold execute_commands, bind. cbv beta. rewrite Hfuel, Hloop. simpl.
  unfold bind. rewrite Hbad.
  split; [done|]. autorewrite with renderer. rewrite Hp1. split; [done|]. split; [|done].
  fold (written_cells i r). rewrite <- Hw1. unfold written_cells, advance_cursor.
  by rewrite context_set_context, decide_True.
Qed.

(** X6: [execute_commands] stops at the first END it reads and then
    clears the stream: the records before that END are dispatched, in
    order, and whatever the stream holds behind it is dropped without
    being executed. *)
Theorem execute_commands_stops_at_first_END (ss : list Submission)
  (answers : list (option Id)) (i : ContextRef) (r : Renderer) (rest : list Cell) :
  Forall name_fits ss → length answers = length ss →
  m_commands (context i r) =
    {| cb_cells := submission_cells_all ss answers ++ CellCommand END :: rest;
       cb_cursor := 0 |} →
  ∃ r', execute_commands i r = (Ok tt, r') ∧
        m_trace r' = m_trace r ++ dispatched_all ss answers ∧
        m_commands (context i r') = CommandBuffer_new.
Proof.
  intros Hfit Hlen Hcmd.
  assert (pending i r = submission_cells_all ss answers ++ CellCommand END :: rest) as Hp.
  { unfold pending. by rewrite Hcmd. }
  destruct (execute_loop_records ss answers i r rest (S (unread i r)) Hfit Hlen Hp)
    as (r1 & Hloop & _ & Ht1 & _).
  { rewrite unread_pending, Hp, length_app. simpl. lia. }
  eexists. unfold execute_commands, bind. cbv beta. rewrite Hloop.
  split; [reflexivity|]. split; [by destruct i|].
  by rewrite context_set_context, decide_True.
Qed.

(** X7: [set_uniform] does not look at the type it is given.  A value
    submitted with the type [UniformType::END] is written to the constant
    stream like any other, and [update_uniforms] takes its tag for the
    end of the stream: the uniform updates submitted before it are
    applied, that one and all the later ones of the frame are dropped,
    and the stream is cleared. *)
Theorem set_uniform_END_type_cuts_constants (ss1 ss2 : list Submission) (id : Id)
  (value : list ascii) (num : N) (answers : list (option Id)) (r r1 : Renderer) :
  m_constants (submit_context r) = ConstantBuffer_new →
  Forall tagged ss1 →
  run_submissions (ss1 ++ Api (call_set_uniform id UniformType_END (Some value) num) :: ss2) r
    = (Ok answers, r1) →
  ∃ r2 r3,
    swap_contexts r1 = (Ok tt, r2) ∧
    update_uniforms (m_draw r2) r2 = (Ok tt, r3) ∧
    m_trace r3 = m_trace r2 ++ (ss1 ≫= uniform_update) ∧
    m_constants (context (m_draw r2) r3) = ConstantBuffer_new.
Proof.
  intros Hconst0 Htag Hrun.
  apply run_submissions_writes in Hrun as (_ & _ & _ & Hkc & Hkcur & _).
  rewrite Hconst0 in Hkc, Hkcur. simpl in Hkc, Hkcur.
  destruct (numbers_swap r1) as (r2 & Hswap & _ & _ & Hd2 & Hpush & _).
  exists r2.
  assert (pending_constants (m_draw r2) r2 =
    (ss1 ≫= constant_cells) ++ ConstType UniformType_END ::
      ([ConstId id; ConstSize (N.of_nat (length value)); ConstData value] ++
       (ss2 ≫= constant_cells) ++ [ConstType UniformType_END])) as Hp.
  { unfold pending_constants. rewrite Hd2, Hpush. simpl. unfold kb_append.
    fold (submit_context r1). rewrite Hkc, Hkcur. simpl.
    rewrite bind_app, bind_cons. simpl. by rewrite <- !app_assoc. }
  destruct (update_uniforms_loop_records ss1 (m_draw r2) r2 _
              (S (unread_constants (m_draw r2) r2)) Htag Hp) as (r3 & Hloop & _ & Ht).
  { rewrite unread_constants_pending, Hp, length_app. simpl. lia. }
  eexists. split; [exact Hswap|]. unfold update_uniforms, bind. cbv beta. rewrite Hloop.
  split; [reflexivity|]. split; [by destruct (m_draw r2)|].
  by rewrite context_set_context, decide_True.
Qed.

(** ** Streams of well-formed records *)

Lemma submission_cells_all_app (ss1 ss2 : list Submission) (a1 a2 : list (option Id)) :
  length a1 = length ss1 →
  submission_cells_all (ss1 ++ ss2) (a1 ++ a2) =
    submission_cells_all ss1 a1 ++ submission_cells_all ss2 a2.
Proof.
  revert a1. induction ss1 as [|s ss1 IH]; intros [|a a1] Hl; simpl in *; try done.
  rewrite IH by lia. by rewrite app_assoc.
Qed.

Lemma dispatched_all_app (ss1 ss2 : list Submission) (a1 a2 : list (option Id)) :
  length a1 = length ss1 →
  dispatched_all (ss1 ++ ss2) (a1 ++ a2) = dispatched_all ss1 a1 ++ dispatched_all ss2 a2.
Proof.
  revert a1. induction ss1 as [|s ss1 IH]; intros [|a a1] Hl; simpl in *; try done.
  rewrite IH by lia. by rewrite app_assoc.
Qed.

Lemma flags_after_run (ss : list Submission) (f : bool * bool) :
  ShutdownRecord ∉ ss → (foldl (λ f s, flags_after s f) f ss).2 = f.2.
Proof.
  revert f. induction ss as [|s ss IH]; intros f H; simpl; [done|].
  apply not_elem_of_cons in H as [H1 H2]. rewrite IH by done. by destruct s.
Qed.

Lemma records_nil : records false [].
Proof. exists [], []. repeat split; try done. apply not_elem_of_nil. Qed.

Lemma records_write (s : Submission) (a : option Id) (cells : list Cell) :
  records false cells → name_fits s → s ≠ ShutdownRecord →
  records false (cells ++ submission_cells s a).
Proof.
  intros (ss & answers & Hfit & Hlen & Hno & ->) Hs Hne.
  exists (ss ++ [s]), (answers ++ [a]). split; [apply Forall_app; by repeat constructor|].
  split; [rewrite !length_app; simpl; lia|]. split.
  - rewrite elem_of_app, list_elem_of_singleton. by intros [?|?].
  - rewrite submission_cells_all_app by done. simpl. by rewrite !app_nil_r.
Qed.

Lemma records_close (cells : list Cell) :
  records false cells → records true (cells ++ [CellCommand SHUTDOWN_RENDERER]).
Proof.
  intros (ss & answers & Hfit & Hlen & Hno & ->). exists ss, answers.
  simpl. by rewrite app_nil_r.
Qed.

(** A stream of well-formed records closed by END is executed without a
    fault; the record of [shutdown] clears both flags, and without it
    [m_should_run] stays as it is. *)
Lemma records_execute (shut : bool) (body : list Cell) (i : ContextRef) (r : Renderer) :
  records shut body →
  m_commands (context i r) = {| cb_cells := body ++ [CellCommand END]; cb_cursor := 0 |} →
  ∃ r' evs, execute_commands i r = (Ok tt, r') ∧
    m_trace r' = m_trace r ++ evs ++ (if shut then [shutdown_impl] else []) ∧
    m_should_run r' = (if shut then false else m_should_run r) ∧
    (shut = true → m_is_initialized r' = false).
Proof.
  intros (ss & answers & Hfit & Hlen & Hno & ->) Hcmd.
  set (ss' := ss ++ (if shut then [ShutdownRecord] else [])).
  set (answers' := answers ++ (if shut then [None] else [])).
  assert (submission_cells_all ss answers ++ shutdown_cells shut =
          submission_cells_all ss' answers') as Hcells.
  { unfold ss', answers'. rewrite submission_cells_all_app by done. by destruct shut. }
  rewrite Hcells in Hcmd.
  destruct (execute_commands_records ss' answers' i r) as
    (r1 & r2 & _ & _ & Ht1 & Hf1 & Hexec & Ht2 & Hf2 & _); [| |done|].
  { unfold ss'. apply Forall_app. split; [done|]. destruct shut; by repeat constructor. }
  { unfold ss', answers'. rewrite !length_app. destruct shut; simpl; lia. }
  exists r2, (dispatched_all ss answers). split; [exact Hexec|].
  split.
  { rewrite Ht2, Ht1. unfold ss', answers'. rewrite dispatched_all_app by done.
    destruct shut; simpl; by rewrite ?app_nil_r. }
  rewrite Hf1 in Hf2. unfold ss' in Hf2. rewrite foldl_app in Hf2.
  pose proof (flags_after_run ss (flags r) Hno) as Hrun.
  unfold flags at 1 in Hf2. destruct shut; simpl in Hf2.
  - injection Hf2 as -> ->. done.
  - rewrite (surjective_pairing (foldl _ _ _)) in Hf2. injection Hf2 as _ ->.
    split; [exact Hrun|done].
Qed.

Lemma constant_records_shape (ss : list Submission) :
  ∃ ss1 rest,
    (ss ≫= constant_cells) ++ [ConstType UniformType_END] =
      (ss1 ≫= constant_cells) ++ ConstType UniformType_END :: rest ∧
    Forall tagged ss1.
Proof.
  induction ss as [|s ss (ss1 & rest & Heq & Htag)].
  - exists [], []. done.
  - rewrite bind_cons, <- app_assoc, Heq.
    destruct (decide (constant_cells s = [])) as [Hnil|Hne].
    + exists ss1, rest. by rewrite Hnil.
    + destruct s as [[]| |]; try done. destruct value as [v|]; [|done].
      destruct type as [k|].
      * eexists (_ :: ss1), rest. rewrite bind_cons, <- app_assoc.
        split; [done|]. by constructor.
      * exists [], ([ConstId id; ConstSize (N.of_nat (length v)); ConstData v] ++
                  (ss1 ≫= constant_cells) ++ ConstType UniformType_END :: rest).
        done.
Qed.

(** A stream of well-formed constant records closed by the END tag is
    applied without a fault, and only uniform updates reach the backend. *)
Lemma constant_records_apply (body : list ConstantCell) (i : ContextRef) (r : Renderer) :
  constant_records body →
  m_constants (context i r) =
    {| kb_cells := body ++ [ConstType UniformType_END]; kb_cursor := 0 |} →
  ∃ r' ss1, update_uniforms i r = (Ok tt, r') ∧
            m_trace r' = m_trace r ++ (ss1 ≫= uniform_update).
Proof.
  intros [ss ->] Hk. destruct (constant_records_shape ss) as (ss1 & rest & Heq & Htag).
  assert (pending_constants i r =
          (ss1 ≫= constant_cells) ++ ConstType UniformType_END :: rest) as Hp.
  { unfold pending_constants. by rewrite Hk. }
  destruct (update_uniforms_loop_records ss1 i r rest (S (unread_constants i r)) Htag Hp)
    as (r1 & Hloop & _ & Ht).
  { rewrite unread_constants_pending, Hp, length_app. simpl. lia. }
  eexists _, ss1. unfold update_uniforms, bind. cbv beta. rewrite Hloop.
  split; [reflexivity|]. by destruct i.
Qed.

(** ** The constant streams across the handoff *)

Lemma constants_invariant_same (s : System) (r' : Renderer) (p : ProducerPc) (q : ConsumerPc) :
  m_submit r' = m_submit (renderer s) → m_draw r' = m_draw (renderer s) →
  (∀ j, m_constants (context j r') = m_constants (context j (renderer s))) →
  (q = consumer s ∨
   (consumer s ≠ AtExecute ∧ consumer s ≠ AtUniforms ∧ q ≠ AtExecute ∧ q ≠ AtUniforms)) →
  constants_invariant s → constants_invariant (mkSystem r' p q).
Proof.
  intros Hs Hd Hc Hq (H1 & H2 & H3). unfold constants_invariant, submit_context in *.
  simpl. rewrite Hs, Hd, !Hc. repeat split; try done.
  destruct Hq as [->|(? & ? & ? & ?)]; [done|]. by destruct (consumer s), q.
Qed.

Lemma constant_records_write (s : Submission) (cells : list ConstantCell) :
  constant_records cells → constant_records (cells ++ constant_cells s).
Proof. intros [ss ->]. exists (ss ++ [s]). rewrite bind_app, bind_cons. simpl. by rewrite app_nil_r. Qed.

Lemma constants_invariant_write (s : System) (sub : Submission) (a : option Id)
  (r' : Renderer) (p : ProducerPc) :
  run_submission sub (renderer s) = (Ok a, r') →
  stream_invariant s →
  constants_invariant s → constants_invariant (mkSystem r' p (consumer s)).
Proof.
  intros Hrun (Hroles & _) (H1 & H2 & H3).
  pose proof (run_submission_keeps sub (renderer s)) as Hk. rewrite Hrun in Hk.
  unfold keeps, call_view, control in Hk. simpl in Hk.
  apply run_submission_writes in Hrun as (Hs & _ & _ & Hcells & Hcur).
  assert (m_draw r' = m_draw (renderer s)) as Hd by congruence.
  assert (context (m_draw r') r' = context (m_draw (renderer s)) (renderer s)) as Hctx.
  { rewrite Hd, Hroles. rewrite <- Hs at 1. congruence. }
  unfold constants_invariant. simpl. rewrite Hcur, Hcells, Hctx.
  split; [done|]. split; [by apply constant_records_write|done].
Qed.

Lemma constants_invariant_consume (s s' : System) :
  consume s = Some s' → stream_invariant s →
  constants_invariant s → constants_invariant s'.
Proof.
  destruct s as [r p c]. unfold consume. simpl. destruct c; try done.
  - (* AtLoopHead *)
    intros [= <-] _. apply (constants_invariant_same (mkSystem r p AtLoopHead)); try done.
    right. by destruct (m_should_run r).
  - (* AtRenderWait *)
    intros (x & r' & Hc & ->)%advance_inv _. simpl in Hc.
    apply numbers_wait_render in Hc as (n & _ & _ & Hk).
    apply rest_view_facts in Hk as (Hs & Hd & Hctx & _).
    apply (constants_invariant_same (mkSystem r p AtRenderWait)); try done.
    + intros j. by rewrite Hctx.
    + by right.
  - (* AtSwap *)
    intros (x & r' & Hc & ->)%advance_inv (Hroles & _) (H1 & H2 & H3). simpl in *.
    destruct (numbers_swap r) as (r2 & Hp & _ & Hs & Hd & Hpush & Hrest & _).
    rewrite Hp in Hc; injection Hc as _ <-.
    unfold constants_invariant, submit_context in *. simpl.
    rewrite Hs, Hd, Hpush. rewrite Hrest by (rewrite Hroles; apply other_ne).
    rewrite H3. split; [done|]. split; [by exists []|].
    exists (kb_cells (m_constants (context (m_submit r) r))). split; [|done].
    simpl. unfold kb_append. by rewrite H1.
  - (* AtExecute *)
    intros (x & r' & Hc & ->)%advance_inv (Hroles & _) (H1 & H2 & H3). simpl in *.
    pose proof (execute_commands_keeps (m_draw r) r) as Hk. rewrite Hc in Hk.
    unfold keeps, exec_view, control in Hk. simpl in Hk.
    assert (m_submit r' = m_submit r) as Hs by congruence.
    assert (m_draw r' = m_draw r) as Hd by congruence.
    assert (context (m_submit r) r' = context (m_submit r) r) as Hctx.
    { rewrite Hroles, other_other in Hk. congruence. }
    assert (m_constants (context (m_draw r) r') = m_constants (context (m_draw r) r)) as Hk2
      by congruence.
    unfold constants_invariant, submit_context. simpl. by rewrite Hs, Hd, Hctx, Hk2.
  - (* AtUniforms *)
    intros (x & r' & Hc & ->)%advance_inv (Hroles & _) (H1 & H2 & H3). simpl in *.
    pose proof (update_uniforms_clears _ _ _ _ Hc) as Hclear.
    pose proof (update_uniforms_keeps (m_draw r) r) as Hk. rewrite Hc in Hk.
    unfold keeps, unif_view, control in Hk. simpl in Hk.
    assert (m_submit r' = m_submit r) as Hs by congruence.
    assert (m_draw r' = m_draw r) as Hd by congruence.
    assert (context (m_submit r) r' = context (m_submit r) r) as Hctx.
    { rewrite Hroles, other_other in Hk. congruence. }
    unfold constants_invariant, submit_context. simpl. by rewrite Hs, Hd, Hctx, Hclear.
  - (* AtRender *)
    intros (x & r' & Hc & ->)%advance_inv _. simpl in Hc.
    apply (constants_invariant_same (mkSystem r p AtRender)); try (by right);
      destruct (m_is_initialized r); injection Hc as _ <-; try done;
      intros j; by rewrite context_set_trace.
  - (* AtMainPost *)
    intros (x & r' & Hc & ->)%advance_inv _. simpl in Hc.
    destruct (numbers_post_main r) as (r2 & Hp & _ & Hk).
    rewrite Hp in Hc; injection Hc as _ <-.
    apply rest_view_facts in Hk as (Hs & Hd & Hctx & _).
    apply (constants_invariant_same (mkSystem r p AtMainPost)); try done.
    + intros j. by rewrite Hctx.
    + by right.
Qed.

Lemma constants_invariant_step (a : Action) (s s' : System) :
  act a s = Some s' → stream_invariant s →
  constants_invariant s → constants_invariant s'.
Proof.
  destruct a as [call| | | | | | | |];
    [..|rewrite act_Consume; apply constants_invariant_consume];
    destruct s as [r p c]; destruct p; simpl; try done.
  - (* DoCall *)
    intros (x & r' & Hc & ->)%advance_inv. simpl in Hc.
    apply (constants_invariant_write (mkSystem r InUserCode c) (Api call) x). exact Hc.
  - (* DoInit *)
    destruct c; try done; intros (x & r' & Hc & ->)%advance_inv _; simpl in Hc;
      injection Hc as _ <-.
    + apply (constants_invariant_same (mkSystem r InUserCode NotStarted)); same_streams.
    + apply (constants_invariant_same (mkSystem r InUserCode Finished)); same_streams.
  - (* DoInitWrite *)
    intros (x & r' & Hc & ->)%advance_inv. simpl in Hc.
    apply returning_submit_write in Hc.
    apply (constants_invariant_write (mkSystem r InInit c) InitRecord None). exact Hc.
  - (* DoShutdown *)
    destruct (m_should_run r); [|by intros [= <-]].
    intros (x & r' & Hc & ->)%advance_inv. simpl in Hc.
    apply returning_submit_write in Hc.
    apply (constants_invariant_write (mkSystem r InUserCode c) ShutdownRecord None). exact Hc.
  - (* DoFrame *)
    intros (x & r' & Hc & ->)%advance_inv _. simpl in Hc.
    destruct (numbers_post_render r) as (r2 & Hp & _ & Hk).
    rewrite Hp in Hc; injection Hc as _ <-.
    apply rest_view_facts in Hk as (Hs & Hd & Hctx & _).
    apply (constants_invariant_same (mkSystem r InUserCode c)); same_streams.
  - (* DoPost *)
    intros (x & r' & Hc & ->)%advance_inv _. simpl in Hc.
    destruct (numbers_post_render r) as (r2 & Hp & _ & Hk).
    rewrite Hp in Hc; injection Hc as _ <-.
    apply rest_view_facts in Hk as (Hs & Hd & Hctx & _).
    apply (constants_invariant_same (mkSystem r (AtPost k) c)); same_streams.
  - (* DoWait *)
    intros (x & r' & Hc & ->)%advance_inv _. simpl in Hc.
    apply numbers_wait_main in Hc as (n & _ & _ & Hk).
    apply rest_view_facts in Hk as (Hs & Hd & Hctx & _).
    apply (constants_invariant_same (mkSystem r (AtWait k) c)); same_streams.
  - (* DoStop *)
    destruct c; try done. intros [= <-] _.
    apply (constants_invariant_same (mkSystem r AtStop Finished)); same_streams.
Qed.

Lemma constants_invariant_initial : constants_invariant initial.
Proof. unfold constants_invariant. simpl. split; [done|]. split; [by exists []|done]. Qed.

(** ** From [init] to [shutdown] *)

Lemma sync_counts (s : System) :
  sync_invariant s →
  m_render_wait (renderer s) + m_main_wait (renderer s) +
    (if idle (consumer s) then 0 else 1) = (if waiting (producer s) then 1 else 0).
Proof. by intros (_ & _ & _ & _ & _ & H). Qed.

Lemma lifecycle_invariant_intro (r' : Renderer) (p : ProducerPc) (c : ConsumerPc)
  (rw : nat) (run init : bool) (sub drw : list Cell) :
  m_render_wait r' = rw → m_should_run r' = run → m_is_initialized r' = init →
  cb_cells (m_commands (submit_context r')) = sub →
  cb_cells (m_commands (context (m_draw r') r')) = drw →
  lifecycle p c rw run init sub drw → lifecycle_invariant (mkSystem r' p c).
Proof. by intros <- <- <- <- <-. Qed.

Lemma rest_view_cells (r r' : Renderer) :
  keeps rest_view r r' →
  m_should_run r' = m_should_run r ∧ m_is_initialized r' = m_is_initialized r ∧
  cb_cells (m_commands (submit_context r')) = cb_cells (m_commands (submit_context r)) ∧
  cb_cells (m_commands (context (m_draw r') r')) =
    cb_cells (m_commands (context (m_draw r) r)).
Proof.
  intros (Hs & Hd & Hctx & Hf & _)%rest_view_facts. unfold flags in Hf.
  injection Hf as Hi Hr. unfold submit_context. by rewrite Hs, Hd, !Hctx.
Qed.

Lemma write_cells (sub : Submission) (a : option Id) (r r' : Renderer) :
  run_submission sub r = (Ok a, r') → m_draw r = other (m_submit r) →
  m_render_wait r' = m_render_wait r ∧
  m_should_run r' = m_should_run r ∧ m_is_initialized r' = m_is_initialized r ∧
  cb_cells (m_commands (submit_context r')) =
    cb_cells (m_commands (submit_context r)) ++ submission_cells sub a ∧
  cb_cells (m_commands (context (m_draw r') r')) =
    cb_cells (m_commands (context (m_draw r) r)) ∧
  name_fits sub.
Proof.
  intros Hrun Hroles.
  pose proof (run_submission_fits _ _ _ _ Hrun) as Hfit.
  pose proof (run_submission_keeps sub r) as Hk. rewrite Hrun in Hk.
  unfold keeps, call_view, control, flags in Hk. simpl in Hk.
  injection Hk as Hs Hd Hrw Hmw Hi Hr Ht Hctx.
  apply run_submission_writes in Hrun as (_ & Hcells & _).
  repeat split; try done. rewrite Hd, Hroles. by rewrite Hs in Hctx; rewrite Hctx.
Qed.

Ltac lifecycle_tac :=
  unfold lifecycle in *; simpl in *;
  repeat match goal with H : _ ∧ _ |- _ => destruct H end;
  repeat split; simpl; try done; try lia; try congruence.

Lemma lifecycle_invariant_consume (s s' : System) :
  consume s = Some s' → sync_invariant s → stream_invariant s →
  lifecycle_invariant s → lifecycle_invariant s'.
Proof.
  intros Hact Hsync Hstream Hl. apply sync_counts in Hsync.
  destruct s as [r p c]. unfold consume in Hact. unfold lifecycle_invariant in Hl.
  simpl in *. destruct c; try done.
  - (* AtLoopHead *)
    injection Hact as <-.
    eapply lifecycle_invariant_intro; try reflexivity.
    destruct (m_should_run r) eqn:Hrun, p as [| |[|]|[|]|];
      destruct (m_render_wait r); lifecycle_tac.
  - (* AtRenderWait *)
    apply advance_inv in Hact as (x & r' & Hc & ->). simpl in Hc.
    apply numbers_wait_render in Hc as (n & Hrw & Hn & Hk).
    apply rest_view_cells in Hk as (Hr & Hi & Hsub & Hdrw). use_numbers.
    eapply lifecycle_invariant_intro; try eassumption.
    rewrite Hrw in *. destruct p as [| |[|]|[|]|], n; lifecycle_tac.
  - (* AtSwap *)
    apply advance_inv in Hact as (x & r' & Hc & ->). simpl in Hc.
    destruct Hstream as (Hroles & Hcur & _ & Hdraw). simpl in *.
    destruct (numbers_swap r) as (r2 & Hp & Hn & Hs & Hd & Hpush & Hrest & Hf & _).
    rewrite Hp in Hc; injection Hc as _ <-. use_numbers.
    unfold flags in Hf. injection Hf as Hi Hr.
    eapply (lifecycle_invariant_intro r2 p AtExecute _ _ _ []
              (cb_cells (m_commands (submit_context r)) ++ [CellCommand END]));
      try eassumption.
    + unfold submit_context. rewrite Hs, Hrest by (rewrite Hroles; apply other_ne).
      by rewrite Hdraw.
    + by rewrite Hd, Hpush.
    + destruct p as [| |[|]|[|]|], (m_render_wait r); lifecycle_tac;
        first [apply records_nil | intros _; eexists; split; [reflexivity|done]].
  - (* AtExecute *)
    apply advance_inv in Hact as (x & r' & Hc & ->). simpl in Hc.
    destruct Hstream as (Hroles & Hcur & _ & (body0 & Hdraw & _)). simpl in *.
    destruct Hl as (H1 & H2 & H3 & H4 & H5).
    destruct (H5 eq_refl) as (body & Hbody & Hrec).
    rewrite Hdraw in Hbody. simpl in Hbody. rewrite Hbody in Hdraw.
    destruct (records_execute _ _ _ _ Hrec Hdraw) as (r2 & evs & Hexec & _ & Hr & Hi).
    rewrite Hexec in Hc. injection Hc as _ <-.
    pose proof (execute_commands_keeps (m_draw r) r) as Hk. rewrite Hexec in Hk.
    unfold keeps, exec_view, control in Hk. simpl in Hk.
    rewrite Hroles, other_other in Hk.
    assert (m_submit r2 = m_submit r) as Hs by congruence.
    assert (m_draw r2 = m_draw r) as Hd by congruence.
    assert (m_render_wait r2 = m_render_wait r) as Hrw by congruence.
    assert (context (m_submit r) r2 = context (m_submit r) r) as Hctx by congruence.
    eapply (lifecycle_invariant_intro r2 p AtUniforms _ _ _
              (cb_cells (m_commands (submit_context r))) _); try eassumption; try reflexivity.
    + unfold submit_context. by rewrite Hs, Hctx.
    + destruct p as [| |[|]|[|]|], (m_render_wait r); simpl in *;
        repeat split; simpl; try done; try lia; try congruence; auto.
  - (* AtUniforms *)
    apply advance_inv in Hact as (x & r' & Hc & ->). simpl in Hc.
    destruct Hstream as (Hroles & _). simpl in *.
    pose proof (update_uniforms_keeps (m_draw r) r) as Hk. rewrite Hc in Hk.
    unfold keeps, unif_view, control, flags in Hk. simpl in Hk.
    rewrite Hroles, other_other in Hk.
    assert (m_submit r' = m_submit r) as Hs by congruence.
    assert (m_draw r' = m_draw r) as Hd by congruence.
    assert (m_render_wait r' = m_render_wait r) as Hrw by congruence.
    assert (m_should_run r' = m_should_run r) as Hr by congruence.
    assert (m_is_initialized r' = m_is_initialized r) as Hi by congruence.
    assert (context (m_submit r) r' = context (m_submit r) r) as Hctx by congruence.
    assert (m_commands (context (m_draw r) r') = m_commands (context (m_draw r) r)) as Hcmd
      by congruence.
    eapply (lifecycle_invariant_intro r' p AtRender _ _ _
              (cb_cells (m_commands (submit_context r))) _); try eassumption; try reflexivity.
    + unfold submit_context. by rewrite Hs, Hctx.
    + destruct p as [| |[|]|[|]|], (m_render_wait r); lifecycle_tac.
  - (* AtRender *)
    apply advance_inv in Hact as (x & r' & Hc & ->). simpl in Hc.
    assert (keeps rest_view r r' ∧ m_render_wait r' = m_render_wait r) as [Hk Hrw]
      by (destruct (m_is_initialized r); by injection Hc as _ <-).
    apply rest_view_cells in Hk as (Hr & Hi & Hsub & Hdrw).
    eapply lifecycle_invariant_intro; try eassumption.
    destruct p as [| |[|]|[|]|], (m_render_wait r); lifecycle_tac.
  - (* AtMainPost *)
    apply advance_inv in Hact as (x & r' & Hc & ->). simpl in Hc.
    destruct (numbers_post_main r) as (r2 & Hp & Hn & Hk).
    rewrite Hp in Hc; injection Hc as _ <-.
    apply rest_view_cells in Hk as (Hr & Hi & Hsub & Hdrw). use_numbers.
    eapply lifecycle_invariant_intro; try eassumption.
    destruct p as [| |[|]|[|]|], (m_render_wait r); lifecycle_tac.
Qed.

Lemma lifecycle_invariant_step (a : Action) (s s' : System) :
  act a s = Some s' → sync_invariant s → stream_invariant s →
  lifecycle_invariant s → lifecycle_invariant s'.
Proof.
  destruct a as [call| | | | | | | |];
    [..|rewrite act_Consume; apply lifecycle_invariant_consume];
    intros Hact Hsync Hstream Hl; apply sync_counts in Hsync;
    destruct Hstream as (Hroles & _);
    destruct s as [r p c]; unfold lifecycle_invariant in Hl; destruct p; simpl in *;
    try done.
  - (* DoCall *)
    apply advance_inv in Hact as (x & r' & Hc & ->). simpl in Hc.
    apply (write_cells (Api call)) in Hc as (Hrw & Hr & Hi & Hsub & Hdrw & Hfit); [|done].
    eapply lifecycle_invariant_intro; try eassumption;
    destruct c; lifecycle_tac; by apply (records_write (Api call)).
  - (* DoInit *)
    destruct c; try done; apply advance_inv in Hact as (x & r' & Hc & ->); simpl in Hc;
      injection Hc as _ <-;
      (eapply (lifecycle_invariant_intro _ InInit AtLoopHead (m_render_wait r) true
                 (m_is_initialized r) (cb_cells (m_commands (submit_context r))) _);
       [by destruct (m_submit r)..|]); lifecycle_tac.
  - (* DoInitWrite *)
    apply advance_inv in Hact as (x & r' & Hc & ->). simpl in Hc.
    apply returning_submit_write in Hc.
    apply (write_cells InitRecord) in Hc as (Hrw & Hr & Hi & Hsub & Hdrw & Hfit); [|done].
    eapply lifecycle_invariant_intro; try eassumption;
    destruct c; lifecycle_tac; by apply (records_write InitRecord None).
  - (* DoShutdown *)
    destruct (m_should_run r) eqn:Hrun;
      [|injection Hact as <-; unfold lifecycle_invariant; simpl; by rewrite Hrun].
    apply advance_inv in Hact as (x & r' & Hc & ->). simpl in Hc.
    apply returning_submit_write in Hc.
    apply (write_cells ShutdownRecord) in Hc as (Hrw & Hr & Hi & Hsub & Hdrw & Hfit); [|done].
    eapply lifecycle_invariant_intro; try eassumption;
    destruct c; lifecycle_tac; by apply records_close.
  - (* DoFrame *)
    apply advance_inv in Hact as (x & r' & Hc & ->). simpl in Hc.
    destruct (numbers_post_render r) as (r2 & Hp & Hn & Hk).
    rewrite Hp in Hc; injection Hc as _ <-.
    apply rest_view_cells in Hk as (Hr & Hi & Hsub & Hdrw). use_numbers.
    eapply lifecycle_invariant_intro; try eassumption;
    destruct c; lifecycle_tac.
  - (* DoPost *)
    apply advance_inv in Hact as (x & r' & Hc & ->). simpl in Hc.
    destruct (numbers_post_render r) as (r2 & Hp & Hn & Hk).
    rewrite Hp in Hc; injection Hc as _ <-.
    apply rest_view_cells in Hk as (Hr & Hi & Hsub & Hdrw). use_numbers.
    eapply lifecycle_invariant_intro; try eassumption;
    destruct k, c; lifecycle_tac.
  - (* DoWait *)
    apply advance_inv in Hact as (x & r' & Hc & ->). simpl in Hc.
    apply numbers_wait_main in Hc as (n & Hmw & Hn & Hk).
    apply rest_view_cells in Hk as (Hr & Hi & Hsub & Hdrw). use_numbers.
    eapply lifecycle_invariant_intro; try eassumption;
    destruct k, c, (m_render_wait r); lifecycle_tac.
  - (* DoStop *)
    destruct c; try done. injection Hact as <-.
    eapply lifecycle_invariant_intro; try reflexivity. lifecycle_tac.
Qed.

Lemma lifecycle_invariant_initial : lifecycle_invariant initial.
Proof.
  unfold lifecycle_invariant, lifecycle. simpl. repeat split; try done. apply records_nil.
Qed.

(** The four invariants of the states the two threads can reach. *)
Lemma reachable_invariants (s : System) :
  reachable s →
  sync_invariant s ∧ stream_invariant s ∧ constants_invariant s ∧ lifecycle_invariant s.
Proof.
  revert s.
  apply (reachable_invariant (λ s, sync_invariant s ∧ stream_invariant s ∧
                                   constants_invariant s ∧ lifecycle_invariant s)).
  - split; [apply sync_invariant_initial|]. split; [apply stream_invariant_initial|].
    split; [apply constants_invariant_initial|apply lifecycle_invariant_initial].
  - intros a s1 s2 Hact (H1 & H2 & H3 & H4).
    split; [by eapply sync_invariant_step|]. split; [by eapply stream_invariant_step|].
    split; [by eapply constants_invariant_step|by eapply lifecycle_invariant_step].
Qed.

(** ** The render thread goes on *)

Lemma reachable_step (a : Action) (s s' : System) :
  reachable s → act a s = Some s' → reachable s'.
Proof. intros Hs Ha. eapply rtc_r; [exact Hs|by exists a]. Qed.

(** The next statement of a running render thread returns, unless it
    is the wait on a count of zero. *)
Lemma consume_progress (s : System) :
  reachable s → running (consumer s) = true →
  (consumer s = AtRenderWait → 0 < m_render_wait (renderer s)) →
  ∃ r', consume s =
          Some (mkSystem r' (producer s)
                  (after_consume (consumer s) (m_should_run (renderer s)))) ∧
        (consumer s = AtLoopHead → r' = renderer s) ∧
        (consumer s = AtMainPost →
           m_main_wait r' = S (m_main_wait (renderer s))).
Proof.
  intros (Hsync & Hstream & Hconst & Hl)%reachable_invariants Hrun Hposted.
  destruct s as [r p c]. unfold consume. simpl in *. destruct c; try done.
  - (* AtLoopHead *) by eexists.
  - (* AtRenderWait *)
    destruct (m_render_wait r) as [|n] eqn:Hrw; [by specialize (Hposted eq_refl); lia|].
    destruct (wait_ready RenderWait r n Hrw) as (r' & Hwait & _).
    exists r'. by erewrite advance_ok.
  - (* AtSwap *)
    destruct (numbers_swap r) as (r' & Hswap & _).
    exists r'. by erewrite advance_ok.
  - (* AtExecute *)
    destruct Hstream as (_ & _ & _ & (body0 & Hdraw & _)). simpl in *.
    unfold lifecycle_invariant in Hl. simpl in Hl.
    destruct Hl as (_ & _ & _ & _ & H5). destruct (H5 eq_refl) as (body & Hbody & Hrec).
    rewrite Hdraw in Hbody. simpl in Hbody. rewrite Hbody in Hdraw.
    destruct (records_execute _ _ _ _ Hrec Hdraw) as (r' & evs & Hexec & _).
    exists r'. by erewrite advance_ok.
  - (* AtUniforms *)
    destruct Hconst as (_ & _ & (body & Hk & Hrec)). simpl in *.
    destruct (constant_records_apply _ _ _ Hrec Hk) as (r' & ss1 & Hunif & _).
    exists r'. by erewrite advance_ok.
  - (* AtRender *)
    assert (∃ r', (if m_is_initialized r then emit render_impl else ret tt) r = (Ok tt, r'))
      as (r' & Hrender) by (destruct (m_is_initialized r); eexists; reflexivity).
    exists r'. by erewrite advance_ok.
  - (* AtMainPost *)
    destruct (numbers_post_main r) as (r' & Hpost & Hn & _). use_numbers.
    exists r'. erewrite advance_ok by done. split; [done|]. split; [done|]. by intros _.
Qed.

(** X8: the render thread never stops at a fault.  In every state the
    two threads can reach, the command stream it is about to execute is
    decoded to its END without a fault, the constant stream it is about
    to apply likewise, and its next statement returns; the one exception
    is its wait for the producer while [m_render_wait] is zero. *)
Theorem render_thread_never_faults (s : System) :
  reachable s →
  (consumer s = AtExecute →
     ∃ r', execute_commands (m_draw (renderer s)) (renderer s) = (Ok tt, r')) ∧
  (consumer s = AtUniforms →
     ∃ r', update_uniforms (m_draw (renderer s)) (renderer s) = (Ok tt, r')) ∧
  (running (consumer s) = true → act Consume s = None →
     consumer s = AtRenderWait ∧ m_render_wait (renderer s) = 0).
Proof.
  intros Hreach.
  pose proof (reachable_invariants _ Hreach) as (Hsync & Hstream & Hconst & Hl).
  split; [|split].
  - intros Hc. destruct s as [r p c]. simpl in *. subst c.
    destruct Hstream as (_ & _ & _ & (body0 & Hdraw & _)). simpl in *.
    unfold lifecycle_invariant in Hl. simpl in Hl.
    destruct Hl as (_ & _ & _ & _ & H5). destruct (H5 eq_refl) as (body & Hbody & Hrec).
    rewrite Hdraw in Hbody. simpl in Hbody. rewrite Hbody in Hdraw.
    destruct (records_execute _ _ _ _ Hrec Hdraw) as (r' & evs & Hexec & _). eauto.
  - intros Hc. destruct s as [r p c]. simpl in *. subst c.
    destruct Hconst as (_ & _ & (body & Hk & Hrec)). simpl in *.
    destruct (constant_records_apply _ _ _ Hrec Hk) as (r' & ss1 & Hunif & _). eauto.
  - intros Hrun Hnone. rewrite act_Consume in Hnone.
    destruct (decide (consumer s = AtRenderWait ∧ m_render_wait (renderer s) = 0))
      as [|Hn]; [done|].
    destruct (consume_progress s Hreach Hrun) as (r' & Hc & _); [|congruence].
    intros Hc. destruct (m_render_wait (renderer s)); [by destruct Hn|lia].
Qed.

Lemma run_schedule_step (a : Action) (l : list Action) (s s1 : System) :
  act a s = Some s1 → run_schedule (a :: l) s = run_schedule l s1.
Proof. intros Ha. simpl. by rewrite Ha. Qed.

Lemma frame_wait_returns (s : System) (k : AfterFrame) :
  reachable s → producer s = AtWait k → 0 < m_main_wait (renderer s) →
  ∃ s', act DoWait s = Some s' ∧ producer s' = after_frame k ∧
        consumer s' = consumer s ∧ reachable s'.
Proof.
  intros Hreach Hp Hmw. destruct s as [r p c]. simpl in *. subst p.
  destruct (m_main_wait r) as [|mw] eqn:E; [lia|].
  destruct (wait_ready MainWait r mw E) as (r' & Hwait & _).
  exists (mkSystem r' (after_frame k) c).
  assert (act DoWait (mkSystem r (AtWait k) c) = Some (mkSystem r' (after_frame k) c)) as Hact.
  { simpl. by erewrite advance_ok. }
  split; [done|]. split; [done|]. split; [done|]. by eapply reachable_step.
Qed.

Lemma frame_returns_within (n : nat) (s : System) (k : AfterFrame) :
  reachable s → producer s = AtWait k →
  running (consumer s) = true ∨ 0 < m_main_wait (renderer s) →
  distance (consumer s) ≤ n →
  ∃ m s', m ≤ n ∧ run_schedule (replicate m Consume ++ [DoWait]) s = Some s' ∧
          producer s' = after_frame k ∧ reachable s'.
Proof.
  revert s. induction n as [|n IH]; intros s Hreach Hp Hrun Hn.
  all: pose proof (reachable_invariants _ Hreach) as (Hsync & Hstream & Hconst & Hl).
  all: pose proof (sync_counts _ Hsync) as Hcount.
  all: destruct (decide (0 < m_main_wait (renderer s))) as [Hmw|Hmw];
    [destruct (frame_wait_returns s k Hreach Hp Hmw) as (s' & Hact & Hp' & _ & Hreach');
     exists 0, s'; split; [lia|]; cbn [replicate app];
     by rewrite (run_schedule_step _ _ _ _ Hact)|].
  - (* no turn left *)
    destruct Hrun as [Hrun|?]; [|lia]. destruct (consumer s); simpl in *; done || lia.
  - destruct Hrun as [Hrun|?]; [|lia].
    destruct (consume_progress s Hreach Hrun) as (r1 & Hc & Hhead & Hpost).
    { intros Hc. rewrite Hp, Hc in Hcount. simpl in Hcount. lia. }
    set (s1 := mkSystem r1 (producer s)
                 (after_consume (consumer s) (m_should_run (renderer s)))) in *.
    assert (act Consume s = Some s1) as Hact by (by rewrite act_Consume).
    pose proof (reachable_step _ _ _ Hreach Hact) as Hreach1.
    assert ((running (consumer s1) = true ∧ distance (consumer s1) ≤ n) ∨
            0 < m_main_wait (renderer s1)) as Hd1.
    { unfold s1. simpl. destruct (consumer s) eqn:Ec; simpl in *; try done;
        try (left; split; [done|lia]).
      - (* AtLoopHead *)
        unfold lifecycle_invariant in Hl. destruct Hl as (H1 & _). rewrite Ec, Hp in H1.
        rewrite Hp in Hcount. simpl in Hcount.
        assert (m_render_wait (renderer s) = 1) as Hrw by lia.
        rewrite Hrw in H1. rewrite H1. left. destruct k; simpl; split; [done|lia|done|lia].
      - (* AtMainPost *) right. rewrite Hpost by done. lia. }
    destruct Hd1 as [[Hrun1 Hd1]|Hmw1].
    + destruct (IH s1 Hreach1 Hp (or_introl Hrun1) Hd1) as (m & s' & Hm & Hsched & Hp' & Hreach').
      exists (S m), s'. split; [lia|]. cbn [replicate app].
      by rewrite (run_schedule_step _ _ _ _ Hact).
    + destruct (frame_wait_returns s1 k Hreach1 Hp Hmw1) as (s' & Hact1 & Hp' & _ & Hreach').
      exists 1, s'. split; [lia|]. cbn [replicate app].
      by rewrite (run_schedule_step _ _ _ _ Hact), (run_schedule_step _ _ _ _ Hact1).
Qed.

(** X9: a call of [frame] returns whenever the render thread is
    running: from every reachable state in which the producer waits
    inside [frame], at most seven statements of the render thread lead to
    a state in which the wait of [frame] returns, and none of them faults
    or blocks.  The same holds if the render thread has already posted. *)
Theorem frame_returns (s : System) (k : AfterFrame) :
  reachable s → producer s = AtWait k →
  running (consumer s) = true ∨ 0 < m_main_wait (renderer s) →
  ∃ n s', n ≤ 7 ∧ run_schedule (replicate n Consume ++ [DoWait]) s = Some s' ∧
          producer s' = after_frame k.
Proof.
  intros Hreach Hp Hrun.
  destruct (frame_returns_within 7 s k Hreach Hp Hrun) as (n & s' & Hn & Hsched & Hp' & _).
  { destruct (consumer s); simpl; lia. }
  eauto.
Qed.

(** ** Where the two threads can come to a halt *)

Lemma wait_main_blocked (s : System) (k : AfterFrame) :
  producer s = AtWait k → m_main_wait (renderer s) = 0 → act DoWait s = None.
Proof.
  destruct s as [r p c]. simpl. intros -> Hmw. simpl. unfold advance. simpl.
  by rewrite (wait_blocked MainWait r Hmw).
Qed.

(** X10: the only reachable states in which neither thread can take a
    step are those in which [frame] was called while no render thread was
    running: the producer waits inside that [frame] and nothing will
    post.  Calling [frame] before [init] or after [shutdown] leads
    there at once. *)
Theorem stuck_iff_frame_without_render_thread (s : System) :
  reachable s →
  ((∀ a, act a s = None) ↔
     producer s = AtWait ToCaller ∧ running (consumer s) = false) ∧
  (producer s = InUserCode → running (consumer s) = false →
     ∃ s', act DoFrame s = Some s' ∧ ∀ a, act a s' = None).
Proof.
  intros Hreach.
  assert (∀ s, reachable s →
            producer s = AtWait ToCaller → running (consumer s) = false →
            ∀ a, act a s = None) as Hstuck.
  { clear s Hreach. intros s Hreach Hp Hrun a.
    pose proof (reachable_invariants _ Hreach) as (Hsync & _ & _ & Hl).
    apply sync_counts in Hsync. unfold lifecycle_invariant in Hl.
    destruct Hl as (_ & Hcoh & _). rewrite Hp in Hsync, Hcoh.
    assert (m_main_wait (renderer s) = 0) as Hmw.
    { destruct (consumer s), (m_render_wait (renderer s)); simpl in *; try done; lia. }
    destruct a; try (by destruct s as [r0 p0 c0]; simpl in *; subst p0).
    - by eapply wait_main_blocked.
    - rewrite act_Consume. unfold consume. by destruct (consumer s). }
  split; [split|].
  - intros Hnone.
    pose proof (reachable_invariants _ Hreach) as (Hsync & _ & _ & Hl).
    apply sync_counts in Hsync. unfold lifecycle_invariant in Hl.
    destruct Hl as (_ & Hcoh & _).
    destruct (producer s) as [| |k|k|] eqn:Hp.
    + pose proof (Hnone (DoCall (call_set_state 0))) as H.
      destruct s as [r p c]. simpl in *. subst p. done.
    + pose proof (Hnone DoInitWrite) as H.
      destruct s as [r p c]. simpl in *. subst p. done.
    + pose proof (Hnone DoPost) as H.
      destruct s as [r p c]. simpl in *. subst p. done.
    + destruct (decide (0 < m_main_wait (renderer s))) as [Hmw|Hmw].
      { destruct (frame_wait_returns s k Hreach Hp Hmw) as (s' & Hact & _).
        by rewrite Hnone in Hact. }
      destruct (running (consumer s)) eqn:Hrun.
      { destruct (consume_progress s Hreach Hrun) as (r' & Hc & _).
        - intros Hc. rewrite Hc in Hsync. simpl in Hsync. lia.
        - rewrite <- act_Consume, Hnone in Hc. done. }
      split; [|done]. destruct k; [done|].
      destruct (consumer s), (m_render_wait (renderer s)); simpl in *; try done; lia.
    + pose proof (Hnone DoStop) as H1. pose proof (Hnone Consume) as H2.
      rewrite act_Consume in H2.
      destruct s as [r p c]. simpl in *. subst p. by destruct c.
  - intros [Hp Hrun]. by apply Hstuck.
  - intros Hp Hrun.
    destruct (numbers_post_render (renderer s)) as (r' & Hpost & _).
    assert (act DoFrame s = Some (mkSystem r' (AtWait ToCaller) (consumer s))) as Hact.
    { destruct s as [r p c]. simpl in *. subst p. by erewrite advance_ok. }
    eexists. split; [exact Hact|].
    apply Hstuck; [by eapply reachable_step|done|done].
Qed.

Lemma shutdown_effect (s : System) :
  reachable s → producer s = InUserCode →
  m_should_run (renderer s) = running (consumer s) ∧
  (running (consumer s) = false → act DoShutdown s = Some s) ∧
  (running (consumer s) = true →
     ∃ r', act DoShutdown s = Some (mkSystem r' (AtPost ToStop) (consumer s)) ∧
           cb_cells (m_commands (submit_context r')) =
             cb_cells (m_commands (submit_context (renderer s))) ++
               [CellCommand SHUTDOWN_RENDERER]).
Proof.
  intros Hreach Hp.
  pose proof (reachable_invariants _ Hreach) as (Hsync & _ & _ & Hl).
  apply sync_counts in Hsync. unfold lifecycle_invariant in Hl.
  destruct Hl as (Hrun & _). rewrite Hp in Hsync, Hrun.
  assert (m_should_run (renderer s) = running (consumer s)) as Heq.
  { rewrite Hrun. destruct (consumer s); simpl in *; try done; lia. }
  split; [exact Heq|]. destruct s as [r p c]. simpl in *. subst p.
  split; intros Hc; rewrite Hc in Heq; rewrite Heq; [done|].
  destruct (submit_write (CellCommand SHUTDOWN_RENDERER) r) as [res r'] eqn:Hw.
  assert (res = Ok tt) as -> by (by injection Hw as <- _).
  exists r'. erewrite advance_ok by done. split; [done|].
  apply submit_write_inv in Hw as [_ ->]. done.
Qed.

(** X11: [shutdown] has an effect exactly while the render thread is
    running.  In every reachable state in which the producer is in user
    code, [m_should_run] is set if and only if the render thread has been
    started and has not returned; without a running render thread
    [shutdown] returns at once and changes nothing, with one it appends
    SHUTDOWN_RENDERER to the submit stream and goes on to its [frame]. *)
Theorem shutdown_acts_iff_render_thread_runs (s : System) :
  reachable s → producer s = InUserCode →
  m_should_run (renderer s) = running (consumer s) ∧
  (running (consumer s) = false → act DoShutdown s = Some s) ∧
  (running (consumer s) = true →
     ∃ r', act DoShutdown s = Some (mkSystem r' (AtPost ToStop) (consumer s)) ∧
           cb_cells (m_commands (submit_context r')) =
             cb_cells (m_commands (submit_context (renderer s))) ++
               [CellCommand SHUTDOWN_RENDERER]).
Proof. apply shutdown_effect. Qed.

(** ** [shutdown] *)

Lemma post_ready (sg : Signal) (r : Renderer) :
  ∃ r', post sg r = (Ok tt, r') ∧
        m_trace r' = m_trace r ++ [signal_posted sg] ∧
        signal_count sg r' = S (signal_count sg r) ∧
        keeps rest_view r r'.
Proof. eexists. split; [reflexivity|]. by destruct sg. Qed.

Lemma quiet_run_intro (r r' : Renderer) (evs : list Event) :
  m_trace r' = m_trace r ++ evs → m_should_run r' = m_should_run r → quiet_run r r'.
Proof. intros Ht Hr. split; [by exists evs|done]. Qed.

Lemma quiet_run_call (c : Call) : preserves quiet_run (run_call c).
Proof.
  intros r. pose proof (run_call_keeps c r) as Hk.
  unfold keeps, call_view, flags in Hk.
  apply (quiet_run_intro _ _ []); [rewrite app_nil_r|]; congruence.
Qed.

Lemma quiet_submit_write (x : Cell) : preserves quiet_run (submit_write x).
Proof.
  intros r. apply (quiet_run_intro _ _ []); [rewrite app_nil_r|];
    unfold submit_write; simpl; by destruct (m_submit r).
Qed.

Lemma quiet_post (sg : Signal) : preserves quiet_run (post sg).
Proof. intros r. apply (quiet_run_intro _ _ [signal_posted sg]); by destruct sg. Qed.

Lemma quiet_wait (sg : Signal) : preserves quiet_run (wait sg).
Proof.
  intros r. unfold wait. destruct (signal_count sg r) eqn:E; simpl.
  - apply (quiet_run_intro _ _ []); [by rewrite app_nil_r|done].
  - apply (quiet_run_intro _ _ [signal_waited sg]); by destruct sg.
Qed.

Lemma quiet_swap : preserves quiet_run swap_contexts.
Proof.
  intros r. rewrite swap_contexts_spec.
  apply (quiet_run_intro _ _ [contexts_swapped]); by destruct (m_submit r).
Qed.

Lemma quiet_update_uniforms (i : ContextRef) : preserves quiet_run (update_uniforms i).
Proof.
  intros r. pose proof (update_uniforms_keeps i r) as Hk.
  destruct (update_uniforms_backend i r) as (evs & Ht & _).
  unfold keeps, unif_view, flags in Hk. apply (quiet_run_intro _ _ evs); congruence.
Qed.

Lemma quiet_render (r : Renderer) :
  quiet_run r ((if m_is_initialized r then emit render_impl else ret tt) r).2.
Proof.
  destruct (m_is_initialized r); simpl.
  - by apply (quiet_run_intro _ _ [render_impl]).
  - apply (quiet_run_intro _ _ []); [by rewrite app_nil_r|done].
Qed.

(** What a step does to the trace, to [m_should_run] and to a render
    thread that was not started. *)
Lemma act_effect (a : Action) (s s' : System) :
  act a s = Some s' →
  (∃ evs, m_trace (renderer s') = m_trace (renderer s) ++ evs) ∧
  (m_should_run (renderer s') = m_should_run (renderer s) ∨
   m_should_run (renderer s') = true ∨ consumer s = AtExecute) ∧
  (consumer s = NotStarted →
     consumer s' = NotStarted ∨ m_should_run (renderer s') = true).
Proof.
  assert (∀ r r' : Renderer, quiet_run r r' → ∀ c c' : ConsumerPc,
            (c = NotStarted → c' = NotStarted) →
            (∃ evs, m_trace r' = m_trace r ++ evs) ∧
            (m_should_run r' = m_should_run r ∨ m_should_run r' = true ∨ c = AtExecute) ∧
            (c = NotStarted → c' = NotStarted ∨ m_should_run r' = true)) as Hquiet.
  { intros r r' [Ht Hr] c c' Hc. split; [done|]. split; [by left|]. intros ?. left. auto. }
  assert (∀ r : Renderer, quiet_run r r) as Hrefl.
  { intros r. apply (quiet_run_intro _ _ []); [by rewrite app_nil_r|done]. }
  destruct a as [call| | | | | | | |]; destruct s as [r p c];
    [destruct p; simpl; try done..|rewrite act_Consume].
  - intros (x & r' & Hc & ->)%advance_inv. simpl in *. apply Hquiet; [|done].
    pose proof (quiet_run_call call r) as Hq. by rewrite Hc in Hq.
  - destruct c; try done; intros (x & r' & Hc & ->)%advance_inv; simpl in *;
      injection Hc as _ <-; (split; [by exists []; rewrite app_nil_r|]);
      (split; [right; by left|]); intros _; by right.
  - intros (x & r' & Hc & ->)%advance_inv. simpl in *. apply Hquiet; [|done].
    pose proof (quiet_submit_write (CellCommand INIT_RENDERER) r) as Hq. by rewrite Hc in Hq.
  - destruct (m_should_run r) eqn:Hrun;
      [|intros [= <-]; simpl; rewrite <- Hrun; by apply Hquiet].
    intros (x & r' & Hc & ->)%advance_inv. simpl in *.
    pose proof (quiet_submit_write (CellCommand SHUTDOWN_RENDERER) r) as Hq.
    rewrite Hc in Hq. destruct Hq as [Ht Hr]. simpl in *.
    split; [done|]. split; [right; left; congruence|]. intros ?. by left.
  - intros (x & r' & Hc & ->)%advance_inv. simpl in *. apply Hquiet; [|done].
    pose proof (quiet_post RenderWait r) as Hq. by rewrite Hc in Hq.
  - intros (x & r' & Hc & ->)%advance_inv. simpl in *. apply Hquiet; [|done].
    pose proof (quiet_post RenderWait r) as Hq. by rewrite Hc in Hq.
  - intros (x & r' & Hc & ->)%advance_inv. simpl in *. apply Hquiet; [|done].
    pose proof (quiet_wait MainWait r) as Hq. by rewrite Hc in Hq.
  - destruct c; try done. intros [= <-]. simpl. by apply Hquiet.
  - unfold consume. simpl. destruct c; try done.
    + intros [= <-]. simpl. by apply Hquiet.
    + intros (x & r' & Hc & ->)%advance_inv. simpl in *. apply Hquiet; [|done].
      pose proof (quiet_wait RenderWait r) as Hq. by rewrite Hc in Hq.
    + intros (x & r' & Hc & ->)%advance_inv. simpl in *. apply Hquiet; [|done].
      pose proof (quiet_swap r) as Hq. by rewrite Hc in Hq.
    + intros (x & r' & Hc & ->)%advance_inv. simpl in *.
      destruct (execute_commands_backend (m_draw r) r) as (evs & Ht & _).
      rewrite Hc in Ht. simpl in Ht. split; [by exists evs|]. split; [by do 2 right|done].
    + intros (x & r' & Hc & ->)%advance_inv. simpl in *. apply Hquiet; [|done].
      pose proof (quiet_update_uniforms (m_draw r) r) as Hq. by rewrite Hc in Hq.
    + intros (x & r' & Hc & ->)%advance_inv. simpl in *. apply Hquiet; [|done].
      pose proof (quiet_render r) as Hq. by rewrite Hc in Hq.
    + intros (x & r' & Hc & ->)%advance_inv. simpl in *. apply Hquiet; [|done].
      pose proof (quiet_post MainWait r) as Hq. by rewrite Hc in Hq.
Qed.

Lemma shut_invariant_step (a : Action) (s s' : System) :
  act a s = Some s' → stream_invariant s → lifecycle_invariant s →
  shut_invariant s → shut_invariant s'.
Proof.
  intros Hact Hstream Hl Hinv Hrun' Hc'.
  destruct (act_effect _ _ _ Hact) as ([evs Ht] & Hrun & Hstart).
  rewrite Ht, elem_of_app.
  destruct (decide (consumer s = NotStarted)) as [Hc|Hc].
  { destruct (Hstart Hc); congruence. }
  destruct Hrun as [Hrun|[Hrun|Hexec]]; [left; apply Hinv; congruence|congruence|].
  destruct (m_should_run (renderer s)) eqn:Hr; [|left; by apply Hinv].
  (* the stream that is executed holds the record of [shutdown] *)
  right. destruct s as [r p c]. simpl in *. subst c.
  assert (a = Consume) as ->.
  { destruct a as [call| | | | | | | |]; try done; destruct p; simpl in Hact; try done;
      rewrite ?Hr in Hact;
      apply advance_inv in Hact as (? & ? & Hq & ->); simpl in *;
      match type of Hq with
      | run_call ?c ?r = _ => pose proof (quiet_run_call c r) as [_ Hq']
      | submit_write ?x ?r = _ => pose proof (quiet_submit_write x r) as [_ Hq']
      | post ?g ?r = _ => pose proof (quiet_post g r) as [_ Hq']
      | wait ?g ?r = _ => pose proof (quiet_wait g r) as [_ Hq']
      end; rewrite Hq in Hq'; simpl in *; congruence. }
  rewrite act_Consume in Hact. unfold consume in Hact. simpl in Hact.
  apply advance_inv in Hact as (x & r' & Hexec & ->). simpl in *.
  destruct Hstream as (_ & _ & _ & (body0 & Hdraw & _)). simpl in *.
  unfold lifecycle_invariant in Hl. simpl in Hl.
  destruct Hl as (_ & _ & _ & _ & H5). destruct (H5 eq_refl) as (body & Hbody & Hrec).
  rewrite Hdraw in Hbody. simpl in Hbody. rewrite Hbody in Hdraw.
  destruct (records_execute _ _ _ _ Hrec Hdraw) as (r2 & evs2 & Hexec2 & Ht2 & Hr2 & _).
  rewrite Hexec2 in Hexec. injection Hexec as _ <-.
  destruct (shutting p); [|congruence].
  rewrite Ht2 in Ht. apply app_inv_head in Ht. subst evs.
  rewrite elem_of_app, list_elem_of_singleton. by right.
Qed.

Lemma reachable_shut (s : System) : reachable s → shut_invariant s.
Proof.
  intros Hreach.
  assert (shut_invariant s ∧ reachable s) as [H _]; [|exact H].
  revert s Hreach.
  apply (reachable_invariant (λ s, shut_invariant s ∧ reachable s)).
  - split; [by intros _ Hc|constructor].
  - intros a s1 s2 Hact [Hinv Hreach1].
    pose proof (reachable_invariants _ Hreach1) as (_ & Hstream & _ & Hl).
    split; [by eapply shut_invariant_step|by eapply reachable_step].
Qed.

Lemma stopped_facts (s : System) :
  reachable s → producer s = AtStop →
  m_should_run (renderer s) = false ∧ m_is_initialized (renderer s) = false ∧
  shutdown_impl ∈ m_trace (renderer s) ∧
  (consumer s = AtLoopHead ∨ consumer s = Finished) ∧
  ∃ m, m ≤ 1 ∧
       run_schedule (replicate m Consume ++ [DoStop]) s =
         Some (mkSystem (renderer s) InUserCode Finished).
Proof.
  intros Hreach Hp.
  pose proof (reachable_invariants _ Hreach) as (_ & _ & _ & Hl).
  pose proof (reachable_shut _ Hreach) as Hshut. unfold shut_invariant in Hshut.
  unfold lifecycle_invariant in Hl. destruct Hl as (Hrun & Hcoh & Hinit & _).
  rewrite Hp in Hrun, Hcoh. destruct s as [r p c]. simpl in *. subst p.
  assert (m_should_run r = false) as Hr by (rewrite Hrun; by destruct c).
  split; [exact Hr|]. split; [by apply Hinit|].
  split; [apply Hshut; [done|by destruct c]|].
  destruct c; try done.
  - split; [by left|]. exists 1. split; [lia|]. cbn [replicate app].
    erewrite run_schedule_step; [|rewrite act_Consume; unfold consume; simpl; by rewrite Hr].
    by erewrite run_schedule_step.
  - split; [by right|]. exists 0. split; [lia|]. by cbn [replicate app].
Qed.

(** X12: when the [frame] of [shutdown] has returned, in whatever order
    the two threads took their steps, [shutdown_impl] has been called,
    [m_should_run] and [m_is_initialized] are both cleared, and the render
    thread stands at the head of its loop or has returned; at most one
    more statement of it and [m_thread.stop()] returns, leaving the
    renderer as it is. *)
Theorem shutdown_frame_stops_render_thread (s : System) :
  reachable s → producer s = AtStop →
  m_should_run (renderer s) = false ∧ m_is_initialized (renderer s) = false ∧
  shutdown_impl ∈ m_trace (renderer s) ∧
  (consumer s = AtLoopHead ∨ consumer s = Finished) ∧
  ∃ m, m ≤ 1 ∧
       run_schedule (replicate m Consume ++ [DoStop]) s =
         Some (mkSystem (renderer s) InUserCode Finished).
Proof. apply stopped_facts. Qed.

(** X13: [shutdown] returns whenever the render thread is running: it
    writes its record, its [frame] posts, at most seven statements of the
    render thread later the wait of that [frame] returns, and at most one
    statement after that the thread has returned and [m_thread.stop()]
    with it.  By then [shutdown_impl] has been called and both flags are
    cleared. *)
Theorem shutdown_returns (s : System) :
  reachable s → producer s = InUserCode → running (consumer s) = true →
  ∃ n m s', n ≤ 7 ∧ m ≤ 1 ∧
    run_schedule (shutdown_schedule n m) s = Some s' ∧
    producer s' = InUserCode ∧ consumer s' = Finished ∧
    m_should_run (renderer s') = false ∧ m_is_initialized (renderer s') = false ∧
    shutdown_impl ∈ m_trace (renderer s').
Proof.
  intros Hreach Hp Hrun.
  destruct (shutdown_effect s Hreach Hp) as (_ & _ & Hstart).
  destruct (Hstart Hrun) as (r1 & Hact1 & _).
  pose proof (reachable_step _ _ _ Hreach Hact1) as Hreach1.
  destruct (post_ready RenderWait r1) as (r2 & Hpost & _).
  assert (act DoPost (mkSystem r1 (AtPost ToStop) (consumer s)) =
          Some (mkSystem r2 (AtWait ToStop) (consumer s))) as Hact2.
  { simpl. by erewrite advance_ok. }
  pose proof (reachable_step _ _ _ Hreach1 Hact2) as Hreach2.
  destruct (frame_returns_within 7 (mkSystem r2 (AtWait ToStop) (consumer s)) ToStop)
    as (n & s3 & Hn & Hsched3 & Hp3 & Hreach3); [done|done|by left| |].
  { simpl. destruct (consumer s); simpl; lia. }
  destruct (stopped_facts s3 Hreach3 Hp3) as (Hr & Hi & Hshut & _ & m & Hm & Hsched4).
  exists n, m, (mkSystem (renderer s3) InUserCode Finished).
  split; [done|]. split; [done|]. split; [|done].
  assert (shutdown_schedule n m =
          [DoShutdown; DoPost] ++ (replicate n Consume ++ [DoWait]) ++
          (replicate m Consume ++ [DoStop])) as ->
    by (unfold shutdown_schedule; by rewrite <- !app_assoc).
  rewrite run_schedule_app.
  rewrite (run_schedule_step _ _ _ _ Hact1), (run_schedule_step _ _ _ _ Hact2).
  cbn [run_schedule]. rewrite run_schedule_app, Hsched3. exact Hsched4.
Qed.

(** ** [init] *)

(** [init] up to the swap of the turn that its [frame] starts: the
    thread is started, INIT_RENDERER is written behind what the submit
    stream holds, and the closed streams are handed to the consumer. *)
Lemma init_until_execute (r0 : Renderer) (c0 : ConsumerPc) :
  running c0 = false →
  ∃ r5,
    run_schedule [DoInit; DoInitWrite; DoPost; Consume; Consume; Consume]
      (mkSystem r0 InUserCode c0) = Some (mkSystem r5 (AtWait ToCaller) AtExecute) ∧
    m_draw r5 = m_submit r0 ∧
    m_commands (context (m_submit r0) r5) =
      {| cb_cells := cb_cells (m_commands (submit_context r0)) ++
                       [CellCommand INIT_RENDERER] ++ [CellCommand END];
         cb_cursor := cb_cursor (m_commands (submit_context r0)) |} ∧
    m_constants (context (m_submit r0) r5) =
      {| kb_cells := kb_cells (m_constants (submit_context r0)) ++
                       [ConstType UniformType_END];
         kb_cursor := kb_cursor (m_constants (submit_context r0)) |} ∧
    flags r5 = (m_is_initialized r0, true) ∧
    m_main_wait r5 = m_main_wait r0 ∧
    m_trace r5 = m_trace r0 ++
      [signal_posted RenderWait; signal_waited RenderWait; contexts_swapped].
Proof.
  intros Hrun.
  set (r1 := set_flags (m_is_initialized r0) true r0).
  assert (act DoInit (mkSystem r0 InUserCode c0) = Some (mkSystem r1 InInit AtLoopHead)) as H1
    by (by destruct c0).
  destruct (submit_write (CellCommand INIT_RENDERER) r1) as [res r2] eqn:Hw.
  assert (res = Ok tt) as -> by (by injection Hw as <- _).
  assert (act DoInitWrite (mkSystem r1 InInit AtLoopHead) =
          Some (mkSystem r2 (AtPost ToCaller) AtLoopHead)) as H2.
  { simpl. by erewrite advance_ok. }
  pose proof (quiet_submit_write (CellCommand INIT_RENDERER) r1) as Hq2.
  pose proof (numbers_submit_write _ _ _ _ Hw) as Hn2.
  rewrite Hw in Hq2. destruct Hq2 as [_ Hr2]. simpl in Hr2.
  assert (m_should_run r2 = true) as Hr2' by (by rewrite Hr2).
  pose proof (run_submission_keeps InitRecord r1) as Hk2.
  pose proof (returning_submit_write _ _ _ _ Hw) as Hsub2.
  change (returning (submit_write (CellCommand INIT_RENDERER))) with
    (run_submission InitRecord) in Hsub2.
  rewrite Hsub2 in Hk2. unfold keeps, call_view, control in Hk2. simpl in Hk2.
  assert (m_trace r2 = m_trace r0) as Ht2 by congruence.
  apply run_submission_writes in Hsub2 as (Hs2 & Hc2 & Hcur2 & Hkc2 & Hkcur2).
  simpl in Hc2, Hkc2. rewrite app_nil_r in Hkc2.
  destruct (post_ready RenderWait r2) as (r3 & Hpost & Ht3 & Hn3 & Hk3).
  apply rest_view_facts in Hk3 as (Hs3 & Hd3 & Hctx3 & Hf3 & _).
  assert (act DoPost (mkSystem r2 (AtPost ToCaller) AtLoopHead) =
          Some (mkSystem r3 (AtWait ToCaller) AtLoopHead)) as H3.
  { simpl. by erewrite advance_ok. }
  assert (m_should_run r3 = true) as Hr3.
  { unfold flags in Hf3. by injection Hf3 as _ ->. }
  assert (act Consume (mkSystem r3 (AtWait ToCaller) AtLoopHead) =
          Some (mkSystem r3 (AtWait ToCaller) AtRenderWait)) as H4.
  { rewrite act_Consume. unfold consume. simpl. by rewrite Hr3. }
  destruct (wait_ready RenderWait r3 (m_render_wait r2)) as (r4 & Hwait & Ht4 & Hn4 & Hk4);
    [done|].
  apply rest_view_facts in Hk4 as (Hs4 & Hd4 & Hctx4 & Hf4 & _).
  assert (act Consume (mkSystem r3 (AtWait ToCaller) AtRenderWait) =
          Some (mkSystem r4 (AtWait ToCaller) AtSwap)) as H5 by consume_with Hwait.
  destruct (numbers_swap r4) as (r5 & Hswap & _ & Hs5 & Hd5 & Hpush & Hrest & Hf5 & _).
  assert (act Consume (mkSystem r4 (AtWait ToCaller) AtSwap) =
          Some (mkSystem r5 (AtWait ToCaller) AtExecute)) as H6 by consume_with Hswap.
  assert (m_trace r5 = m_trace r4 ++ [contexts_swapped]) as Ht5.
  { rewrite swap_contexts_spec in Hswap. by injection Hswap as <-. }
  assert (m_main_wait r5 = m_main_wait r4) as Hmw5.
  { rewrite swap_contexts_spec in Hswap. injection Hswap as <-. by destruct (m_submit r4). }
  assert (m_main_wait r4 = m_main_wait r3) as Hmw4.
  { unfold wait in Hwait. simpl in Hwait. destruct (m_render_wait r3); [done|].
    by injection Hwait as <-. }
  assert (m_main_wait r3 = m_main_wait r2) as Hmw3 by (by injection Hpost as <-).
  assert (m_submit r4 = m_submit r0) as Hsub by congruence.
  assert (context (m_submit r0) r4 = submit_context r2) as Hctx.
  { unfold submit_context. rewrite Hctx4, Hctx3. congruence. }
  exists r5. split.
  { rewrite (run_schedule_step _ _ _ _ H1), (run_schedule_step _ _ _ _ H2),
      (run_schedule_step _ _ _ _ H3), (run_schedule_step _ _ _ _ H4),
      (run_schedule_step _ _ _ _ H5), (run_schedule_step _ _ _ _ H6). done. }
  assert (submit_context r1 = submit_context r0) as Hsc1.
  { unfold submit_context, r1. by rewrite context_set_flags. }
  rewrite Hsub in Hpush, Hd5.
  split; [congruence|]. rewrite Hpush, Hctx. simpl. unfold cb_write, kb_append.
  rewrite Hc2, Hcur2, Hkc2, Hkcur2, Hsc1, <- app_assoc.
  split; [done|]. split; [done|].
  split.
  { rewrite Hf5, Hf4, Hf3. unfold flags. rewrite Hr2'. f_equal.
    unfold keeps, flags in Hk2. simpl in Hk2. congruence. }
  split; [unfold numbers in Hn2; congruence|].
  rewrite Ht5, Ht4, Ht3, Ht2. by rewrite <- !app_assoc.
Qed.

Lemma uniform_update_events (ss : list Submission) (e : Event) :
  e ∈ ss ≫= uniform_update → ∃ id size data, e = update_uniform_impl id size data.
Proof.
  intros (s0 & He & _)%list_elem_of_bind.
  destruct s0 as [[]| |]; simpl in He; try (by apply elem_of_nil in He).
  destruct value; [|by apply elem_of_nil in He].
  apply list_elem_of_singleton in He. eauto.
Qed.

(** X14: [init] called while no render thread is running returns, and
    when it does the backend is initialized and the first frame has been
    rendered.  The thread is started, the INIT_RENDERER record goes
    through one turn of [render_all], and what the backend sees in that
    turn is, in this order: the operations of the records that were
    submitted before [init] was called, then [init_impl], then uniform
    updates, then [render_impl]. *)
Theorem init_returns_initialized (s : System) :
  reachable s → producer s = InUserCode → running (consumer s) = false →
  ∃ s' ss answers evs,
    run_schedule init_schedule s = Some s' ∧
    producer s' = InUserCode ∧ consumer s' = AtLoopHead ∧
    m_should_run (renderer s') = true ∧ m_is_initialized (renderer s') = true ∧
    cb_cells (m_commands (submit_context (renderer s))) = submission_cells_all ss answers ∧
    length answers = length ss ∧
    (∀ e, e ∈ evs → ∃ id size data, e = update_uniform_impl id size data) ∧
    m_trace (renderer s') =
      m_trace (renderer s) ++
      [signal_posted RenderWait; signal_waited RenderWait; contexts_swapped] ++
      dispatched_all ss answers ++ [init_impl] ++ evs ++
      [render_impl; signal_posted MainWait; signal_waited MainWait].
Proof.
  intros Hreach Hp Hrun. remember init_schedule as sched eqn:Hsched.
  pose proof (reachable_invariants _ Hreach) as (Hsync & Hstream & Hconst & Hl).
  apply sync_counts in Hsync.
  destruct s as [r0 p c0]. simpl in *. subst p.
  unfold lifecycle_invariant in Hl. simpl in Hl. destruct Hl as (_ & _ & _ & Hrec & _).
  destruct Hrec as (ss & answers & Hfit & Hlen & Hno & Hcells).
  simpl in Hcells. rewrite app_nil_r in Hcells.
  destruct Hstream as (_ & Hcur & _). simpl in *.
  destruct Hconst as (Hkcur & (kss & Hkcells) & _). simpl in *.
  assert (m_main_wait r0 = 0) as Hmw0 by lia.
  destruct (init_until_execute r0 c0 Hrun)
    as (r5 & Hsched5 & Hd5 & Hcmd5 & Hk5 & Hf5 & Hmw5 & Ht5).
  rewrite Hcells, Hcur in Hcmd5. rewrite Hkcells, Hkcur in Hk5.
  (* the command stream is executed *)
  destruct (execute_commands_records (ss ++ [InitRecord]) (answers ++ [None])
              (m_submit r0) r5) as (r6' & r6 & _ & _ & Ht6' & Hf6' & Hexec & Ht6 & Hf6 & _);
    [apply Forall_app; by repeat constructor|rewrite !length_app; simpl; lia| |].
  { rewrite submission_cells_all_app by done. simpl. by rewrite <- app_assoc. }
  rewrite <- Hd5 in Hexec.
  rewrite dispatched_all_app in Ht6' by done. simpl in Ht6'.
  assert (flags r6 = (true, true)) as Hflags6.
  { rewrite Hf6, Hf6', foldl_app. simpl.
    pose proof (flags_after_run ss (flags r5) Hno) as H2. rewrite Hf5 in H2 at 2.
    simpl in H2. by rewrite H2. }
  pose proof (execute_commands_keeps (m_draw r5) r5) as Hkeep6. rewrite Hexec in Hkeep6.
  unfold keeps, exec_view, control in Hkeep6. simpl in Hkeep6.
  assert (m_draw r6 = m_draw r5) as Hd6 by congruence.
  assert (m_main_wait r6 = 0) as Hmw6 by congruence.
  assert (m_constants (context (m_draw r6) r6) =
          {| kb_cells := (kss ≫= constant_cells) ++ [ConstType UniformType_END];
             kb_cursor := 0 |}) as Hk6.
  { rewrite Hd6. rewrite <- Hk5, <- Hd5. congruence. }
  (* the constant stream is applied *)
  destruct (constant_records_apply _ _ _ (ex_intro _ kss eq_refl) Hk6)
    as (r7 & ss1 & Hunif & Ht7).
  pose proof (update_uniforms_keeps (m_draw r6) r6) as Hkeep7. rewrite Hunif in Hkeep7.
  unfold keeps, unif_view, control in Hkeep7. simpl in Hkeep7.
  assert (flags r7 = (true, true)) as Hflags7 by congruence.
  assert (m_main_wait r7 = 0) as Hmw7 by congruence.
  unfold flags in Hflags7. injection Hflags7 as Hi7 Hr7.
  (* the frame is rendered, the producer is signalled and wakes up *)
  assert (∃ r8, (if m_is_initialized r7 then emit render_impl else ret tt) r7 = (Ok tt, r8) ∧
                m_trace r8 = m_trace r7 ++ [render_impl] ∧ keeps rest_view r7 r8 ∧
                m_main_wait r8 = m_main_wait r7)
    as (r8 & Hrender & Ht8 & Hk8 & Hmw8) by (rewrite Hi7; by eexists).
  apply rest_view_facts in Hk8 as (_ & _ & _ & Hf8 & _).
  destruct (post_ready MainWait r8) as (r9 & Hpost & Ht9 & Hn9 & Hk9).
  apply rest_view_facts in Hk9 as (_ & _ & _ & Hf9 & _).
  destruct (wait_ready MainWait r9 (m_main_wait r8)) as (r10 & Hwait & Ht10 & _ & Hk10);
    [done|].
  apply rest_view_facts in Hk10 as (_ & _ & _ & Hf10 & _).
  assert (flags r10 = (true, true)) as Hflags10.
  { rewrite Hf10, Hf9, Hf8. unfold flags. by rewrite Hi7, Hr7. }
  unfold flags in Hflags10. injection Hflags10 as Hi10 Hr10.
  exists (mkSystem r10 InUserCode AtLoopHead), ss, answers, (ss1 ≫= uniform_update).
  split.
  { subst sched.
    change init_schedule with
      ([DoInit; DoInitWrite; DoPost; Consume; Consume; Consume] ++
       [Consume; Consume; Consume; Consume; DoWait]).
    rewrite run_schedule_app, Hsched5.
    rewrite (run_schedule_step _ _ _ (mkSystem r6 (AtWait ToCaller) AtUniforms))
      by consume_with Hexec.
    rewrite (run_schedule_step _ _ _ (mkSystem r7 (AtWait ToCaller) AtRender)).
    2: { rewrite act_Consume. unfold consume. simpl. eapply advance_ok. simpl.
         exact Hunif. }
    rewrite (run_schedule_step _ _ _ (mkSystem r8 (AtWait ToCaller) AtMainPost)).
    2: { rewrite act_Consume. unfold consume. simpl. eapply advance_ok. simpl.
         exact Hrender. }
    rewrite (run_schedule_step _ _ _ (mkSystem r9 (AtWait ToCaller) AtLoopHead))
      by consume_with Hpost.
    rewrite (run_schedule_step _ _ _ (mkSystem r10 InUserCode AtLoopHead)).
    2: { simpl. eapply advance_ok. simpl. exact Hwait. }
    done. }
  split; [done|]. split; [done|]. split; [done|]. split; [done|].
  split; [done|]. split; [done|]. split; [apply uniform_update_events|].
  simpl. rewrite Ht10, Ht9, Ht8, Ht7, Ht6, Ht6', Ht5. by rewrite <- !app_assoc.
Qed.

(** ** [frame] is synchronous *)

(** X15: whenever the producer is not waiting inside [frame], nothing
    it submitted earlier is left to be executed: the render thread is
    idle, both streams of the draw context are empty, both counts are
    zero, and the streams of the submit context have not been read. *)
Theorem no_backlog_outside_frame (s : System) :
  reachable s → waiting (producer s) = false →
  idle (consumer s) = true ∧
  m_commands (context (m_draw (renderer s)) (renderer s)) = CommandBuffer_new ∧
  m_constants (context (m_draw (renderer s)) (renderer s)) = ConstantBuffer_new ∧
  cb_cursor (m_commands (submit_context (renderer s))) = 0 ∧
  kb_cursor (m_constants (submit_context (renderer s))) = 0 ∧
  m_render_wait (renderer s) = 0 ∧ m_main_wait (renderer s) = 0.
Proof.
  intros Hreach Hw.
  pose proof (reachable_invariants _ Hreach) as (Hsync & Hstream & Hconst & _).
  apply sync_counts in Hsync. rewrite Hw in Hsync.
  destruct Hstream as (_ & Hcur & _ & Hdraw). destruct Hconst as (Hkcur & _ & Hkdraw).
  destruct (idle (consumer s)) eqn:Hidle; [|lia].
  split; [done|]. split; [by destruct (consumer s)|]. split; [by destruct (consumer s)|].
  split; [done|]. split; [done|]. lia.
Qed.

End Renderer.

(** * The shader manager *)

Section ShaderManagerProperties.
Import ShaderManager.
Variable b : Bgfx.

Lemma register_lookup_other (dps : list (Data * ProgramHandle)) (m : gmap StringId32 ShaderData)
    (name : StringId32) :
  name ∉ (data_name ∘ fst) <$> dps → register m dps !! name = m !! name.
Proof.
  revert m. induction dps as [|dp dps IH]; intros m Hnot; [done|].
  rewrite fmap_cons in Hnot. apply not_elem_of_cons in Hnot as [Hne Hnot].
  simpl. unfold register in IH. rewrite IH by done.
  by rewrite lookup_insert_ne.
Qed.

Lemma register_lookup_last (l1 l2 : list (Data * ProgramHandle)) (m : gmap StringId32 ShaderData)
    (d : Data) (p : ProgramHandle) :
  data_name d ∉ (data_name ∘ fst) <$> l2 →
  register m (l1 ++ (d, p) :: l2) !! data_name d = Some (mkShaderData (data_state d) p).
Proof.
  intros Hnot. unfold register. rewrite foldl_app. simpl.
  fold (register (<[data_name d := mkShaderData (data_state d) p]>
                    (foldl (λ m dp, <[data_name dp.1 := mkShaderData (data_state dp.1) dp.2]> m)
                       m l1)) l2).
  rewrite register_lookup_other by done. by rewrite lookup_insert_eq.
Qed.

Lemma online_body_ok (d : Data) (w w' : State) :
  online_body b d w = (Ok tt, w') →
  ∃ vs fs program,
    isValid_program b program = true ∧
    _shader_map w' =
      <[data_name d := mkShaderData (data_state d) program]> (_shader_map w) ∧
    bgfx_calls w' =
      bgfx_calls w ++
      [CreateShader (data_vsmem d) vs; CreateShader (data_fsmem d) fs;
       CreateProgram vs fs true program].
Proof.
  unfold online_body. intros H.
  destruct (isValid_shader b _); [|done].
  destruct (isValid_shader b _); [|done].
  destruct (isValid_program b _) eqn:Hvalid; [|done].
  injection H as <-. eexists _, _, _. split; [exact Hvalid|]. split; [done|].
  simpl. by rewrite <- !app_assoc.
Qed.

Lemma online_body_stopped (d : Data) (w w' : State) (f : Fault) :
  online_body b d w = (Failed f, w') →
  _shader_map w' = _shader_map w ∧
  ∃ calls, bgfx_calls w' = bgfx_calls w ++ calls ∧
           1 ≤ length calls ≤ 3 ∧ forallb creation calls = true ∧
           (f = PreconditionFault "Failed to create vertex shader" ∧ length calls = 1 ∨
            f = PreconditionFault "Failed to create fragment shader" ∧ length calls = 2 ∨
            f = PreconditionFault "Failed to create GPU program" ∧ length calls = 3).
Proof.
  unfold online_body. intros H.
  destruct (isValid_shader b _).
  - destruct (isValid_shader b _).
    + destruct (isValid_program b _); [done|].
      injection H as <- <-. split; [done|]. eexists. simpl. rewrite <- !app_assoc. simpl.
      split; [reflexivity|]. simpl. split; [lia|]. split; [done|]. by right; right.
    + injection H as <- <-. split; [done|]. eexists. simpl. rewrite <- !app_assoc. simpl.
      split; [reflexivity|]. simpl. split; [lia|]. split; [done|]. by right; left.
  - injection H as <- <-. split; [done|]. eexists. simpl.
    split; [reflexivity|]. simpl. split; [lia|]. split; [done|]. by left.
Qed.

Lemma online_body_outcome (d : Data) (w : State) :
  ∃ w', online_body b d w = (Ok tt, w') ∨ ∃ f, online_body b d w = (Failed f, w').
Proof.
  unfold online_body.
  destruct (isValid_shader b _); [|eauto].
  destruct (isValid_shader b _); [|eauto].
  destruct (isValid_program b _); eauto.
Qed.

Lemma online_loop_ok (ds : list Data) (w w' : State) :
  online_loop b ds w = (Ok tt, w') →
  ∃ calls,
    bgfx_calls w' = bgfx_calls w ++ calls ∧
    length calls = 3 * length ds ∧ forallb creation calls = true ∧
    length (programs_created calls) = length ds ∧
    Forall (λ p, isValid_program b p = true) (programs_created calls) ∧
    _shader_map w' = register (_shader_map w) (zip ds (programs_created calls)).
Proof.
  revert w. induction ds as [|d ds IH]; intros w H.
  - injection H as <-. exists []. by rewrite app_nil_r.
  - simpl in H. destruct (online_body_outcome d w) as [w1 [Hb|[f Hb]]]; rewrite Hb in H; [|done].
    apply online_body_ok in Hb as (vs & fs & program & Hvalid & Hmap & Hcalls).
    apply IH in H as (calls & Hcalls' & Hlen & Hcre & Hlen' & Hval & Hmap').
    exists ([CreateShader (data_vsmem d) vs; CreateShader (data_fsmem d) fs;
             CreateProgram vs fs true program] ++ calls).
    rewrite Hcalls', Hcalls, <- app_assoc. split; [done|].
    split; [simpl; lia|]. split; [done|].
    assert (programs_created
              ([CreateShader (data_vsmem d) vs; CreateShader (data_fsmem d) fs;
                CreateProgram vs fs true program] ++ calls) =
            program :: programs_created calls) as -> by done.
    split; [simpl; lia|]. split; [by constructor|].
    by rewrite Hmap', Hmap.
Qed.

Lemma online_loop_stopped (ds : list Data) (w w' : State) (f : Fault) :
  online_loop b ds w = (Failed f, w') →
  ∃ done d rest w0,
    ds = done ++ d :: rest ∧
    online_loop b done w = (Ok tt, w0) ∧
    online_body b d w0 = (Failed f, w').
Proof.
  revert w. induction ds as [|d ds IH]; intros w H; [done|].
  simpl in H. destruct (online_body_outcome d w) as [w1 [Hb|[f' Hb]]]; rewrite Hb in H.
  - apply IH in H as (done & d' & rest & w0 & -> & Hdone & Hd).
    exists (d :: done), d', rest, w0. split; [done|]. simpl. by rewrite Hb.
  - injection H as <- <-. by exists [], d, ds, w.
Qed.

Lemma submit_registered (name : StringId32) (view_id : N) (sd : ShaderData) (w : State) :
  _shader_map w !! name = Some sd →
  submit b name view_id w =
    (Ok tt, mkState (_shader_map w)
              (bgfx_calls w ++ [SetState (sd_state sd); Submit view_id (sd_program sd)])).
Proof.
  intros H. unfold submit, hash_map_has, hash_map_get. rewrite H.
  rewrite bool_decide_eq_true_2 by by eexists.
  simpl. unfold call. simpl. by rewrite <- app_assoc.
Qed.

Lemma submit_missing (name : StringId32) (view_id : N) (w : State) :
  _shader_map w !! name = None →
  submit b name view_id w = (Failed (PreconditionFault "Shader not found"), w).
Proof.
  intros H. unfold submit, hash_map_has. rewrite H.
  by rewrite bool_decide_eq_false_2 by by intros [? ?].
Qed.

Lemma offline_loop_spec (ds : list Data) (w : State) :
  ∃ ps,
    bgfx_calls (offline_loop b ds w) = bgfx_calls w ++ (DestroyProgram <$> ps) ∧
    length ps = length ds ∧
    (∀ i d, ds !! i = Some d →
       ps !! i = Some (if decide (data_name d ∈ data_name <$> take i ds)
                       then BGFX_INVALID_HANDLE b else held b (_shader_map w) (data_name d))) ∧
    (∀ name, _shader_map (offline_loop b ds w) !! name =
               if decide (name ∈ data_name <$> ds) then None else _shader_map w !! name).
Proof.
  revert w. induction ds as [|d ds IH]; intros w.
  - exists []. simpl. rewrite app_nil_r. split; [done|]. split; [done|]. split; [done|].
    intros name. by simpl.
  - change (offline_loop b (d :: ds) w) with (offline_loop b ds (offline_body b d w)).
    destruct (IH (offline_body b d w)) as (ps & Hcalls & Hlen & Hps & Hmap).
    exists (held b (_shader_map w) (data_name d) :: ps).
    split; [rewrite Hcalls; simpl; by rewrite <- app_assoc|].
    split; [simpl; lia|]. split.
    + intros [|i] d' Hd'.
      * injection Hd' as <-. by simpl.
      * simpl in Hd'. transitivity (ps !! i); [done|]. rewrite (Hps i d' Hd'). f_equal.
        change (take (S i) (d :: ds)) with (d :: take i ds). rewrite fmap_cons.
        destruct (decide (data_name d' = data_name d)) as [Heq|Hne].
        -- rewrite (decide_True (P := data_name d' ∈ data_name d :: _))
             by (rewrite Heq; apply list_elem_of_here).
           case_decide; [done|].
           unfold held, hash_map_get. simpl. by rewrite Heq, lookup_delete_eq.
        -- destruct (decide (data_name d' ∈ data_name <$> take i ds)) as [Hin|Hnin].
           ++ by rewrite decide_True by by apply list_elem_of_further.
           ++ rewrite decide_False by (by intros [?|?]%elem_of_cons).
              unfold held, hash_map_get. simpl. by rewrite lookup_delete_ne.
    + intros name. rewrite Hmap, fmap_cons.
      assert (_shader_map (offline_body b d w) = delete (data_name d) (_shader_map w)) as ->
        by done.
      destruct (decide (name = data_name d)) as [->|Hne].
      * rewrite (decide_True (P := data_name d ∈ data_name d :: _)) by apply list_elem_of_here.
        case_decide; [done|]. by rewrite lookup_delete_eq.
      * destruct (decide (name ∈ data_name <$> ds)) as [Hin|Hnin].
        -- by rewrite decide_True by by apply list_elem_of_further.
        -- rewrite decide_False by (by intros [?|?]%elem_of_cons).
           by rewrite lookup_delete_ne.
Qed.

Lemma register_names (ds : list Data) (ps : list ProgramHandle) :
  length ps = length ds → (data_name ∘ fst) <$> zip ds ps = data_name <$> ds.
Proof. intros Hlen. rewrite list_fmap_compose, fst_zip by lia. done. Qed.

Lemma register_last_entry (dps : list (Data * ProgramHandle)) (name : StringId32) :
  name ∈ (data_name ∘ fst) <$> dps →
  ∃ l1 d p l2, dps = l1 ++ (d, p) :: l2 ∧ data_name d = name ∧
               name ∉ (data_name ∘ fst) <$> l2.
Proof.
  induction dps as [|[d p] dps IH]; intros Hin; [by apply elem_of_nil in Hin|].
  destruct (decide (name ∈ (data_name ∘ fst) <$> dps)) as [Hlater|Hnot].
  - destruct (IH Hlater) as (l1 & d' & p' & l2 & -> & Hname & Hl2).
    by exists ((d, p) :: l1), d', p', l2.
  - rewrite fmap_cons in Hin. apply elem_of_cons in Hin as [->|Hin]; [|done].
    by exists [], d, p, dps.
Qed.

Lemma register_delete (dps : list (Data * ProgramHandle)) (m : gmap StringId32 ShaderData)
    (name : StringId32) :
  name ∉ (data_name ∘ fst) <$> dps →
  delete name (register m dps) = register (delete name m) dps.
Proof.
  revert m. induction dps as [|dp dps IH]; intros m Hnot; [done|].
  rewrite fmap_cons in Hnot. apply not_elem_of_cons in Hnot as [Hne Hnot].
  simpl. unfold register in IH. rewrite IH by done.
  by rewrite delete_insert_ne.
Qed.

Lemma offline_loop_registered (ds : list Data) (ps : list ProgramHandle)
    (m : gmap StringId32 ShaderData) (w : State) :
  NoDup (data_name <$> ds) → length ps = length ds →
  _shader_map w = register m (zip ds ps) →
  bgfx_calls (offline_loop b ds w) = bgfx_calls w ++ (DestroyProgram <$> ps).
Proof.
  revert ps m w. induction ds as [|d ds IH]; intros ps m w Hnodup Hlen Hmap.
  - destruct ps; [|done]. simpl. by rewrite app_nil_r.
  - destruct ps as [|p ps]; [done|]. injection Hlen as Hlen.
    rewrite fmap_cons in Hnodup. apply NoDup_cons in Hnodup as [Hnot Hnodup].
    rewrite <- (register_names ds ps Hlen) in Hnot.
    change (offline_loop b (d :: ds) w) with (offline_loop b ds (offline_body b d w)).
    assert (_shader_map w !! data_name d = Some (mkShaderData (data_state d) p)) as Hheld.
    { rewrite Hmap. apply (register_lookup_last [] (zip ds ps) m d p Hnot). }
    rewrite (IH ps (delete (data_name d) (<[data_name d := mkShaderData (data_state d) p]> m))
               (offline_body b d w) Hnodup Hlen).
    + unfold offline_body, hash_map_get. rewrite Hheld. simpl. by rewrite <- app_assoc.
    + unfold offline_body. simpl. rewrite Hmap. simpl. by apply register_delete.
Qed.

Lemma programs_destroyed_fmap (ps : list ProgramHandle) :
  programs_destroyed (DestroyProgram <$> ps) = ps.
Proof. induction ps as [|p ps IH]; [done|]. simpl. by f_equal. Qed.

Lemma online_loop_registers (ds : list Data) (w w1 : State) :
  online_loop b ds w = (Ok tt, w1) →
  (∀ data, data ∈ ds →
     ∃ sd before data' after,
       _shader_map w1 !! data_name data = Some sd ∧
       isValid_program b (sd_program sd) = true ∧
       ds = before ++ data' :: after ∧
       data_name data' = data_name data ∧
       (data_name data ∉ data_name <$> after) ∧
       sd_state sd = data_state data') ∧
  (∀ name, name ∉ data_name <$> ds → _shader_map w1 !! name = _shader_map w !! name) ∧
  ∃ calls, bgfx_calls w1 = bgfx_calls w ++ calls ∧ length calls = 3 * length ds ∧
           forallb creation calls = true.
Proof.
  intros H.
  apply online_loop_ok in H as (calls & Hcalls & Hlen & Hcre & Hlen' & Hvalid & Hmap).
  split; [|split].
  - intros data Hin.
    assert (data_name data ∈ (data_name ∘ fst) <$> zip ds (programs_created calls)) as Hname.
    { rewrite register_names by done. by apply list_elem_of_fmap_2. }
    apply register_last_entry in Hname as (l1 & d & p & l2 & Hsplit & Hd & Hl2).
    assert (_shader_map w1 !! data_name data = Some (mkShaderData (data_state d) p)) as Hheld.
    { rewrite Hmap, Hsplit, <- Hd. apply register_lookup_last. by rewrite Hd. }
    exists (mkShaderData (data_state d) p), l1.*1, d, l2.*1.
    split; [exact Hheld|]. split.
    { rewrite Forall_forall in Hvalid. apply Hvalid.
      apply (elem_of_zip_r d p ds). rewrite Hsplit.
      apply elem_of_app. right. apply list_elem_of_here. }
    split.
    { rewrite <- (fst_zip ds (programs_created calls)) at 1 by lia.
      by rewrite Hsplit, fmap_app. }
    split; [done|]. split; [by rewrite <- list_fmap_compose|]. done.
  - intros name Hnot. rewrite Hmap. apply register_lookup_other.
    by rewrite register_names.
  - by exists calls.
Qed.

(** X16: once [online] has returned, every shader of the resource can
    be submitted: the map holds, for its name, a valid program and the
    render state of the last entry of the resource with that name, and
    [submit] sets that state and submits that program.  Names that are
    not in the resource keep what they had, and [bgfx] has received
    three creation calls for each entry and nothing else. *)
Theorem online_makes_shaders_submittable (id : StringId64) (rm : ResourceManager)
    (w w1 : State) :
  online b id rm w = (Ok tt, w1) →
  (∀ data, data ∈ rm id →
     ∃ sd before data' after,
       _shader_map w1 !! data_name data = Some sd ∧
       isValid_program b (sd_program sd) = true ∧
       rm id = before ++ data' :: after ∧
       data_name data' = data_name data ∧
       (data_name data ∉ data_name <$> after) ∧
       sd_state sd = data_state data' ∧
       ∀ view_id,
         submit b (data_name data) view_id w1 =
           (Ok tt,
            mkState (_shader_map w1)
              (bgfx_calls w1 ++ [SetState (sd_state sd); Submit view_id (sd_program sd)]))) ∧
  (∀ name, name ∉ data_name <$> rm id → _shader_map w1 !! name = _shader_map w !! name) ∧
  ∃ calls, bgfx_calls w1 = bgfx_calls w ++ calls ∧ length calls = 3 * length (rm id) ∧
           forallb creation calls = true.
Proof.
  unfold online. intros H.
  apply online_loop_registers in H as (Hreg & Hother & Hcalls).
  split; [|by split].
  intros data Hin.
  destruct (Hreg data Hin) as (sd & before & data' & after & Hheld & Hvalid & Hsplit & H).
  exists sd, before, data', after. split; [done|]. split; [done|]. split; [done|].
  destruct H as (? & ? & ?). split; [done|]. split; [done|]. split; [done|].
  intros view_id. by apply submit_registered.
Qed.

(** X17: when a handle [bgfx] returns is not valid, [online] stops at
    that entry with the assertion that names the step, and takes nothing
    back: the shaders of the entries before it stay registered with
    valid programs, no other name has changed, and every call [bgfx]
    has received is a creation. *)
Theorem online_stops_without_rollback (id : StringId64) (rm : ResourceManager)
    (w w1 : State) (f : Fault) :
  online b id rm w = (Failed f, w1) →
  ∃ done data rest calls,
    rm id = done ++ data :: rest ∧
    bgfx_calls w1 = bgfx_calls w ++ calls ∧
    forallb creation calls = true ∧
    (f = PreconditionFault "Failed to create vertex shader" ∧
       length calls = 3 * length done + 1 ∨
     f = PreconditionFault "Failed to create fragment shader" ∧
       length calls = 3 * length done + 2 ∨
     f = PreconditionFault "Failed to create GPU program" ∧
       length calls = 3 * length done + 3) ∧
    (∀ d, d ∈ done →
       ∃ sd, _shader_map w1 !! data_name d = Some sd ∧
             isValid_program b (sd_program sd) = true) ∧
    (∀ name, name ∉ data_name <$> done → _shader_map w1 !! name = _shader_map w !! name).
Proof.
  unfold online. intros H.
  apply online_loop_stopped in H as (done & data & rest & w0 & Hsplit & Hdone & Hstop).
  apply online_body_stopped in Hstop as (Hsame & calls' & Hcalls' & _ & Hcre' & Hf).
  pose proof (online_loop_registers done w w0 Hdone) as (Hreg & Hother & Hc).
  destruct Hc as (calls & Hcalls & Hlen & Hcre).
  exists done, data, rest, (calls ++ calls').
  split; [done|]. split; [by rewrite Hcalls', Hcalls, app_assoc|].
  split; [rewrite forallb_app, Hcre, Hcre'; done|].
  split.
  { rewrite length_app, Hlen.
    destruct Hf as [[-> ->]|[[-> ->]|[-> ->]]]; [left|right; left|right; right]; done. }
  rewrite Hsame. split; [|exact Hother].
  intros d Hd. destruct (Hreg d Hd) as (sd & _ & _ & _ & Hheld & Hvalid & _). by exists sd.
Qed.

(** X18: [offline] calls [bgfx::destroyProgram] once for each entry of
    the resource, in order, with the program the map held for the
    entry's name when [offline] was called, and with
    [BGFX_INVALID_HANDLE] when the map held none or an earlier entry of
    the resource has the same name.  Afterwards no name of the resource
    is in the map, every other name is as before, and [submit] of a
    shader of the resource stops at its assertion without a call to
    [bgfx]. *)
Theorem offline_destroys_and_removes (id : StringId64) (rm : ResourceManager) (w : State) :
  ∃ ps,
    bgfx_calls (offline b id rm w) = bgfx_calls w ++ (DestroyProgram <$> ps) ∧
    length ps = length (rm id) ∧
    (∀ i data, rm id !! i = Some data →
       ps !! i = Some (if decide (data_name data ∈ data_name <$> take i (rm id))
                       then BGFX_INVALID_HANDLE b
                       else default (BGFX_INVALID_HANDLE b)
                              (sd_program <$> _shader_map w !! data_name data))) ∧
    (∀ name, _shader_map (offline b id rm w) !! name =
               if decide (name ∈ data_name <$> rm id) then None else _shader_map w !! name) ∧
    (∀ data view_id, data ∈ rm id →
       submit b (data_name data) view_id (offline b id rm w) =
         (Failed (PreconditionFault "Shader not found"), offline b id rm w)).
Proof.
  unfold offline.
  destruct (offline_loop_spec (rm id) w) as (ps & Hcalls & Hlen & Hps & Hmap).
  exists ps. split; [done|]. split; [done|]. split.
  { intros i data Hi. rewrite (Hps i data Hi). f_equal. case_decide; [done|].
    unfold held, hash_map_get. by destruct (_shader_map w !! data_name data). }
  split; [done|].
  intros data view_id Hin. apply submit_missing. rewrite Hmap.
  by rewrite decide_True by by apply list_elem_of_fmap_2.
Qed.

(** X19: for a resource whose entries have different names, [offline]
    after [online] destroys the programs that [online] created, each
    once and in the order of their creation, and leaves no name of the
    resource in the map. *)
Theorem offline_after_online_destroys_created (id : StringId64) (rm : ResourceManager)
    (w w1 : State) :
  NoDup (data_name <$> rm id) →
  online b id rm w = (Ok tt, w1) →
  ∃ calls1 calls2,
    bgfx_calls w1 = bgfx_calls w ++ calls1 ∧
    bgfx_calls (offline b id rm w1) = bgfx_calls w1 ++ calls2 ∧
    length (programs_created calls1) = length (rm id) ∧
    programs_destroyed calls1 = [] ∧
    programs_destroyed calls2 = programs_created calls1 ∧
    length calls2 = length (rm id) ∧
    ∀ name, _shader_map (offline b id rm w1) !! name =
              if decide (name ∈ data_name <$> rm id) then None else _shader_map w !! name.
Proof.
  unfold online, offline. intros Hnodup H.
  pose proof (online_loop_registers _ _ _ H) as (_ & Hother & _).
  apply online_loop_ok in H as (calls & Hcalls & Hlen & Hcre & Hlen' & Hvalid & Hmap).
  exists calls, (DestroyProgram <$> programs_created calls).
  split; [done|].
  split; [by apply (offline_loop_registered _ _ (_shader_map w))|].
  split; [done|]. split.
  { clear -Hcre. induction calls as [|c calls IH]; [done|].
    simpl in Hcre. apply andb_prop in Hcre as [Hc Hcre].
    destruct c; try done; by apply IH. }
  split; [apply programs_destroyed_fmap|]. split; [by rewrite length_fmap|].
  intros name. destruct (offline_loop_spec (rm id) w1) as (_ & _ & _ & _ & ->).
  case_decide; [done|]. by apply Hother.
Qed.

End ShaderManagerProperties.

(** * The theorems at work on a small configuration *)

(** Two slots per table, names of at most seven characters, one stock name. *)
Definition example_stock (name : string) : ShaderUniform :=
  if decide (name = "u_model") then ShaderUniformEnum 0 else ShaderUniform_COUNT.

Definition example_renderer : Renderer := Renderer_new 2 2 2 2 2 2 2.

Definition example_initial : System := initial 2 2 2 2 2 2 2.

(** [init()] up to the swap of its frame: the consumer is about to
    execute the stream that holds INIT_RENDERER. *)
Definition example_init_until_execute : list Action :=
  [DoInit; DoInitWrite; DoPost; Consume; Consume; Consume].

(** [init()] run to its end, and the render thread back at its wait. *)
Definition example_init : list Action :=
  [DoInit; DoInitWrite; DoPost; Consume; Consume; Consume; Consume; Consume; Consume;
   Consume; DoWait; Consume].

(** A frame's worth of submissions. *)
Definition example_submissions : list Submission :=
  [InitRecord;
   Api (call_create_vertex_buffer 3 (VertexFormatEnum 1) (Address 4096));
   Api (call_create_uniform "u_color" (UniformTypeEnum 3) 1);
   Api (call_set_uniform (IdTable.mkId 0 0) (UniformTypeEnum 3) (Some ["a"; "b"]%char) 1);
   Api (call_set_vertex_buffer (IdTable.mkId 0 0));
   Api (call_commit 0);
   Api (call_destroy_vertex_buffer (IdTable.mkId 0 0))].

(** A command stream written by hand: two records and whatever follows them. *)
Definition example_records : list Submission :=
  [Api (call_create_vertex_buffer 3 (VertexFormatEnum 1) (Address 4096));
   Api (call_destroy_vertex_buffer (IdTable.mkId 0 0))].

Definition example_answers : list (option Id) := [Some (IdTable.mkId 0 0); None].

Definition example_stream (rest : list Cell) : Renderer :=
  set_context Context1
    (with_commands
       (λ _, {| cb_cells := submission_cells_all example_records example_answers ++ rest;
                cb_cursor := 0 |})
       RenderContext_new)
    example_renderer.

(** [init()], then [shutdown()] up to the return of its [frame()]. *)
Definition example_shutdown_until_stop : list Action :=
  example_init ++
  [DoShutdown; DoPost; Consume; Consume; Consume; Consume; Consume; Consume; DoWait].

(** A [bgfx] that numbers its handles by the calls it has received, and
    one that runs out of programs after the first. *)
Definition example_bgfx : ShaderManager.Bgfx :=
  ShaderManager.mkBgfx 0%N 65535%N
    (λ calls _, ShaderManager.mkShaderHandle (N.of_nat (length calls)))
    (λ calls _ _ _, ShaderManager.mkProgramHandle (N.of_nat (length calls))).

Definition example_bgfx_one_program : ShaderManager.Bgfx :=
  ShaderManager.mkBgfx 0%N 65535%N
    (λ calls _, ShaderManager.mkShaderHandle (N.of_nat (length calls)))
    (λ calls _ _ _,
       ShaderManager.mkProgramHandle (if decide (length calls < 3) then 2%N else 65535%N)).

(** A resource of two shaders, whatever the id. *)
Definition example_resources : ShaderManager.ResourceManager :=
  λ _, [ShaderManager.mkData 7%N 1%N (Address 16) (Address 32);
        ShaderManager.mkData 9%N 2%N (Address 48) (Address 64)].

Definition example_shaders : ShaderManager.State := ShaderManager.mkState ∅ [].

(** A frame in which a uniform value is submitted with the sentinel type
    before another one and a draw. *)
Definition example_cut_submissions : list Submission :=
  [InitRecord;
   Api (call_create_uniform "u_color" (UniformTypeEnum 3) 1);
   Api (call_set_uniform (IdTable.mkId 0 0) UniformType_END (Some ["c"]%char) 1);
   Api (call_set_uniform (IdTable.mkId 0 0) (UniformTypeEnum 3) (Some ["a"; "b"]%char) 1);
   Api (call_commit 0)].

Lemma handoff_mutual_exclusion_witness :
  ∃ s, run_schedule 8 example_stock example_init_until_execute example_initial = Some s ∧
       consumer s = AtExecute ∧
       (producer_touches s = [] ∨ consumer_touches s = []) ∧
       (∀ j, j ∈ producer_touches s → j ∉ consumer_touches s) ∧
       frames_returned (renderer s) ≤ renders_done (renderer s) ∧
       renders_done (renderer s) ≤ frames_begun (renderer s) ∧
       frames_begun (renderer s) ≤ renders_done (renderer s) + 1 ∧
       (waiting (producer s) = false →
          frames_begun (renderer s) = frames_returned (renderer s) ∧
          renders_done (renderer s) = frames_returned (renderer s) ∧
          idle (consumer s) = true).
Proof.
  eexists. split; [vm_compute; reflexivity|]. split; [reflexivity|].
  apply (handoff_mutual_exclusion 2 2 2 2 2 2 2 8 example_stock).
  apply (run_schedule_reachable 2 2 2 2 2 2 2 8 example_stock example_init_until_execute).
  vm_compute. reflexivity.
Defined.

Lemma producer_validates_before_encoding_witness :
  ∃ msg, destroy_vertex_buffer (IdTable.mkId 0 0) example_renderer =
           (Failed (PreconditionFault msg), example_renderer).
Proof.
  apply (proj2 (producer_validates_before_encoding 2 2 2 2 2 2 2 8 example_stock)
           [] [] example_renderer (IdTable.mkId 0 0)).
  - reflexivity.
  - apply not_elem_of_nil.
Defined.



Lemma command_stream_round_trip_witness :
  ∃ answers r1 r2 r3 r4,
    run_submissions 8 example_stock example_submissions example_renderer = (Ok answers, r1) ∧
    swap_contexts r1 = (Ok tt, r2) ∧
    m_commands (context (m_draw r2) r2) =
      {| cb_cells := submission_cells_all example_submissions answers ++ [CellCommand END];
         cb_cursor := 0 |} ∧
    (CellCommand END ∉ submission_cells_all example_submissions answers) ∧
    execute_loop 8 (S (unread (m_draw r2) r2)) (m_draw r2) r2 = (Ok tt, r3) ∧
    pending (m_draw r2) r3 = [] ∧
    m_trace r3 = m_trace r2 ++ dispatched_all example_submissions answers ∧
    execute_commands 8 (m_draw r2) r2 = (Ok tt, r4) ∧
    m_trace r4 = m_trace r3 ∧
    m_commands (context (m_draw r2) r4) = CommandBuffer_new.
Proof.
  eexists _, _.
  assert (run_submissions 8 example_stock example_submissions example_renderer = (Ok _, _))
    as Hrun by (vm_compute; reflexivity).
  destruct (command_stream_round_trip 8 example_stock example_submissions _ example_renderer _
              eq_refl Hrun) as (r2 & r3 & r4 & H).
  exists r2, r3, r4. split; [exact Hrun|exact H].
Defined.

Lemma create_uniform_name_length_boundary_witness :
  (∃ r', create_uniform 8 example_stock "u_color" (UniformTypeEnum 3) 1 example_renderer =
           (Ok (IdTable.mkId 0 0), r')) ∧
  (∀ other type' num' id' r',
     create_uniform 8 example_stock other type' num' example_renderer = (Ok id', r') →
     strlen other ≤ strlen "u_color") ∧
  ∃ tb, create_uniform 8 example_stock "u_colour" (UniformTypeEnum 3) 1 example_renderer =
          (Failed (PreconditionFault "Max uniform name length is %d"),
           set_table Uniforms tb example_renderer).
Proof.
  assert (∃ tb, IdTable.create (m_uniforms example_renderer) = Some (IdTable.mkId 0 0, tb))
    as [tb Hcreate] by (eexists; vm_compute; reflexivity).
  destruct (create_uniform_name_length_boundary 8 example_stock "u_color" "u_colour"
              (UniformTypeEnum 3) 1 example_renderer (IdTable.mkId 0 0) tb)
    as (Hfits & Hmax & Hlonger).
  - reflexivity.
  - reflexivity.
  - exact Hcreate.
  - reflexivity.
  - reflexivity.
  - split; [exact Hfits|]. split; [exact Hmax|]. by exists tb.
Defined.

Lemma producer_destroy_keeps_table_witness :
  ∃ id r0 r',
    create_vertex_buffer 3 (VertexFormatEnum 1) (Address 4096) example_renderer = (Ok id, r0) ∧
    run_call 8 example_stock (call_destroy_vertex_buffer id) r0 = (Ok None, r') ∧
    (∀ k', table k' r' = table k' r0) ∧
    table_has VertexBuffers id r' = true ∧
    (∀ cs res r'', run_calls 8 example_stock cs r' = (res, r'') →
       table_has VertexBuffers id r'' = true ∧
       ∀ id' tb', IdTable.create (table VertexBuffers r'') = Some (id', tb') →
                  IdTable.id_index id' ≠ IdTable.id_index id).
Proof.
  eexists _, _, _. split; [vm_compute; reflexivity|].
  match goal with |- ?A ∧ _ => assert A as Hrun by (vm_compute; reflexivity) end.
  split; [exact Hrun|].
  exact (producer_destroy_keeps_table 8 example_stock
           (call_destroy_vertex_buffer (IdTable.mkId 0 0)) VertexBuffers (IdTable.mkId 0 0)
           _ _ _ eq_refl Hrun).
Defined.

Lemma create_uniform_length_fault_keeps_slot_witness :
  ∃ msg tb,
    create_uniform 8 example_stock "u_colour" (UniformTypeEnum 3) 1 example_renderer =
      (Failed (PreconditionFault msg), set_table Uniforms tb example_renderer) ∧
    table_has Uniforms (IdTable.mkId 0 0) example_renderer = false ∧
    table_has Uniforms (IdTable.mkId 0 0) (set_table Uniforms tb example_renderer) = true ∧
    length (IdTable.live_ids (m_uniforms (set_table Uniforms tb example_renderer))) =
      S (length (IdTable.live_ids (m_uniforms example_renderer))).
Proof.
  destruct (proj2 (create_uniform_length_fault_keeps_slot 8 example_stock "u_colour"
                     (UniformTypeEnum 3) 1 example_renderer) eq_refl)
    with (id := IdTable.mkId 0 0)
         (tb := IdTable.mkTable [IdTable.mkSlot true 0; IdTable.mkSlot false 0])
    as (msg & H); [vm_compute; lia|reflexivity|].
  exists msg. eexists. exact H.
Defined.

Lemma idle_frames_hand_off_witness :
  ∃ s, run_schedule 8 example_stock example_init example_initial = Some s ∧
    (∃ s', run_schedule 8 example_stock (frames 3) s = Some s' ∧
           ready 2 2 2 2 2 2 2 8 example_stock s' ∧
           frames_returned (renderer s') = frames_returned (renderer s) + 3 ∧
           handoffs (renderer s') = handoffs (renderer s) + 3 ∧
           ∀ j, m_commands (context j (renderer s')) = CommandBuffer_new) ∧
    (∀ s', rtc (frame_step 8 example_stock) s s' →
       (∀ j, Forall (λ c, c = CellCommand END)
               (cb_cells (m_commands (context j (renderer s'))))) ∧
       (waiting (producer s') = false →
          handoffs (renderer s') - handoffs (renderer s) =
            frames_returned (renderer s') - frames_returned (renderer s) ∧
          ∀ j, m_commands (context j (renderer s')) = CommandBuffer_new)).
Proof.
  eexists.
  assert (run_schedule 8 example_stock example_init example_initial = Some _) as Hrun
    by (vm_compute; reflexivity).
  split; [exact Hrun|].
  apply (idle_frames_hand_off 2 2 2 2 2 2 2 8 example_stock 3).
  split; [|split; [|split]]; [|vm_compute; repeat split; reflexivity|reflexivity|reflexivity].
  exact (run_schedule_reachable 2 2 2 2 2 2 2 8 example_stock _ _ Hrun).
Defined.

Lemma failed_call_leaves_renderer_witness :
  ∃ r' f,
    run_call 8 example_stock (call_create_uniform "u_colours" (UniformTypeEnum 3) 1)
      example_renderer = (Failed f, r') ∧
    r' ≠ example_renderer ∧
    context Context0 r' = context Context0 example_renderer ∧
    context Context1 r' = context Context1 example_renderer ∧
    (f = CapacityFault ∧
       creates (call_create_uniform "u_colours" (UniformTypeEnum 3) 1) ≠ None ∨
     ∃ msg, f = PreconditionFault msg).
Proof.
  eexists _, _.
  match goal with |- ?A ∧ _ => assert A as Hrun by (vm_compute; reflexivity) end.
  split; [exact Hrun|]. split; [by vm_compute|].
  exact (proj2 (failed_call_leaves_renderer 8 example_stock _ _ _ _ Hrun)).
Defined.

Lemma created_ids_fresh_and_bounded_witness :
  ∃ answers r',
    run_calls 8 example_stock
      [call_create_texture 4 4 (PixelFormatEnum 0) (Address 64);
       call_create_vertex_buffer 3 (VertexFormatEnum 1) (Address 4096);
       call_create_texture 2 2 (PixelFormatEnum 0) (Address 128)]
      example_renderer = (Ok answers, r') ∧
    created Textures
      [call_create_texture 4 4 (PixelFormatEnum 0) (Address 64);
       call_create_vertex_buffer 3 (VertexFormatEnum 1) (Address 4096);
       call_create_texture 2 2 (PixelFormatEnum 0) (Address 128)] answers =
      [IdTable.mkId 0 0; IdTable.mkId 1 0] ∧
    length (IdTable.live_ids (table Textures r')) =
      length (IdTable.live_ids (table Textures example_renderer)) + 2.
Proof.
  eexists _, _.
  match goal with |- ?A ∧ _ => assert A as Hrun by (vm_compute; reflexivity) end.
  split; [exact Hrun|]. split; [vm_compute; reflexivity|].
  destruct (created_ids_fresh_and_bounded 8 example_stock _ _ _ _ Textures Hrun)
    as (_ & _ & Hlive & _).
  exact Hlive.
Defined.

Lemma execute_commands_unknown_command_witness :
  ∃ r',
    execute_commands 8 Context1
      (example_stream [CellCommand (OTHER_COMMAND 99); CellCommand END]) =
      (Failed UnknownCommand, r') ∧
    m_trace r' = dispatched_all example_records example_answers ∧
    pending Context1 r' = [CellCommand END].
Proof.
  destruct (execute_commands_unknown_command 8 example_records example_answers Context1
              (example_stream [CellCommand (OTHER_COMMAND 99); CellCommand END]) 99
              [CellCommand END]) as (r' & Hrun & Htrace & _ & Hrest).
  - unfold example_records. repeat (apply Forall_cons; split; [by simpl|]). constructor.
  - reflexivity.
  - reflexivity.
  - exists r'. split; [exact Hrun|]. split; [exact Htrace|exact Hrest].
Defined.

Lemma execute_commands_stops_at_first_END_witness :
  ∃ r',
    execute_commands 8 Context1
      (example_stream [CellCommand END; CellCommand DESTROY_TEXTURE; CellId (IdTable.mkId 0 0)]) = (Ok tt, r') ∧
    m_trace r' = dispatched_all example_records example_answers ∧
    m_commands (context Context1 r') = CommandBuffer_new.
Proof.
  apply (execute_commands_stops_at_first_END 8 example_records example_answers Context1
           (example_stream [CellCommand END; CellCommand DESTROY_TEXTURE; CellId (IdTable.mkId 0 0)])
           [CellCommand DESTROY_TEXTURE; CellId (IdTable.mkId 0 0)]).
  - unfold example_records. repeat (apply Forall_cons; split; [by simpl|]). constructor.
  - reflexivity.
  - reflexivity.
Defined.

Lemma set_uniform_END_type_cuts_constants_witness :
  ∃ answers r1 r2 r3,
    run_submissions 8 example_stock
      ([Api (call_create_uniform "u_color" (UniformTypeEnum 3) 1);
        Api (call_set_uniform (IdTable.mkId 0 0) (UniformTypeEnum 3) (Some ["a"; "b"]%char) 1)] ++
       Api (call_set_uniform (IdTable.mkId 0 0) UniformType_END (Some ["c"]%char) 1) ::
       [Api (call_set_uniform (IdTable.mkId 0 0) (UniformTypeEnum 3) (Some ["d"]%char) 1)])
      example_renderer = (Ok answers, r1) ∧
    swap_contexts r1 = (Ok tt, r2) ∧
    update_uniforms (m_draw r2) r2 = (Ok tt, r3) ∧
    m_trace r3 =
      m_trace r2 ++
      [update_uniform_impl (IdTable.mkId 0 0) 2 ["a"; "b"]%char] ∧
    m_constants (context (m_draw r2) r3) = ConstantBuffer_new.
Proof.
  eexists _, _.
  match goal with |- ∃ r2 r3, ?A ∧ _ => assert A as Hrun by (vm_compute; reflexivity) end.
  assert (Forall tagged
            [Api (call_create_uniform "u_color" (UniformTypeEnum 3) 1);
             Api (call_set_uniform (IdTable.mkId 0 0) (UniformTypeEnum 3)
                    (Some ["a"; "b"]%char) 1)]) as Htag.
  { repeat (apply Forall_cons; split; [by simpl|]). constructor. }
  destruct (set_uniform_END_type_cuts_constants 8 example_stock _ _ _ _ _ _ example_renderer _
              eq_refl Htag Hrun) as (r2 & r3 & Hswap & Hunif & Htrace & Hconst).
  exists r2, r3. split; [exact Hrun|]. split; [exact Hswap|]. split; [exact Hunif|].
  split; [exact Htrace|exact Hconst].
Defined.

Lemma render_thread_never_faults_witness :
  ∃ s, run_schedule 8 example_stock example_init_until_execute example_initial = Some s ∧
       consumer s = AtExecute ∧
       ∃ r', execute_commands 8 (m_draw (renderer s)) (renderer s) = (Ok tt, r').
Proof.
  eexists. split; [vm_compute; reflexivity|]. split; [reflexivity|].
  apply (render_thread_never_faults 2 2 2 2 2 2 2 8 example_stock); [|reflexivity].
  apply (run_schedule_reachable 2 2 2 2 2 2 2 8 example_stock example_init_until_execute).
  vm_compute. reflexivity.
Defined.

Lemma frame_returns_witness :
  ∃ s n s',
    run_schedule 8 example_stock [DoInit; DoInitWrite; DoPost] example_initial = Some s ∧
    producer s = AtWait ToCaller ∧
    n ≤ 7 ∧
    run_schedule 8 example_stock (replicate n Consume ++ [DoWait]) s = Some s' ∧
    producer s' = after_frame ToCaller.
Proof.
  eexists. 
  match goal with |- ∃ n s', ?A ∧ _ => assert A as Hrun by (vm_compute; reflexivity) end.
  destruct (frame_returns 2 2 2 2 2 2 2 8 example_stock _ ToCaller
              (run_schedule_reachable 2 2 2 2 2 2 2 8 example_stock _ _ Hrun) eq_refl
              (or_introl eq_refl)) as (n & s' & Hn & Hsched & Hp).
  exists n, s'. split; [exact Hrun|]. split; [reflexivity|]. split; [exact Hn|].
  split; [exact Hsched|exact Hp].
Defined.

Lemma stuck_iff_frame_without_render_thread_witness :
  ∃ s', act 8 example_stock DoFrame example_initial = Some s' ∧
        ∀ a, act 8 example_stock a s' = None.
Proof.
  apply (stuck_iff_frame_without_render_thread 2 2 2 2 2 2 2 8 example_stock example_initial).
  - apply (run_schedule_reachable 2 2 2 2 2 2 2 8 example_stock []). reflexivity.
  - reflexivity.
  - reflexivity.
Defined.

Lemma shutdown_acts_iff_render_thread_runs_witness :
  m_should_run (renderer example_initial) = false ∧
  act 8 example_stock DoShutdown example_initial = Some example_initial.
Proof.
  destruct (shutdown_acts_iff_render_thread_runs 2 2 2 2 2 2 2 8 example_stock example_initial)
    as (Hrun & Hnone & _).
  - apply (run_schedule_reachable 2 2 2 2 2 2 2 8 example_stock []). reflexivity.
  - reflexivity.
  - split; [exact Hrun|]. apply Hnone. reflexivity.
Defined.

Lemma shutdown_frame_stops_render_thread_witness :
  ∃ s, run_schedule 8 example_stock example_shutdown_until_stop example_initial = Some s ∧
       producer s = AtStop ∧
       m_should_run (renderer s) = false ∧ m_is_initialized (renderer s) = false ∧
       shutdown_impl ∈ m_trace (renderer s).
Proof.
  eexists. split; [vm_compute; reflexivity|]. split; [reflexivity|].
  match goal with |- context [m_should_run (renderer ?s)] =>
    destruct (shutdown_frame_stops_render_thread 2 2 2 2 2 2 2 8 example_stock s)
      as (Hrun & Hinit & Htrace & _)
  end.
  - apply (run_schedule_reachable 2 2 2 2 2 2 2 8 example_stock example_shutdown_until_stop).
    vm_compute. reflexivity.
  - reflexivity.
  - split; [exact Hrun|]. split; [exact Hinit|exact Htrace].
Defined.

Lemma shutdown_returns_witness :
  ∃ s n m s',
    run_schedule 8 example_stock example_init example_initial = Some s ∧
    n ≤ 7 ∧ m ≤ 1 ∧
    run_schedule 8 example_stock (shutdown_schedule n m) s = Some s' ∧
    producer s' = InUserCode ∧ consumer s' = Finished ∧
    m_should_run (renderer s') = false ∧ m_is_initialized (renderer s') = false ∧
    shutdown_impl ∈ m_trace (renderer s').
Proof.
  eexists.
  match goal with |- ∃ n m s', ?A ∧ _ => assert A as Hrun by (vm_compute; reflexivity) end.
  destruct (shutdown_returns 2 2 2 2 2 2 2 8 example_stock _
              (run_schedule_reachable 2 2 2 2 2 2 2 8 example_stock _ _ Hrun) eq_refl eq_refl)
    as (n & m & s' & Hn & Hm & H).
  exists n, m, s'. split; [exact Hrun|]. split; [exact Hn|]. split; [exact Hm|exact H].
Defined.

Lemma init_returns_initialized_witness :
  ∃ s', run_schedule 8 example_stock init_schedule example_initial = Some s' ∧
        producer s' = InUserCode ∧ consumer s' = AtLoopHead ∧
        m_should_run (renderer s') = true ∧ m_is_initialized (renderer s') = true.
Proof.
  destruct (init_returns_initialized 2 2 2 2 2 2 2 8 example_stock example_initial)
    as (s' & _ & _ & _ & Hsched & Hp & Hc & Hrun & Hinit & _).
  - apply (run_schedule_reachable 2 2 2 2 2 2 2 8 example_stock []). reflexivity.
  - reflexivity.
  - reflexivity.
  - exists s'. split; [exact Hsched|]. split; [exact Hp|]. split; [exact Hc|].
    split; [exact Hrun|exact Hinit].
Defined.

Lemma no_backlog_outside_frame_witness :
  ∃ s, run_schedule 8 example_stock example_init example_initial = Some s ∧
       idle (consumer s) = true ∧
       m_commands (context (m_draw (renderer s)) (renderer s)) = CommandBuffer_new ∧
       m_constants (context (m_draw (renderer s)) (renderer s)) = ConstantBuffer_new ∧
       cb_cursor (m_commands (submit_context (renderer s))) = 0 ∧
       kb_cursor (m_constants (submit_context (renderer s))) = 0 ∧
       m_render_wait (renderer s) = 0 ∧ m_main_wait (renderer s) = 0.
Proof.
  eexists. split; [vm_compute; reflexivity|].
  apply (no_backlog_outside_frame 2 2 2 2 2 2 2 8 example_stock); [|reflexivity].
  apply (run_schedule_reachable 2 2 2 2 2 2 2 8 example_stock example_init).
  vm_compute. reflexivity.
Defined.

Lemma online_makes_shaders_submittable_witness :
  ∃ w1 sd,
    ShaderManager.online example_bgfx 1%N example_resources example_shaders = (Ok tt, w1) ∧
    ShaderManager._shader_map w1 !! 9%N = Some sd ∧
    ShaderManager.isValid_program example_bgfx (ShaderManager.sd_program sd) = true ∧
    ∀ view_id,
      ShaderManager.submit example_bgfx 9%N view_id w1 =
        (Ok tt,
         ShaderManager.mkState (ShaderManager._shader_map w1)
           (ShaderManager.bgfx_calls w1 ++
            [ShaderManager.SetState (ShaderManager.sd_state sd);
             ShaderManager.Submit view_id (ShaderManager.sd_program sd)])).
Proof.
  eexists.
  match goal with |- ∃ sd, ?A ∧ _ => assert A as Hrun by (vm_compute; reflexivity) end.
  destruct (online_makes_shaders_submittable example_bgfx 1%N example_resources _ _ Hrun)
    as (Hreg & _).
  destruct (Hreg (ShaderManager.mkData 9%N 2%N (Address 48) (Address 64)))
    as (sd & _ & _ & _ & Hheld & Hvalid & _ & _ & _ & _ & Hsubmit).
  { apply list_elem_of_further, list_elem_of_here. }
  exists sd. split; [exact Hrun|]. split; [exact Hheld|]. split; [exact Hvalid|exact Hsubmit].
Defined.

Lemma online_stops_without_rollback_witness :
  ∃ w1 done data rest calls,
    ShaderManager.online example_bgfx_one_program 1%N example_resources example_shaders =
      (Failed (PreconditionFault "Failed to create GPU program"), w1) ∧
    example_resources 1%N = done ++ data :: rest ∧
    ShaderManager.bgfx_calls w1 = ShaderManager.bgfx_calls example_shaders ++ calls ∧
    forallb ShaderManager.creation calls = true ∧
    ∀ d, d ∈ done →
      ∃ sd, ShaderManager._shader_map w1 !! ShaderManager.data_name d = Some sd ∧
            ShaderManager.isValid_program example_bgfx_one_program
              (ShaderManager.sd_program sd) = true.
Proof.
  eexists.
  match goal with |- ∃ done data rest calls, ?A ∧ _ =>
    assert A as Hrun by (vm_compute; reflexivity) end.
  destruct (online_stops_without_rollback example_bgfx_one_program 1%N example_resources _ _ _
              Hrun) as (done & data & rest & calls & Hsplit & Hcalls & Hcre & _ & Hreg & _).
  exists done, data, rest, calls. split; [exact Hrun|]. split; [exact Hsplit|].
  split; [exact Hcalls|]. split; [exact Hcre|exact Hreg].
Defined.

Lemma offline_after_online_destroys_created_witness :
  ∃ w1 calls1 calls2,
    ShaderManager.online example_bgfx 1%N example_resources example_shaders = (Ok tt, w1) ∧
    ShaderManager.bgfx_calls w1 = calls1 ∧
    ShaderManager.bgfx_calls (ShaderManager.offline example_bgfx 1%N example_resources w1) =
      calls1 ++ calls2 ∧
    ShaderManager.programs_destroyed calls2 = ShaderManager.programs_created calls1 ∧
    length calls2 = 2.
Proof.
  eexists.
  match goal with |- ∃ c1 c2, ?A ∧ _ => assert A as Hrun by (vm_compute; reflexivity) end.
  assert (NoDup (ShaderManager.data_name <$> example_resources 1%N)) as Hnodup
    by (apply (bool_decide_unpack _); vm_compute; exact I).
  destruct (offline_after_online_destroys_created example_bgfx 1%N example_resources _ _
              Hnodup Hrun)
    as (calls1 & calls2 & Hcalls1 & Hcalls2 & _ & _ & Hsame & Hlen & _).
  exists calls1, calls2. split; [exact Hrun|]. split; [exact Hcalls1|].
  split; [rewrite Hcalls1 in Hcalls2; exact Hcalls2|]. split; [exact Hsame|exact Hlen].
Defined.
